(** * askly: hybrid search ranking and result fusion

    A shallow embedding of the search core of the askly backend
    ([app/services/search_service.py], [app/services/database.py],
    [app/utils/helpers.py], [ai_service_railway.py]) and the properties
    its specification states about it.

    Modelling conventions.
    - Python [str] is [string]; the text is taken to be ASCII.
    - Python [float] scores are exact rationals [Q]; the boost constant
      [1.2] is [6 # 5].  Rounding and NaN are outside the model.
    - [Optional[T]] is [option T]; a pydantic field declared with default
      [None] is always present as an attribute, so [getattr(r, f, d)]
      yields [None], never [d], when the field is unset.
    - A raised exception is the left injection of [result]; [try/except
      Exception] is [try_except].
    - Python [dict]s whose iteration order is observable are association
      lists ([dict]); the MongoDB match document and the response maps
      are [gmap]s.
    - Injected collaborators (the database service, the AI service, the
      cosine similarity of scikit-learn, the MongoDB text index and regex
      engine, [json.loads], the hosted model, the clock) are type
      classes; [Fixtures] gives the instances the examples run on.
    - [limit] and [offset] are natural numbers, as the request models
      require. *)

From Stdlib Require Import Ascii String QArith Qminmax Sorted.
From stdpp Require Import base option list strings gmap.

Set Warnings "-register-all".
Local Open Scope string_scope.
Local Open Scope list_scope.

(** ** Exceptions *)

Inductive Exception : Type :=
| TypeError (msg : string)
| ValueError (msg : string)
| AttributeError (msg : string)
| ValidationError (msg : string)
| JSONDecodeError (msg : string)
| IndexError (msg : string)
| ConnectionFailure (msg : string)
| OperationFailure (msg : string).

(** [str(e)] *)
Definition str_of_exception (e : Exception) : string :=
  match e with
  | TypeError m | ValueError m | AttributeError m
  | ValidationError m | JSONDecodeError m | IndexError m
  | ConnectionFailure m | OperationFailure m => m
  end.

Definition result (A : Type) : Type := (Exception + A)%type.

Definition ret {A} (a : A) : result A := inr a.
Definition raise {A} (e : Exception) : result A := inl e.

(** Sequencing of statements: an exception of the first aborts the rest.
    With the instance below, [x ← m; k] is the notation for it. *)
Definition bind {A B} (k : A -> result B) (m : result A) : result B :=
  match m with
  | inl e => inl e
  | inr a => k a
  end.

#[global] Instance result_ret : MRet result := @ret.
#[global] Instance result_bind : MBind result := @bind.

(** [try: body / except Exception as e: handler(e)] *)
Definition try_except {A} (body : result A) (handler : Exception -> result A)
  : result A :=
  match body with
  | inl e => handler e
  | inr a => inr a
  end.

(** A loop that threads an accumulator through a raising body. *)
Fixpoint foldM {A B} (f : B -> A -> result B) (b : B) (l : list A)
  : result B :=
  match l with
  | [] => ret b
  | x :: xs => b' ← f b x; foldM f b' xs
  end.

(** Sequential traversal of a list by a raising function: the first
    exception aborts the loop. *)
Fixpoint mapM {A B} (f : A -> result B) (l : list A) : result (list B) :=
  match l with
  | [] => ret []
  | x :: xs => y ← f x; ys ← mapM f xs; ret (y :: ys)
  end.

(** ** Python strings *)

Module Str.

Definition is_lower (c : ascii) : bool :=
  let n := nat_of_ascii c in (97 <=? n)%nat && (n <=? 122)%nat.
Definition is_upper (c : ascii) : bool :=
  let n := nat_of_ascii c in (65 <=? n)%nat && (n <=? 90)%nat.
Definition is_digit (c : ascii) : bool :=
  let n := nat_of_ascii c in (48 <=? n)%nat && (n <=? 57)%nat.
Definition is_alpha (c : ascii) : bool := is_lower c || is_upper c.

(** [\w] of the [re] module on ASCII text. *)
Definition is_word (c : ascii) : bool :=
  is_alpha c || is_digit c || (nat_of_ascii c =? 95)%nat.

(** The separators of [str.split()] and [str.strip()] without argument. *)
Definition is_space (c : ascii) : bool :=
  let n := nat_of_ascii c in
  ((9 <=? n)%nat && (n <=? 13)%nat) || ((28 <=? n)%nat && (n <=? 32)%nat).

Definition lower_char (c : ascii) : ascii :=
  if is_upper c then ascii_of_nat (nat_of_ascii c + 32) else c.

(** [s.lower()] *)
Fixpoint lower (s : string) : string :=
  match s with
  | EmptyString => EmptyString
  | String c r => String (lower_char c) (lower r)
  end.

(** [sub in s] *)
Fixpoint contains (sub s : string) : bool :=
  String.prefix sub s ||
  match s with
  | EmptyString => false
  | String _ r => contains sub r
  end.

(** [s.replace(old, new)] for a non-empty [old]: every occurrence,
    scanning left to right without overlap.  [skip] counts the
    characters of a matched occurrence still to be dropped. *)
Fixpoint replace_go (old new : string) (skip : nat) (s : string) : string :=
  match s with
  | EmptyString => EmptyString
  | String c r =>
      match skip with
      | S k => replace_go old new k r
      | O =>
          if String.prefix old s
          then new +:+ replace_go old new (String.length old - 1) r
          else String c (replace_go old new 0 r)
      end
  end.

Definition replace (old new s : string) : string :=
  match old with
  | EmptyString => s
  | _ => replace_go old new 0 s
  end.

Fixpoint drop (n : nat) (s : string) : string :=
  match n, s with
  | O, _ => s
  | S k, EmptyString => EmptyString
  | S k, String _ r => drop k r
  end.


(** Maximal runs of characters satisfying [p]; [cur] is the run being
    read, reversed. *)
Fixpoint runs_go (p : ascii -> bool) (cur : list ascii) (s : string)
  : list string :=
  match s with
  | EmptyString =>
      match cur with
      | [] => []
      | _ => [string_of_list_ascii (rev cur)]
      end
  | String c r =>
      if p c then runs_go p (c :: cur) r
      else match cur with
           | [] => runs_go p [] r
           | _ => string_of_list_ascii (rev cur) :: runs_go p [] r
           end
  end.

Definition runs (p : ascii -> bool) (s : string) : list string :=
  runs_go p [] s.

(** [s.split()] *)
Definition split (s : string) : list string :=
  runs (fun c => negb (is_space c)) s.

Fixpoint lstrip (s : string) : string :=
  match s with
  | EmptyString => EmptyString
  | String c r => if is_space c then lstrip r else s
  end.

Definition rev_string (s : string) : string :=
  string_of_list_ascii (rev (list_ascii_of_string s)).

(** [s.strip()] *)
Definition strip (s : string) : string :=
  rev_string (lstrip (rev_string (lstrip s))).

(** [sep.join(l)] *)
Fixpoint join (sep : string) (l : list string) : string :=
  match l with
  | [] => EmptyString
  | [x] => x
  | x :: xs => x +:+ sep +:+ join sep xs
  end.

Definition all_chars (p : ascii -> bool) (s : string) : bool :=
  forallb p (list_ascii_of_string s).

(** [s.find(sub, start)]: the least index [>= start] at which [sub]
    occurs, [-1] when there is none. *)
Fixpoint find_go (sub s : string) (i : nat) : Z :=
  if String.prefix sub s then Z.of_nat i
  else match s with
       | EmptyString => (-1)%Z
       | String _ r => find_go sub r (S i)
       end.

Definition find_from (sub s : string) (start : nat) : Z :=
  if (String.length s <? start)%nat then (-1)%Z
  else find_go sub (drop start s) start.

Definition find (sub s : string) : Z := find_from sub s 0.

(** [s.rfind(sub)]: the greatest index at which [sub] occurs. *)
Fixpoint rfind_go (sub s : string) (i : nat) (best : Z) : Z :=
  let best' := if String.prefix sub s then Z.of_nat i else best in
  match s with
  | EmptyString => best'
  | String _ r => rfind_go sub r (S i) best'
  end.

Definition rfind (sub s : string) : Z := rfind_go sub s 0 (-1)%Z.

(** [s[a:b]] for [0 <= a] and [0 <= b]. *)
Definition slice (s : string) (a b : nat) : string :=
  String.substring a (b - a) s.

End Str.

(** ** Python values and dictionaries *)

(** A value of type [Any]: what [json.loads] produces and what a filter
    mapping or a MongoDB query document holds.  Numbers (and timestamps)
    are rationals. *)
Inductive Json : Type :=
| JNull
| JBool (b : bool)
| JNum (q : Q)
| JStr (s : string)
| JArr (items : list Json)
| JObj (fields : list (string * Json)).

(** An insertion-ordered [dict] with string keys. *)
Abbreviation dict V := (list (string * V)).

Module Dict.

Section Ops.
Context {V : Type}.

(** [d.get(k)] *)
Fixpoint get (k : string) (d : dict V) : option V :=
  match d with
  | [] => None
  | (k', v) :: r => if String.eqb k k' then Some v else get k r
  end.

(** [d[k] = v]: an existing key keeps its position. *)
Fixpoint set (k : string) (v : V) (d : dict V) : dict V :=
  match d with
  | [] => [(k, v)]
  | (k', v') :: r =>
      if String.eqb k k' then (k, v) :: r else (k', v') :: set k v r
  end.

(** [k in d] *)
Definition mem (k : string) (d : dict V) : bool :=
  match get k d with Some _ => true | None => false end.

(** [list(d.values())] *)
Definition values (d : dict V) : list V := map snd d.

Definition keys (d : dict V) : list string := map fst d.
End Ops.

End Dict.

(** Truth value of a Python object in a condition. *)
Definition truthy (v : Json) : bool :=
  match v with
  | JNull => false
  | JBool b => b
  | JNum q => negb (Qeq_bool q 0)
  | JStr s => negb (String.eqb s "")
  | JArr l => match l with [] => false | _ => true end
  | JObj d => match d with [] => false | _ => true end
  end.

(** Equality of values ([==]). *)
Fixpoint json_eqb (a b : Json) : bool :=
  match a, b with
  | JNull, JNull => true
  | JBool x, JBool y => Bool.eqb x y
  | JNum x, JNum y => Qeq_bool x y
  | JStr x, JStr y => String.eqb x y
  | JArr xs, JArr ys =>
      (fix go (xs ys : list Json) : bool :=
         match xs, ys with
         | [], [] => true
         | x :: xs', y :: ys' => json_eqb x y && go xs' ys'
         | _, _ => false
         end) xs ys
  | JObj xs, JObj ys =>
      (fix go (xs ys : list (string * Json)) : bool :=
         match xs, ys with
         | [], [] => true
         | (k, x) :: xs', (k', y) :: ys' =>
             String.eqb k k' && json_eqb x y && go xs' ys'
         | _, _ => false
         end) xs ys
  | _, _ => false
  end.

(** ** [app/utils/helpers.py] *)

Module Helpers.

Definition stop_words : list string :=
  [ "the"; "a"; "an"; "and"; "or"; "but"; "in"; "on"; "at"; "to"; "for";
    "of"; "with"; "by"; "is"; "are"; "was"; "were"; "be"; "been"; "being";
    "have"; "has"; "had"; "do"; "does"; "did"; "will"; "would"; "could";
    "should"; "this"; "that"; "these"; "those"; "i"; "you"; "he"; "she";
    "it"; "we"; "they"; "me"; "him"; "her"; "us"; "them" ].

Definition in_list (x : string) (l : list string) : bool :=
  existsb (String.eqb x) l.

(** [re.findall(r'\b[a-zA-Z]{3,}\b', text)]: a match starts and ends at
    a word boundary, so it is a maximal run of word characters, made of
    letters only, of length at least three. *)
Definition findall_words (text : string) : list string :=
  filter (fun w => Str.all_chars Str.is_alpha w
                   && (3 <=? String.length w)%nat)
         (Str.runs Str.is_word text).

(** [list(dict.fromkeys(l))]: the first occurrence of each element, in
    order. *)
Fixpoint unique_go (seen l : list string) : list string :=
  match l with
  | [] => []
  | x :: r =>
      if in_list x seen then unique_go seen r
      else x :: unique_go (x :: seen) r
  end.

Definition unique (l : list string) : list string := unique_go [] l.

Definition extract_keywords_max (text : string) (max_keywords : nat)
  : list string :=
  let words := findall_words (Str.lower text) in
  let keywords := filter (fun w => negb (in_list w stop_words)) words in
  take max_keywords (unique keywords).

(** [extract_keywords(text)] with the default [max_keywords=10]. *)
Definition extract_keywords (text : string) : list string :=
  extract_keywords_max text 10.

(** [len(a) / len(b)] for [b] non-empty. *)
Definition ratio (a b : nat) : Q := Z.of_nat a # Pos.of_nat b.

Definition calculate_similarity_score (text1 text2 : string) : Q :=
  if String.eqb text1 "" || String.eqb text2 "" then 0
  else
    let words1 : gset string := list_to_set (Str.split (Str.lower text1)) in
    let words2 : gset string := list_to_set (Str.split (Str.lower text2)) in
    let intersection := words1 ∩ words2 in
    let union := words1 ∪ words2 in
    if (size union =? 0)%nat then 0
    else ratio (size intersection) (size union).

End Helpers.

(** ** Sorting and slicing *)

Definition Qltb (x y : Q) : bool := negb (Qle_bool y x).

Section StableSort.
Context {A : Type}.
(** [after x y]: [x] has to come after [y]. *)
Variable after : A -> A -> bool.

Fixpoint insert_sorted (x : A) (l : list A) : list A :=
  match l with
  | [] => [x]
  | y :: r => if after x y then y :: insert_sorted x r else x :: y :: r
  end.

(** A stable sort: elements that are not ordered by [after] keep their
    relative order, as Python's [sorted] and [list.sort] guarantee. *)
Fixpoint stable_sort (l : list A) : list A :=
  match l with
  | [] => []
  | x :: r => insert_sorted x (stable_sort r)
  end.
End StableSort.

(** [sorted(l, key=key, reverse=True)] *)
Definition sort_desc {A} (key : A -> Q) (l : list A) : list A :=
  stable_sort (fun x y => Qltb (key x) (key y)) l.

(** [sorted(l, key=key)] *)
Definition sort_asc {A} (key : A -> Q) (l : list A) : list A :=
  stable_sort (fun x y => Qltb (key y) (key x)) l.

(** [l[offset:offset + limit]] for non-negative [offset] and [limit]. *)
Definition page {A} (offset limit : nat) (l : list A) : list A :=
  take limit (drop offset l).

(** ** [app/models/data_models.py] *)

Inductive DataStatus : Type := ACTIVE | INACTIVE | DELETED | PROCESSING | ERROR.

(** The string value of the [str]-based enumeration. *)
Definition status_value (s : DataStatus) : string :=
  match s with
  | ACTIVE => "active"
  | INACTIVE => "inactive"
  | DELETED => "deleted"
  | PROCESSING => "processing"
  | ERROR => "error"
  end.

Module DataRecord.
(** The fields of [DataRecord] that the search core reads or copies.
    [score] is declared [Optional[float]] with default [None]: the
    attribute always exists.  [id] is taken to be set, as it is for
    every record the services create. *)
Record t : Type := mk {
  id : string;
  title : string;
  description : option string;
  content : dict Json;
  tags : list string;
  category : option string;
  status : DataStatus;
  metadata : dict Json;
  created_at : Q;
  embedding : option (list Q);
  search_text : option string;
  score : option Q
}.

(** [setattr(record, 'score', s)] *)
Definition set_score (s : option Q) (r : t) : t :=
  mk (id r) (title r) (description r) (content r) (tags r) (category r)
     (status r) (metadata r) (created_at r) (embedding r) (search_text r) s.
End DataRecord.

(** The dictionary every retrieval function returns. *)
Module SearchData.
Record t : Type := mk {
  data : list DataRecord.t;
  total_count : nat;
  offset : nat;
  limit : nat;
  returned_count : nat
}.
End SearchData.

Abbreviation Filters := (option (dict Json)).

(** [if filters:] *)
Definition filters_truthy (filters : Filters) : bool :=
  match filters with
  | Some (_ :: _) => true
  | _ => false
  end.

(** [filters.copy() if filters else {}] *)
Definition filters_copy (filters : Filters) : dict Json :=
  if filters_truthy filters then default [] filters else [].

(** ** The document store

    The MongoDB server is a collaborator.  Its text index and its regular
    expression engine are parameters; the evaluation of a [$match]
    document is given for the query operators this program emits or
    forwards, with MongoDB's meaning. *)

(** [text_score q d] is the [$meta: "textScore"] of [d] for
    [$text: {$search: q}], [None] when [d] does not match the text query;
    [regex_search pattern options subject] is [$regex] with [$options]. *)
Class MongoEngine : Type := {
  text_score : string -> DataRecord.t -> option Q;
  regex_search : string -> string -> string -> bool
}.

Module Mongo.

Definition opt_str (o : option string) : Json :=
  match o with Some s => JStr s | None => JNull end.

(** The value of a field, by its (possibly dotted) path. *)
Definition field_value (d : DataRecord.t) (key : string) : option Json :=
  if String.eqb key "id" then Some (JStr (DataRecord.id d))
  else if String.eqb key "title" then Some (JStr (DataRecord.title d))
  else if String.eqb key "description"
    then Some (opt_str (DataRecord.description d))
  else if String.eqb key "category"
    then Some (opt_str (DataRecord.category d))
  else if String.eqb key "status"
    then Some (JStr (status_value (DataRecord.status d)))
  else if String.eqb key "tags"
    then Some (JArr (map JStr (DataRecord.tags d)))
  else if String.eqb key "created_at"
    then Some (JNum (DataRecord.created_at d))
  else if String.eqb key "search_text"
    then Some (opt_str (DataRecord.search_text d))
  else if String.eqb key "score"
    then Some (match DataRecord.score d with
               | Some q => JNum q
               | None => JNull
               end)
  else if String.prefix "content." key
    then Dict.get (Str.drop 8 key) (DataRecord.content d)
  else if String.prefix "metadata." key
    then Dict.get (Str.drop 9 key) (DataRecord.metadata d)
  else None.

(** Equality match: a missing field equals [null]; an array field
    matches a value it contains. *)
Definition eq_match (fv : option Json) (v : Json) : bool :=
  match fv with
  | None => json_eqb v JNull
  | Some (JArr items) =>
      json_eqb (JArr items) v || existsb (fun x => json_eqb x v) items
  | Some x => json_eqb x v
  end.

Definition num_cmp (test : Q -> Q -> bool) (fv : option Json) (v : Json)
  : bool :=
  match fv, v with
  | Some (JNum a), JNum b => test a b
  | _, _ => false
  end.

Section Eval.
Context `{MongoEngine}.

Definition regex_match (pattern options : string) (fv : option Json)
  : bool :=
  match fv with
  | Some (JStr s) => regex_search pattern options s
  | Some (JArr items) =>
      existsb (fun x => match x with
                        | JStr s => regex_search pattern options s
                        | _ => false
                        end) items
  | _ => false
  end.

(** One operator of an operator document such as [{"$ne": v}]. *)
Definition op_holds (fv : option Json) (ops : dict Json)
           (op : string) (arg : Json) : bool :=
  if String.eqb op "$eq" then eq_match fv arg
  else if String.eqb op "$ne" then negb (eq_match fv arg)
  else if String.eqb op "$in" then
    match arg with
    | JArr vs => existsb (eq_match fv) vs
    | _ => false
    end
  else if String.eqb op "$nin" then
    match arg with
    | JArr vs => negb (existsb (eq_match fv) vs)
    | _ => false
    end
  else if String.eqb op "$gt" then num_cmp (fun a b => Qltb b a) fv arg
  else if String.eqb op "$gte" then num_cmp (fun a b => Qle_bool b a) fv arg
  else if String.eqb op "$lt" then num_cmp Qltb fv arg
  else if String.eqb op "$lte" then num_cmp Qle_bool fv arg
  else if String.eqb op "$regex" then
    match arg with
    | JStr p =>
        regex_match p
          (match Dict.get "$options" ops with
           | Some (JStr o) => o
           | _ => ""
           end) fv
    | _ => false
    end
  else String.eqb op "$options".

Definition is_operator_doc (ops : dict Json) : bool :=
  match ops with
  | [] => false
  | _ => forallb (fun kv => String.prefix "$" (fst kv)) ops
  end.

(** [{key: cond}] on one document. *)
Definition field_holds (d : DataRecord.t) (key : string) (cond : Json)
  : bool :=
  let fv := field_value d key in
  match cond with
  | JObj ops =>
      if is_operator_doc ops
      then forallb (fun kv => op_holds fv ops (fst kv) (snd kv)) ops
      else eq_match fv cond
  | _ => eq_match fv cond
  end.

(** A query document without logical operators. *)
Definition fields_hold (d : DataRecord.t) (q : dict Json) : bool :=
  forallb (fun kv => field_holds d (fst kv) (snd kv)) q.

(** One entry of the [$match] document. *)
Definition entry_holds (d : DataRecord.t) (key : string) (cond : Json)
  : bool :=
  if String.eqb key "$text" then
    match cond with
    | JObj ops =>
        match Dict.get "$search" ops with
        | Some (JStr q) => bool_decide (is_Some (text_score q d))
        | _ => false
        end
    | _ => false
    end
  else if String.eqb key "$or" then
    match cond with
    | JArr alts =>
        existsb (fun alt => match alt with
                            | JObj q => fields_hold d q
                            | _ => false
                            end) alts
    | _ => false
    end
  else field_holds d key cond.

(** [{"$match": match_conditions}] *)
Definition matches (match_conditions : gmap string Json)
           (d : DataRecord.t) : bool :=
  forallb (fun kv => entry_holds d (fst kv) (snd kv))
          (map_to_list match_conditions).
End Eval.

End Mongo.

(** ** [app/services/database.py] *)

Module Database.

(** The state of a [DatabaseService] that a search reads:
    [self.collection], [None] until [connect] has run. *)
Record t : Type := mk { collection : option (list DataRecord.t) }.

(** The body of the loop over [filters.items()]. *)
Definition add_filter (match_conditions : gmap string Json)
           (item : string * Json) : result (gmap string Json) :=
  let '(key, value) := item in
  match value with
  | JObj range =>
      if String.eqb key "date_range" then
        let mc :=
          match Dict.get "start" range with
          | Some start =>
              <["created_at" := JObj [("$gte", start)]]> match_conditions
          | None => match_conditions
          end in
        match Dict.get "end" range with
        | Some stop =>
            (* match_conditions.setdefault("created_at", {})["$lte"] *)
            match mc !! "created_at" with
            | None => ret (<["created_at" := JObj [("$lte", stop)]]> mc)
            | Some (JObj ops) =>
                ret (<["created_at" := JObj (Dict.set "$lte" stop ops)]> mc)
            | Some _ =>
                raise (TypeError "object does not support item assignment")
            end
        | None => ret mc
        end
      else ret (<[key := value]> match_conditions)
  | JArr _ =>
      if String.eqb key "tags"
      then ret (<["tags" := JObj [("$in", value)]]> match_conditions)
      else if String.eqb key "categories"
      then ret (<["category" := JObj [("$in", value)]]> match_conditions)
      else ret (<[key := value]> match_conditions)
  | _ => ret (<[key := value]> match_conditions)
  end.

(** [if query.strip():] *)
Definition has_text (query : string) : bool :=
  negb (String.eqb (Str.strip query) "").

(** The [$match] document that [search_records] builds. *)
Definition match_conditions (query : string) (filters : Filters)
  : result (gmap string Json) :=
  let mc0 : gmap string Json :=
    {[ "status" := JObj [("$ne", JStr "deleted")] ]} in
  let mc1 :=
    if has_text query
    then <["$text" := JObj [("$search", JStr query)]]> mc0
    else mc0 in
  if filters_truthy filters
  then foldM add_filter mc1 (default [] filters)
  else ret mc1.

Definition okey_lt (a b : option Q) : bool :=
  match a, b with
  | None, Some _ => true
  | Some x, Some y => Qltb x y
  | _, _ => false
  end.

(** [{"$sort": {sort_by: sort_order}}] on numeric fields; a missing or
    [null] key sorts lowest, equal keys keep the collection's order. *)
Definition sort_stage (sort_by : string) (sort_order : Z)
           (docs : list DataRecord.t) : list DataRecord.t :=
  let key d :=
    match Mongo.field_value d sort_by with
    | Some (JNum q) => Some q
    | _ => None
    end in
  if (sort_order =? 1)%Z
  then stable_sort (fun x y => okey_lt (key y) (key x)) docs
  else stable_sort (fun x y => okey_lt (key x) (key y)) docs.

(** The text query of the [$match] stage, which [$meta: "textScore"]
    refers to. *)
Definition search_string (mc : gmap string Json) : option string :=
  match mc !! "$text" with
  | Some (JObj ops) =>
      match Dict.get "$search" ops with
      | Some (JStr q) => Some q
      | _ => None
      end
  | _ => None
  end.

Section SearchRecords.
Context `{MongoEngine}.

(** [{"$addFields": {"score": {"$meta": "textScore"}}}] *)
Definition add_score (mc : gmap string Json) (docs : list DataRecord.t)
  : result (list DataRecord.t) :=
  match search_string mc with
  | Some q =>
      ret (map (fun d => DataRecord.set_score (text_score q d) d) docs)
  | None => raise (OperationFailure "text score metadata not available")
  end.

(** The aggregation pipeline, run on the collection: [$match],
    [$addFields] and [$sort], the count, then [$skip], [$limit] and
    the conversion to records.  [limit] is taken to be positive, as
    the request models require. *)
Definition search_records (self : t) (query : string) (filters : Filters)
           (sort_by : string) (sort_order : Z) (limit offset : nat)
  : result SearchData.t :=
  try_except
    (mc ← match_conditions query filters;
     docs ← match collection self with
            | Some docs => ret docs
            | None =>
                raise (AttributeError
                         "'NoneType' object has no attribute 'aggregate'")
            end;
     let matched := filter (fun d => Mongo.matches mc d) docs in
     scored ← (if has_text query then add_score mc matched
               else ret matched);
     let sort_by := if has_text query then "score" else sort_by in
     let sort_order := if has_text query then (-1)%Z else sort_order in
     let sorted := sort_stage sort_by sort_order scored in
     let total_count := length sorted in
     let results := take limit (drop offset sorted) in
     ret (SearchData.mk results total_count offset limit (length results)))
    (fun e => raise e).
End SearchRecords.

End Database.

(** ** [app/models/search_models.py] *)

Inductive SearchType : Type := SEMANTIC | KEYWORD | HYBRID | FUZZY | EXACT.

Module SearchResult.
Record t : Type := mk {
  id : string;
  title : string;
  description : option string;
  content : dict Json;
  tags : list string;
  category : option string;
  score : Q;
  highlights : gmap string (list string);
  metadata : dict Json;
  created_at : Q
}.
End SearchResult.

Module SearchResponse.
(** The response has exactly these fields; none carries an error. *)
Record t : Type := mk {
  query : string;
  search_type : SearchType;
  results : list SearchResult.t;
  total_count : nat;
  returned_count : nat;
  offset : nat;
  limit : nat;
  processing_time : Q;
  suggestions : list string;
  facets : gmap string (gmap string nat);
  insights : option (dict Json)
}.
End SearchResponse.

(** ** Injected collaborators of the search service *)

(** [self.db_service]: [search_records(query=, filters=, limit=, offset=)]
    with the default sort arguments. *)
Class DatabaseService : Type := {
  search_records : string -> Filters -> nat -> nat -> result SearchData.t
}.

(** The MongoDB-backed service of [database.py]. *)
Definition mongo_service `{MongoEngine} (db : Database.t) : DatabaseService :=
  {| search_records query filters limit offset :=
       Database.search_records db query filters "created_at" (-1) limit offset |}.

(** [self.ai_service]; [suggest_queries q cs ts] is
    [suggest_queries({"query": q, "categories": cs, "tags": ts})]. *)
Class AIService : Type := {
  process_search_query : string -> result (dict Json);
  generate_embeddings : list string -> result (list (list Q));
  suggest_queries : string -> list string -> list string
                    -> result (list string)
}.

(** [sklearn.metrics.pairwise.cosine_similarity([a], [b])[0][0]]; it
    raises when the two vectors differ in length. *)
Class VectorLib : Type := {
  cosine_similarity : list Q -> list Q -> result Q
}.

(** [time.time() - start_time] at the moment the response is built. *)
Class Clock : Type := { elapsed : Q }.

(** ** [app/services/search_service.py] *)

Module SearchService.

(** The keyword boost [1.2]. *)
Definition boost : Q := 6 # 5.

(** [" ".join(v)] for a value [v] taken from a parsed reply. *)
Definition py_join (sep : string) (v : Json) : result string :=
  match v with
  | JArr items =>
      strs ← mapM (fun x => match x with
                            | JStr s => ret s
                            | _ => raise (TypeError "expected str instance")
                            end) items;
      ret (Str.join sep strs)
  | JStr s =>
      ret (Str.join sep (map (fun c => String c EmptyString)
                             (list_ascii_of_string s)))
  | JObj d => ret (Str.join sep (Dict.keys d))
  | _ => raise (TypeError "can only join an iterable")
  end.

(** [if record.category:] and similar tests on an optional string. *)
Definition nonempty (o : option string) : option string :=
  match o with
  | Some s => if String.eqb s "" then None else Some s
  | None => None
  end.

Definition mark (keyword : string) : string :=
  "<mark>" +:+ keyword +:+ "</mark>".

(** The loop of [_generate_highlights] over the keywords, for one
    field's text. *)
Definition field_highlights (keywords : list string) (text : string)
  : list string :=
  map (fun keyword => Str.replace keyword (mark keyword) text)
      (filter (fun keyword =>
                 Str.contains (Str.lower keyword) (Str.lower text))
              keywords).

Definition _generate_highlights (record : DataRecord.t) (query : string)
  : gmap string (list string) :=
  let keywords := Helpers.extract_keywords query in
  let highlights : gmap string (list string) := ∅ in
  let title_highlights :=
    field_highlights keywords (DataRecord.title record) in
  let highlights :=
    match title_highlights with
    | [] => highlights
    | _ => <["title" := title_highlights]> highlights
    end in
  match nonempty (DataRecord.description record) with
  | Some description =>
      let desc_highlights := field_highlights keywords description in
      match desc_highlights with
      | [] => highlights
      | _ => <["description" := desc_highlights]> highlights
      end
  | None => highlights
  end.

(** [d[k] = d.get(k, 0) + 1] *)
Definition bump (k : string) (d : gmap string nat) : gmap string nat :=
  <[k := (default 0%nat (d !! k) + 1)%nat]> d.

(** [facets[section][k] = facets[section].get(k, 0) + 1] *)
Definition bump_in (section k : string)
           (facets : gmap string (gmap string nat))
  : gmap string (gmap string nat) :=
  <[section := bump k (default ∅ (facets !! section))]> facets.

Definition _generate_facets (results : list DataRecord.t)
  : gmap string (gmap string nat) :=
  let facets0 : gmap string (gmap string nat) :=
    {[ "categories" := ∅; "tags" := ∅; "status" := ∅ ]} in
  fold_left
    (fun facets record =>
       let facets :=
         match nonempty (DataRecord.category record) with
         | Some category => bump_in "categories" category facets
         | None => facets
         end in
       let facets :=
         fold_left (fun facets tag => bump_in "tags" tag facets)
                   (DataRecord.tags record) facets in
       bump_in "status" (status_value (DataRecord.status record)) facets)
    results facets0.

Section Service.
Context `{DatabaseService} `{AIService} `{VectorLib} `{Clock}.

Definition _keyword_search (query : string) (filters : Filters)
           (limit offset : nat) : result SearchData.t :=
  search_records query filters limit offset.

(** The body of the scoring loop of [_semantic_search]. *)
Definition semantic_score (query : string) (query_embedding : list Q)
           (record : DataRecord.t) : result DataRecord.t :=
  match DataRecord.embedding record with
  | Some ((_ :: _) as embedding) =>
      similarity ← cosine_similarity query_embedding embedding;
      ret (DataRecord.set_score (Some similarity) record)
  | _ =>
      let text_content :=
        DataRecord.title record +:+ " "
          +:+ default "" (DataRecord.description record) in
      let similarity :=
        Helpers.calculate_similarity_score query text_content in
      ret (DataRecord.set_score (Some similarity) record)
  end.

(** [getattr(x, 'score', 0.0)] as a sort key, on records whose score
    has been set. *)
Definition score_key (r : DataRecord.t) : Q :=
  default 0%Q (DataRecord.score r).

(** The [try] block of [_semantic_search]. *)
Definition semantic_body (query : string) (filters : Filters)
           (limit offset : nat) : result SearchData.t :=
  embeddings ← generate_embeddings [query];
  query_embedding ← match embeddings with
                    | e :: _ => ret e
                    | [] => raise (IndexError "index 0 out of bounds")
                    end;
  all_records ← search_records "" filters 1000 0;
  scored_records ← mapM (semantic_score query query_embedding)
                        (SearchData.data all_records);
  let sorted_records := sort_desc score_key scored_records in
  let paginated_records := page offset limit sorted_records in
  ret (SearchData.mk paginated_records (length scored_records)
                     offset limit (length paginated_records)).

Definition _semantic_search (query : string) (filters : Filters)
           (limit offset : nat) : result SearchData.t :=
  try_except (semantic_body query filters limit offset)
             (fun _ => _keyword_search query filters limit offset).

Definition fuzzy_filters (query : string) (filters : Filters)
  : dict Json :=
  let keywords := Helpers.extract_keywords query in
  let fuzzy_filters := filters_copy filters in
  match keywords with
  | [] => fuzzy_filters
  | _ =>
      let fuzzy_patterns :=
        map (fun keyword => ".*" +:+ keyword +:+ ".*") keywords in
      let rx := JObj [("$regex", JStr (Str.join "|" fuzzy_patterns));
                      ("$options", JStr "i")] in
      Dict.set "$or"
        (JArr [JObj [("title", rx)]; JObj [("description", rx)];
               JObj [("search_text", rx)]])
        fuzzy_filters
  end.

(** The [try] block of [_fuzzy_search]. *)
Definition fuzzy_body (query : string) (filters : Filters)
           (limit offset : nat) : result SearchData.t :=
  search_records "" (Some (fuzzy_filters query filters)) limit offset.

Definition _fuzzy_search (query : string) (filters : Filters)
           (limit offset : nat) : result SearchData.t :=
  try_except (fuzzy_body query filters limit offset)
             (fun _ => _keyword_search query filters limit offset).

Definition exact_filters (query : string) (filters : Filters)
  : dict Json :=
  let rx := JObj [("$regex", JStr ("\b" +:+ query +:+ "\b"));
                  ("$options", JStr "i")] in
  Dict.set "$or"
    (JArr [JObj [("title", rx)]; JObj [("description", rx)];
           JObj [("search_text", rx)]])
    (filters_copy filters).

(** The [try] block of [_exact_search]. *)
Definition exact_body (query : string) (filters : Filters)
           (limit offset : nat) : result SearchData.t :=
  search_records "" (Some (exact_filters query filters)) limit offset.

Definition _exact_search (query : string) (filters : Filters)
           (limit offset : nat) : result SearchData.t :=
  try_except (exact_body query filters limit offset)
             (fun _ => _keyword_search query filters limit offset).

(** An entry of [combined_results]: the record and its fused score.
    The score is [None] only for a semantic candidate that carries
    none. *)
Abbreviation Combined := (dict (DataRecord.t * option Q)).

(** First loop: [combined_results[record.id] = {record, score * 1.2}]. *)
Definition add_keyword (combined : Combined) (record : DataRecord.t)
  : result Combined :=
  match DataRecord.score record with
  | Some score =>
      ret (Dict.set (DataRecord.id record)
                    (record, Some (score * boost)%Q) combined)
  | None =>
      raise (TypeError "unsupported operand type(s) for *: NoneType")
  end.

(** Second loop: add to an existing entry or create one. *)
Definition add_semantic (combined : Combined) (record : DataRecord.t)
  : result Combined :=
  match Dict.get (DataRecord.id record) combined with
  | Some (kept, fused) =>
      match fused, DataRecord.score record with
      | Some a, Some score =>
          ret (Dict.set (DataRecord.id record)
                        (kept, Some (a + score)%Q) combined)
      | _, _ =>
          raise (TypeError "unsupported operand type(s) for +=: NoneType")
      end
  | None =>
      ret (Dict.set (DataRecord.id record)
                    (record, DataRecord.score record) combined)
  end.

(** [sorted(combined_results.values(), key=score, reverse=True)]: a
    [None] key cannot be compared, so it raises as soon as there are
    two entries. *)
Definition sort_combined (entries : list (DataRecord.t * option Q))
  : result (list (DataRecord.t * option Q)) :=
  if forallb (fun e => bool_decide (is_Some (snd e))) entries
  then ret (sort_desc (fun e => default 0%Q (snd e)) entries)
  else if (length entries <=? 1)%nat then ret entries
  else raise (TypeError "'<' not supported for NoneType").

(** The merge of the two candidate lists into [combined_results]. *)
Definition combine (keyword_data semantic_data : list DataRecord.t)
  : result Combined :=
  combined ← foldM add_keyword [] keyword_data;
  foldM add_semantic combined semantic_data.

(** Sorting, slicing and writing the fused score back to the record. *)
Definition rank (combined : Combined) (limit offset : nat)
  : result SearchData.t :=
  sorted_results ← sort_combined (Dict.values combined);
  let paginated_results := page offset limit sorted_results in
  let final_records :=
    map (fun e => DataRecord.set_score (snd e) (fst e))
        paginated_results in
  ret (SearchData.mk final_records (length sorted_results)
                     offset limit (length final_records)).

(** The [try] block of [_hybrid_search_combined]. *)
Definition hybrid_body (query : string) (filters : Filters)
           (limit offset : nat) : result SearchData.t :=
  keyword_results ← _keyword_search query filters (limit * 2) 0;
  semantic_results ← _semantic_search query filters (limit * 2) 0;
  combined ← combine (SearchData.data keyword_results)
                     (SearchData.data semantic_results);
  rank combined limit offset.

Definition _hybrid_search_combined (query : string) (filters : Filters)
           (limit offset : nat) : result SearchData.t :=
  try_except (hybrid_body query filters limit offset)
             (fun _ => _keyword_search query filters limit offset).

(** The categories and tags of the first ten results.  A Python [set]
    has no specified iteration order; [elements] fixes one. *)
Definition result_categories (results : list DataRecord.t) : gset string :=
  fold_left (fun categories record =>
               match nonempty (DataRecord.category record) with
               | Some category => {[ category ]} ∪ categories
               | None => categories
               end) (take 10 results) ∅.

Definition result_tags (results : list DataRecord.t) : gset string :=
  fold_left (fun tags record =>
               list_to_set (take 3 (DataRecord.tags record)) ∪ tags)
            (take 10 results) ∅.

Definition _generate_suggestions (query : string)
           (results : list DataRecord.t) : list string :=
  let categories := elements (result_categories results) in
  let tags := elements (result_tags results) in
  let suggestions :=
    map (fun category => query +:+ " in " +:+ category)
        (take 3 categories)
    ++ map (fun tag => query +:+ " tagged " +:+ tag) (take 3 tags) in
  let suggestions :=
    if (length suggestions <? 5)%nat then
      match suggest_queries query categories tags with
      | inr ai_suggestions => suggestions ++ take 5 ai_suggestions
      | inl _ => suggestions
      end
    else suggestions in
  take 5 suggestions.

(** [SearchResult(...)]: validation rejects a [None] score, since the
    field is declared [float]. *)
Definition search_result (query : string) (record : DataRecord.t)
  : result SearchResult.t :=
  match DataRecord.score record with
  | Some score =>
      ret (SearchResult.mk
             (DataRecord.id record) (DataRecord.title record)
             (DataRecord.description record) (DataRecord.content record)
             (DataRecord.tags record) (DataRecord.category record)
             score (_generate_highlights record query)
             (DataRecord.metadata record) (DataRecord.created_at record))
  | None => raise (ValidationError "score: none is not an allowed value")
  end.

(** The loop that keeps the records with [score >= min_score];
    comparing [None] with a number raises. *)
Fixpoint filter_min_score (min_score : Q) (data : list DataRecord.t)
  : result (list DataRecord.t) :=
  match data with
  | [] => ret []
  | r :: rest =>
      match DataRecord.score r with
      | Some score =>
          filtered_data ← filter_min_score min_score rest;
          ret (if Qle_bool min_score score
               then r :: filtered_data else filtered_data)
      | None => raise (TypeError "'>=' not supported for NoneType")
      end
  end.

(** "Process query with AI if needed". *)
Definition processed_query (query : string) (search_type : SearchType)
  : result string :=
  match search_type with
  | SEMANTIC | HYBRID =>
      ai_processed ← process_search_query query;
      match Dict.get "keywords" ai_processed with
      | Some keywords =>
          if truthy keywords then py_join " " keywords else ret query
      | None => ret query
      end
  | _ => ret query
  end.

(** The dispatch on [search_type]. *)
Definition retrieve (query : string) (search_type : SearchType)
           (filters : Filters) (limit offset : nat)
  : result SearchData.t :=
  match search_type with
  | SEMANTIC => _semantic_search query filters limit offset
  | KEYWORD => _keyword_search query filters limit offset
  | FUZZY => _fuzzy_search query filters limit offset
  | EXACT => _exact_search query filters limit offset
  | HYBRID => _hybrid_search_combined query filters limit offset
  end.

(** Interpretation of the query followed by retrieval (and fusion in
    hybrid mode): the candidates before the [min_score] filter. *)
Definition candidates (query : string) (search_type : SearchType)
           (filters : Filters) (limit offset : nat)
  : result SearchData.t :=
  processed ← processed_query query search_type;
  retrieve processed search_type filters limit offset.

(** The [try] block of [hybrid_search]. *)
Definition hybrid_search_body (query : string) (search_type : SearchType)
           (filters : Filters) (limit offset : nat) (min_score : Q)
  : result SearchResponse.t :=
  results ← candidates query search_type filters limit offset;
  results ← (if Qltb 0 min_score then
               filtered_data ← filter_min_score min_score
                                                (SearchData.data results);
               ret (SearchData.mk filtered_data
                      (SearchData.total_count results)
                      (SearchData.offset results)
                      (SearchData.limit results)
                      (length filtered_data))
             else ret results);
  search_results ← mapM (search_result query) (SearchData.data results);
  let suggestions := _generate_suggestions query (SearchData.data results) in
  let facets := _generate_facets (SearchData.data results) in
  ret (SearchResponse.mk query search_type search_results
         (SearchData.total_count results) (length search_results)
         offset limit elapsed suggestions facets None).

(** The response of the [except] clause. *)
Definition empty_response (query : string) (search_type : SearchType)
           (limit offset : nat) : SearchResponse.t :=
  SearchResponse.mk query search_type [] 0 0 offset limit elapsed [] ∅ None.

Definition hybrid_search (query : string) (search_type : SearchType)
           (filters : Filters) (limit offset : nat) (min_score : Q)
  : SearchResponse.t :=
  match hybrid_search_body query search_type filters limit offset
                           min_score with
  | inr response => response
  | inl _ => empty_response query search_type limit offset
  end.
End Service.

End SearchService.

(** ** A reader for JSON text

    [json.loads] is a collaborator ([JsonLib]).  [MiniJson.loads] reads the
    fragment of JSON made of objects, arrays, strings without escapes,
    decimal numbers without exponent, [true], [false] and [null]; it is
    the instance used to run the interpreter on concrete replies. *)

Class JsonLib : Type := { json_loads : string -> result Json }.

Module MiniJson.

Definition dquote : ascii := ascii_of_nat 34.

Fixpoint skip_ws (s : list ascii) : list ascii :=
  match s with
  | c :: r =>
      let n := nat_of_ascii c in
      if (n =? 32)%nat || (n =? 9)%nat || (n =? 10)%nat || (n =? 13)%nat
      then skip_ws r else s
  | [] => []
  end.

(** The characters up to the closing quote; a backslash is refused. *)
Fixpoint read_string (s : list ascii) (acc : list ascii)
  : option (string * list ascii) :=
  match s with
  | [] => None
  | c :: r =>
      if Ascii.eqb c dquote then Some (string_of_list_ascii (rev acc), r)
      else if (nat_of_ascii c =? 92)%nat || (nat_of_ascii c <? 32)%nat
      then None
      else read_string r (c :: acc)
  end.

(** A run of digits: its value, its length and the rest. *)
Fixpoint read_digits (s : list ascii) (acc : Z) (n : nat)
  : Z * nat * list ascii :=
  match s with
  | c :: r =>
      if Str.is_digit c
      then read_digits r (acc * 10 + Z.of_nat (nat_of_ascii c - 48))%Z (S n)
      else (acc, n, s)
  | [] => (acc, n, [])
  end.

Definition read_number (s : list ascii) : option (Q * list ascii) :=
  let '(neg, s) :=
    match s with
    | c :: r => if (nat_of_ascii c =? 45)%nat then (true, r) else (false, s)
    | [] => (false, s)
    end in
  let '(int, n, r) := read_digits s 0%Z 0 in
  if (n =? 0)%nat then None
  else
    let '(num, den, r) :=
      match r with
      | c :: r' =>
          if (nat_of_ascii c =? 46)%nat then
            let '(frac, k, r'') := read_digits r' 0%Z 0 in
            if (k =? 0)%nat then (int, 1%positive, r)
            else ((int * 10 ^ Z.of_nat k + frac)%Z,
                  Z.to_pos (10 ^ Z.of_nat k), r'')
          else (int, 1%positive, r)
      | [] => (int, 1%positive, r)
      end in
    Some ((if neg then (- num)%Z else num) # den, r).

Section Compound.
(** The reader of a value, at a smaller depth. *)
Variable value : list ascii -> option (Json * list ascii).

(** After ["["] or [","]: the elements up to ["]"]. *)
Fixpoint elements (fuel : nat) (s : list ascii) (acc : list Json)
  : option (Json * list ascii) :=
  match fuel with
  | O => None
  | S fuel =>
      match value s with
      | Some (v, r) =>
          match skip_ws r with
          | c :: r' =>
              if (nat_of_ascii c =? 44)%nat
              then elements fuel r' (v :: acc)
              else if (nat_of_ascii c =? 93)%nat
              then Some (JArr (rev (v :: acc)), r')
              else None
          | [] => None
          end
      | None => None
      end
  end.

(** After ["{"] or [","]: the members up to ["}"]. *)
Fixpoint members (fuel : nat) (s : list ascii) (acc : dict Json)
  : option (Json * list ascii) :=
  match fuel with
  | O => None
  | S fuel =>
      match skip_ws s with
      | q :: r =>
          if Ascii.eqb q dquote then
            match read_string r [] with
            | Some (key, r) =>
                match skip_ws r with
                | c :: r =>
                    if (nat_of_ascii c =? 58)%nat then
                      match value r with
                      | Some (v, r) =>
                          let acc := Dict.set key v acc in
                          match skip_ws r with
                          | c :: r' =>
                              if (nat_of_ascii c =? 44)%nat
                              then members fuel r' acc
                              else if (nat_of_ascii c =? 125)%nat
                              then Some (JObj acc, r')
                              else None
                          | [] => None
                          end
                      | None => None
                      end
                    else None
                | [] => None
                end
            | None => None
            end
          else None
      | [] => None
      end
  end.
End Compound.

Definition literal (word : string) (v : Json) (s : list ascii)
  : option (Json * list ascii) :=
  let w := list_ascii_of_string word in
  if bool_decide (take (length w) s = w)
  then Some (v, drop (length w) s) else None.

Fixpoint value (fuel : nat) (s : list ascii) : option (Json * list ascii) :=
  match fuel with
  | O => None
  | S fuel =>
      match skip_ws s with
      | [] => None
      | c :: r =>
          let n := nat_of_ascii c in
          if (n =? 123)%nat then
            match skip_ws r with
            | c' :: r' =>
                if (nat_of_ascii c' =? 125)%nat then Some (JObj [], r')
                else members (value fuel) (length s) r []
            | [] => None
            end
          else if (n =? 91)%nat then
            match skip_ws r with
            | c' :: r' =>
                if (nat_of_ascii c' =? 93)%nat then Some (JArr [], r')
                else elements (value fuel) (length s) r []
            | [] => None
            end
          else if Ascii.eqb c dquote then
            match read_string r [] with
            | Some (str, r') => Some (JStr str, r')
            | None => None
            end
          else if (n =? 116)%nat then literal "true" (JBool true) (c :: r)
          else if (n =? 102)%nat then literal "false" (JBool false) (c :: r)
          else if (n =? 110)%nat then literal "null" JNull (c :: r)
          else
            match read_number (c :: r) with
            | Some (q, r') => Some (JNum q, r')
            | None => None
            end
      end
  end.

(** One value, then nothing but white space. *)
Definition loads (text : string) : result Json :=
  let s := list_ascii_of_string text in
  match value (S (length s)) s with
  | Some (v, r) =>
      match skip_ws r with
      | [] => ret v
      | _ => raise (JSONDecodeError "Extra data")
      end
  | None => raise (JSONDecodeError "Expecting value")
  end.

Definition lib : JsonLib := {| json_loads := loads |}.

(** [q s] is [s] between double quotes. *)
Definition q (s : string) : string :=
  String dquote s +:+ String dquote EmptyString.

End MiniJson.

(** ** [ai_service_railway.py] *)

(** The hosted model: the stripped-down view of
    [client.chat.completions.create(...)] for the search prompt built
    from a query, giving [response.choices[0].message.content].  It may
    raise (time-out, transport or API error).  [utcnow_iso] is
    [datetime.utcnow().isoformat()]. *)
Class Oracle : Type := {
  complete_search : string -> result string;
  utcnow_iso : string
}.

Module AIServiceRailway.

Definition fence : string := "```json".

Section Interpreter.
Context `{Oracle} `{JsonLib}.

(** The handler of [except json.JSONDecodeError]. *)
Definition recover_json (content : string) : result Json :=
  if Str.contains fence content then
    let json_start :=
      Str.find_from "{" content (Z.to_nat (Str.find fence content)) in
    let json_end := (Str.rfind "}" content + 1)%Z in
    if negb (json_start =? -1)%Z && negb (json_end =? -1)%Z
    then json_loads (Str.slice content (Z.to_nat json_start)
                               (Z.to_nat json_end))
    else raise (ValueError "No valid JSON found in markdown")
  else if Str.contains "{" content && Str.contains "}" content then
    let json_start := Str.find "{" content in
    let json_end := (Str.rfind "}" content + 1)%Z in
    json_loads (Str.slice content (Z.to_nat json_start)
                          (Z.to_nat json_end))
  else raise (ValueError "No valid JSON found").

Definition parse_reply (content : string) : result Json :=
  match json_loads content with
  | inr parsed => ret parsed
  | inl (JSONDecodeError _) => recover_json content
  | inl e => raise e
  end.

(** [result[key] = value]: only a [dict] accepts a string key. *)
Definition set_item (key : string) (value : Json) (parsed : Json)
  : result (dict Json) :=
  match parsed with
  | JObj d => ret (Dict.set key value d)
  | _ => raise (TypeError "object does not support item assignment")
  end.

(** The two assignments that follow the parse. *)
Definition annotate (query : string) (parsed : Json)
  : result (dict Json) :=
  d ← set_item "original_query" (JStr query) parsed;
  ret (Dict.set "processed_at" (JStr utcnow_iso) d).

(** The [try] block of [process_search_query]. *)
Definition process_body (query : string) : result (dict Json) :=
  raw ← complete_search query;
  let content := Str.strip raw in
  if String.eqb content "" then raise (ValueError "Empty AI response")
  else
    parsed ← parse_reply content;
    annotate query parsed.

(** The dictionary of the [except] clause. *)
Definition degraded (query : string) (e : Exception) : dict Json :=
  [ ("intent", JStr "search");
    ("keywords", JArr (map JStr (Str.split query)));
    ("original_query", JStr query);
    ("confidence", JNum (1 # 2));
    ("entities", JArr []);
    ("filters", JObj []);
    ("sort", JObj []);
    ("date_range", JObj []);
    ("error", JStr (str_of_exception e)) ].

Definition process_search_query (query : string) : dict Json :=
  match process_body query with
  | inr parsed => parsed
  | inl e => degraded query e
  end.
End Interpreter.

End AIServiceRailway.

(** ** More of [app/utils/helpers.py] *)

Module Py.

(** The bounds [slice.indices] computes for [l[start:stop]] on a
    sequence of length [n]: a negative index counts from the end, and
    both are clamped to [0 .. n]. *)
Definition clamp (n : nat) (i : Z) : nat :=
  let i := if (i <? 0)%Z then (i + Z.of_nat n)%Z else i in
  Z.to_nat (Z.min (Z.max i 0) (Z.of_nat n)).

(** [l[start:stop]] *)
Definition slice {A} (l : list A) (start stop : Z) : list A :=
  let a := clamp (length l) start in
  let b := clamp (length l) stop in
  take (b - a) (drop a l).

End Py.

Module Page.
(** The dictionary [paginate_results] returns. *)
Record t (A : Type) : Type := mk {
  data : list A;
  total_count : nat;
  offset : Z;
  limit : Z;
  has_more : bool
}.
Arguments mk {A}.
Arguments data {A}.
Arguments total_count {A}.
Arguments offset {A}.
Arguments limit {A}.
Arguments has_more {A}.
End Page.

Module HelpersMore.

Definition paginate_results {A} (data : list A) (offset limit : Z)
  : Page.t A :=
  let total_count := length data in
  let start := offset in
  let stop := (offset + limit)%Z in
  let paginated_data := Py.slice data start stop in
  Page.mk paginated_data total_count offset limit
          (stop <? Z.of_nat total_count)%Z.

(** [re.sub(r'\s+', ' ', s)]: every maximal run of white space becomes
    one space.  [in_run] tells that the previous character was white
    space. *)
Fixpoint collapse_spaces (in_run : bool) (s : string) : string :=
  match s with
  | EmptyString => EmptyString
  | String c r =>
      if Str.is_space c
      then if in_run then collapse_spaces true r
           else String " " (collapse_spaces true r)
      else String c (collapse_spaces false r)
  end.

(** [re.sub(pattern, '', s)] for a pattern that is the complement of a
    character class: the characters of the class are kept. *)
Fixpoint keep_chars (p : ascii -> bool) (s : string) : string :=
  match s with
  | EmptyString => EmptyString
  | String c r => if p c then String c (keep_chars p r) else keep_chars p r
  end.

(** The class [[\w\s.,!?-]]. *)
Definition is_text_char (c : ascii) : bool :=
  Str.is_word c || Str.is_space c
  || existsb (Ascii.eqb c) [","; "."; "!"; "?"; "-"]%char.

Definition clean_text (text : string) : string :=
  if String.eqb text "" then ""
  else
    let text := collapse_spaces false (Str.strip text) in
    keep_chars is_text_char text.

(** The class [[\w.]]. *)
Definition is_key_char (c : ascii) : bool :=
  Str.is_word c || Ascii.eqb c "."%char.

(** [value is None or value == ""] *)
Definition is_blank (value : Json) : bool :=
  match value with
  | JNull => true
  | JStr s => String.eqb s ""
  | _ => false
  end.

(** The loop of [validate_search_filters]. *)
Definition validate_step (valid_filters : dict Json) (item : string * Json)
  : dict Json :=
  let '(key, value) := item in
  if is_blank value then valid_filters
  else
    let clean_key := keep_chars is_key_char key in
    if String.eqb clean_key "" then valid_filters
    else Dict.set clean_key value valid_filters.

Definition validate_search_filters (filters : dict Json) : dict Json :=
  fold_left validate_step filters [].

End HelpersMore.

(** ** Vocabulary of the statements *)

(** A candidate that carries a score. *)
Definition scored (r : DataRecord.t) : Prop := is_Some (DataRecord.score r).

#[local] Instance scored_dec r : Decision (scored r) := _.

(** The records that reach the floor. *)
Definition passes (min_score : Q) (r : DataRecord.t) : bool :=
  Qle_bool min_score (SearchService.score_key r).

(** The records kept by the [min_score] step of the orchestrator. *)
Definition kept (min_score : Q) (data : list DataRecord.t)
  : list DataRecord.t :=
  if Qltb 0 min_score then List.filter (passes min_score) data else data.

(** The result built from a scored record. *)
Definition result_of (query : string) (r : DataRecord.t) : SearchResult.t :=
  SearchResult.mk
    (DataRecord.id r) (DataRecord.title r) (DataRecord.description r)
    (DataRecord.content r) (DataRecord.tags r) (DataRecord.category r)
    (SearchService.score_key r) (SearchService._generate_highlights r query)
    (DataRecord.metadata r) (DataRecord.created_at r).

(** The response of a search whose candidates all carry a score. *)
Definition response_of `{AIService} `{Clock}
           (query : string) (search_type : SearchType)
           (limit offset : nat) (min_score : Q) (pool : SearchData.t)
  : SearchResponse.t :=
  let data := kept min_score (SearchData.data pool) in
  SearchResponse.mk query search_type (map (result_of query) data)
    (SearchData.total_count pool) (length data) offset limit elapsed
    (SearchService._generate_suggestions query data)
    (SearchService._generate_facets data) None.

(** The score a record carries, [s] in [Some s]. *)
Abbreviation score_of := SearchService.score_key.

(** The candidate with a given id in a candidate list. *)
Definition lookup_id (i : string) (l : list DataRecord.t)
  : option DataRecord.t :=
  List.find (fun r => String.eqb (DataRecord.id r) i) l.

Definition has_id (i : string) (l : list DataRecord.t) : bool :=
  existsb (fun r => String.eqb (DataRecord.id r) i) l.

Definition ids (l : list DataRecord.t) : list string := map DataRecord.id l.

(** The fused pool as the specification words it: every keyword
    candidate with 1.2 times its keyword score, plus its semantic score
    when the semantic strategy returned the same id; then every semantic
    candidate whose id the keyword strategy did not return, with its
    semantic score. *)
Definition fused_pool (keyword_data semantic_data : list DataRecord.t)
  : list (DataRecord.t * option Q) :=
  map (fun k =>
         (k, match lookup_id (DataRecord.id k) semantic_data with
             | Some m => Some (score_of k * SearchService.boost + score_of m)%Q
             | None => Some (score_of k * SearchService.boost)%Q
             end)) keyword_data
  ++ map (fun m => (m, Some (score_of m)))
         (List.filter (fun m => negb (has_id (DataRecord.id m) keyword_data))
                      semantic_data).

(** Descending by a rational key. *)
Definition sorted_desc {A} (key : A -> Q) (l : list A) : Prop :=
  StronglySorted (fun x y => (key y <= key x)%Q) l.

(** The record a semantic search scores [r] into. *)
Definition semantic_scored `{VectorLib} (query : string)
           (query_embedding : list Q) (r r' : DataRecord.t) : Prop :=
  exists s,
    r' = DataRecord.set_score (Some s) r
    /\ match DataRecord.embedding r with
       | Some ((_ :: _) as embedding) =>
           cosine_similarity query_embedding embedding = inr s
       | _ =>
           s = Helpers.calculate_similarity_score query
                 (DataRecord.title r +:+ " "
                  +:+ default "" (DataRecord.description r))
       end.


(** The entries the two loops of the fusion write. *)
Definition keyword_entry (k : DataRecord.t)
  : string * (DataRecord.t * option Q) :=
  (DataRecord.id k, (k, Some (score_of k * SearchService.boost)%Q)).

Definition semantic_entry (m : DataRecord.t)
  : string * (DataRecord.t * option Q) :=
  (DataRecord.id m, (m, Some (score_of m))).

(** An entry after the semantic candidates [sd] have been added in. *)
Definition merge_entry (sd : list DataRecord.t)
           (e : string * (DataRecord.t * option Q))
  : string * (DataRecord.t * option Q) :=
  (fst e, (fst (snd e),
           match snd (snd e), lookup_id (fst e) sd with
           | Some a, Some m => Some (a + score_of m)%Q
           | a, _ => a
           end)).

(** The fused score of a pool entry, and the pool in ranking order. *)
Definition fused_score (e : DataRecord.t * option Q) : Q := default 0%Q (snd e).

Definition ranked_pool (keyword_data semantic_data : list DataRecord.t)
  : list (DataRecord.t * option Q) :=
  sort_desc fused_score (fused_pool keyword_data semantic_data).

(** [record.score = result["score"]] *)
Definition with_fused_score (e : DataRecord.t * option Q) : DataRecord.t :=
  DataRecord.set_score (snd e) (fst e).

(** The condition on [status] that every store query starts from. *)
Definition not_deleted : Json := JObj [("$ne", JStr "deleted")].

(** The filter mappings without an entry for [status]. *)
Definition no_status_filter (filters : Filters) : Prop :=
  "status" ∉ Dict.keys (default [] filters).

(** ** Vocabulary of the further properties *)

(** The pages of [data] with indices [0 .. n-1], each of [limit] items,
    as [paginate_results] cuts them. *)
Definition pages_upto {A} (data : list A) (limit n : nat) : list (list A) :=
  map (fun i => Page.data (HelpersMore.paginate_results
                             data (Z.of_nat (i * limit)) (Z.of_nat limit)))
      (seq 0 n).

(** What [validate_search_filters] lets through: an entry of [filters]
    that is not blank, under its key stripped of the characters outside
    [[\w.]], when that leaves something. *)
Definition accepted (filters : dict Json) (e : string * Json) : Prop :=
  fst e <> ""
  /\ Str.all_chars HelpersMore.is_key_char (fst e) = true
  /\ HelpersMore.is_blank (snd e) = false
  /\ exists key, (key, snd e) ∈ filters
                 /\ HelpersMore.keep_chars HelpersMore.is_key_char key = fst e.

(** The word set [set(text.lower().split())] of
    [calculate_similarity_score]. *)
Definition words (text : string) : gset string :=
  list_to_set (Str.split (Str.lower text)).

(** A facet [m] tallies [count]: it holds exactly the keys counted at
    least once, each with its count. *)
Definition tally (m : gmap string nat) (count : string -> nat) : Prop :=
  forall k, m !! k = if decide (count k = 0) then None else Some (count k).

(** The number of results whose (non-empty) category is [c]. *)
Definition category_count (results : list DataRecord.t) (c : string) : nat :=
  length (filter (fun r => SearchService.nonempty (DataRecord.category r)
                           = Some c) results).

(** The number of occurrences of [t] among the tags of the results. *)
Definition tag_count (results : list DataRecord.t) (t : string) : nat :=
  length (filter (fun x => x = t) (concat (map DataRecord.tags results))).

(** The number of results whose status reads [s]. *)
Definition status_count (results : list DataRecord.t) (s : string) : nat :=
  length (filter (fun r => status_value (DataRecord.status r) = s) results).

(** The facets hold the three sections, each a tally of [cnt]. *)
Definition facets_inv (facets : gmap string (gmap string nat))
           (cnt : string -> string -> nat) : Prop :=
  forall section, section ∈ ["categories"; "tags"; "status"] ->
    exists m, facets !! section = Some m /\ tally m (cnt section).

(** One more occurrence of [k] in [section]. *)
Definition counted (section k : string) (cnt : string -> string -> nat)
  : string -> string -> nat :=
  fun s k' => if decide (s = section /\ k' = k) then S (cnt s k') else cnt s k'.

(** The counts of the three sections over [results]. *)
Definition facet_counts (results : list DataRecord.t) (section k : string)
  : nat :=
  if decide (section = "categories") then category_count results k
  else if decide (section = "tags") then tag_count results k
  else if decide (section = "status") then status_count results k
  else 0.

(** The suggestions [_generate_suggestions] derives from the results
    themselves: up to three categories, then up to three tags. *)
Definition local_suggestions (query : string) (results : list DataRecord.t)
  : list string :=
  map (fun category => query +:+ " in " +:+ category)
      (take 3 (elements (SearchService.result_categories results)))
  ++ map (fun tag => query +:+ " tagged " +:+ tag)
         (take 3 (elements (SearchService.result_tags results))).

(** Where a suggestion can come from: the category of one of the first
    ten results, one of the first three tags of one of them, or the first
    five suggestions of the AI service. *)
Definition suggestion_source `{AIService} (query : string)
           (results : list DataRecord.t) (s : string) : Prop :=
  (exists r c, r ∈ take 10 results
               /\ SearchService.nonempty (DataRecord.category r) = Some c
               /\ s = query +:+ " in " +:+ c)
  \/ (exists r t, r ∈ take 10 results
                  /\ t ∈ take 3 (DataRecord.tags r)
                  /\ s = query +:+ " tagged " +:+ t)
  \/ (exists ai, suggest_queries
                   query
                   (elements (SearchService.result_categories results))
                   (elements (SearchService.result_tags results)) = inr ai
                 /\ s ∈ take 5 ai).

(** The sort key the [$sort] stage reads from the field [score]. *)
Definition score_field (d : DataRecord.t) : option Q :=
  match Mongo.field_value d "score" with
  | Some (JNum q) => Some q
  | _ => None
  end.

(** The sort key the [$sort] stage reads from the field [created_at]. *)
Definition created_field (d : DataRecord.t) : option Q :=
  match Mongo.field_value d "created_at" with
  | Some (JNum q) => Some q
  | _ => None
  end.

(** The record has a text field (title, description or search text) in
    which the regular expression [pattern] is found, ignoring case. *)
Definition text_hit `{MongoEngine} (pattern : string) (r : DataRecord.t)
  : Prop :=
  exists s, (s = DataRecord.title r
             \/ DataRecord.description r = Some s
             \/ DataRecord.search_text r = Some s)
            /\ regex_search pattern "i" s = true.

(** The [$or] condition the fuzzy and exact strategies put on the text. *)
Definition text_condition (pattern : string) : Json :=
  let rx := JObj [("$regex", JStr pattern); ("$options", JStr "i")] in
  JArr [JObj [("title", rx)]; JObj [("description", rx)];
        JObj [("search_text", rx)]].

(** ** Concrete collaborators and a small collection *)

Module Fixtures.

(** A text index that scores a document by the number of query words
    occurring in its title, description or tags. *)
Definition word_hits (query : string) (d : DataRecord.t) : nat :=
  let text :=
    Str.lower (DataRecord.title d +:+ " "
               +:+ default "" (DataRecord.description d) +:+ " "
               +:+ Str.join " " (DataRecord.tags d)) in
  length (filter (fun w => Str.contains w text) (Str.split (Str.lower query))).

(** A regular-expression engine for the patterns this program emits:
    alternatives [.*k.*] joined by [|], or a phrase between [\b]; it
    tests for the literal text, ignoring case. *)
Definition alternatives (pattern : string) : list string :=
  Str.runs (fun c => negb (nat_of_ascii c =? 124)%nat) pattern.

Definition literal_of (alt : string) : string :=
  Str.replace "\b" "" (Str.replace ".*" "" alt).

Definition engine : MongoEngine := {|
  text_score q d :=
    match word_hits q d with
    | O => None
    | n => Some (Z.of_nat n # 1)
    end;
  regex_search pattern options s :=
    existsb (fun alt => Str.contains (Str.lower (literal_of alt)) (Str.lower s))
            (alternatives pattern)
|}.

Definition record (id title : string) (tags : list string)
           (status : DataStatus) (created_at : Q)
           (embedding : option (list Q)) : DataRecord.t :=
  DataRecord.mk id title None [] tags None status [] created_at embedding
                None None.

Definition A := record "A" "Python Engineer" ["python"] ACTIVE 3 None.
Definition B := record "B" "Java Engineer" ["java"] ACTIVE 2 None.
Definition C := record "C" "Python Architect" [] DELETED 1 None.

(** A record whose stored embedding points away from every word-count
    embedding. *)
Definition N :=
  record "N" "Python Engineer" ["python"] ACTIVE 1 (Some [(-1)%Q]).

Definition D := record "D" "Rust Engineer" ["rust"] ACTIVE 0 None.

Definition db : Database.t := Database.mk (Some [A; B; C]).
Definition db_four : Database.t := Database.mk (Some [A; B; C; D]).
Definition db_signed : Database.t := Database.mk (Some [N]).
Definition db_down : Database.t := Database.mk None.

Definition store : DatabaseService := @mongo_service engine db.
Definition store_four : DatabaseService := @mongo_service engine db_four.
Definition store_down : DatabaseService := @mongo_service engine db_down.
Definition store_signed : DatabaseService :=
  @mongo_service engine db_signed.

(** Exact cosine similarity where the product of the squared norms is
    the square of a rational; a zero vector gives 0. *)
Definition dot (a b : list Q) : Q :=
  fold_right Qplus 0%Q (zip_with Qmult a b).

Definition qsqrt (x : Q) : option Q :=
  let x := Qred x in
  let n := Z.sqrt (Qnum x) in
  let d := Z.sqrt (Zpos (Qden x)) in
  if ((n * n =? Qnum x) && (d * d =? Zpos (Qden x)))%Z
  then Some (n # Z.to_pos d) else None.

Definition vectors : VectorLib := {|
  cosine_similarity a b :=
    if negb (length a =? length b)%nat
    then raise (ValueError "Incompatible dimension for X and Y matrices")
    else match qsqrt (dot a a * dot b b) with
         | Some n => ret (if Qeq_bool n 0 then 0%Q else Qred (dot a b / n))
         | None => raise (ValueError "similarity is not rational")
         end
|}.

Definition oracle_down : Oracle := {|
  complete_search _ := raise (ConnectionFailure "request timed out");
  utcnow_iso := "2024-01-01T00:00:00"
|}.

(** A model that answers every query with an empty object followed by
    an opening fence. *)
Definition oracle_fence : Oracle := {|
  complete_search _ := ret "{} ```json";
  utcnow_iso := "2024-01-01T00:00:00"
|}.

(** A model that answers with a fenced object naming two keywords. *)
Definition fenced_reply : string :=
  "```json {" +:+ MiniJson.q "keywords" +:+ ": [" +:+ MiniJson.q "red"
    +:+ ", " +:+ MiniJson.q "shoes" +:+ "]} ```".

Definition oracle_fenced : Oracle := {|
  complete_search _ := ret fenced_reply;
  utcnow_iso := "2024-01-01T00:00:00"
|}.

(** The AI service of [ai_service_railway.py] on an unreachable model,
    with one-dimensional word-count embeddings (the fallback of its
    [generate_embeddings]). *)
Definition ai : AIService := {|
  process_search_query q :=
    ret (@AIServiceRailway.process_search_query oracle_down MiniJson.lib q);
  generate_embeddings texts :=
    ret (map (fun t => [Z.of_nat (length (Str.split t)) # 1]) texts);
  suggest_queries _ _ _ :=
    ret ["Show all active records"; "Find records created today";
         "Search by category"; "Show recent updates";
         "Find records with specific tags"]
|}.

(** An AI service whose embedding generator fails. *)
Definition ai_no_embeddings : AIService := {|
  process_search_query := @process_search_query ai;
  generate_embeddings _ := raise (ValueError "empty vocabulary");
  suggest_queries := @suggest_queries ai
|}.

Definition clock : Clock := {| elapsed := 1 # 100 |}.

(** What the examples show of a retrieval: its [total_count], and the
    ids and scores of its records, in order. *)
Definition total (r : result SearchData.t) : result nat :=
  d ← r; ret (SearchData.total_count d).

Definition scores (r : result SearchData.t)
  : result (list (string * option Q)) :=
  d ← r; ret (map (fun x => (DataRecord.id x, DataRecord.score x))
                  (SearchData.data d)).

End Fixtures.

(** * Properties *)

(** ** The exception monad *)

Lemma bind_inr {A B} (m : result A) (k : A -> result B) (b : B) :
  m ≫= k = inr b -> exists a, m = inr a /\ k a = inr b.
Proof. destruct m as [e|a]; [discriminate | eauto]. Qed.

Lemma bind_inl {A B} (m : result A) (k : A -> result B) (e : Exception) :
  m = inl e -> m ≫= k = inl e.
Proof. now intros ->. Qed.

Lemma bind_ret {A B} (a : A) (m : result A) (k : A -> result B) :
  m = inr a -> m ≫= k = k a.
Proof. now intros ->. Qed.

Lemma ret_bind {A B} (a : A) (k : A -> result B) : inr a ≫= k = k a.
Proof. reflexivity. Qed.

Lemma foldM_cons {A B} (f : B -> A -> result B) b x xs :
  foldM f b (x :: xs) = f b x ≫= fun b' => foldM f b' xs.
Proof. reflexivity. Qed.

Lemma try_except_inl {A} (body : result A) handler (e : Exception) :
  body = inl e -> try_except body handler = handler e.
Proof. now intros ->. Qed.

Lemma try_except_inr {A} (body : result A) handler (a : A) :
  body = inr a -> try_except body handler = inr a.
Proof. now intros ->. Qed.

(** [mapM] succeeds exactly when the function succeeds on every element. *)
Lemma mapM_inr {A B} (f : A -> result B) (g : A -> B) (l : list A) :
  Forall (fun x => f x = inr (g x)) l -> mapM f l = inr (map g l).
Proof.
  induction 1 as [|x l Hx _ IH]; [reflexivity|].
  cbn. rewrite Hx. cbn. rewrite IH. reflexivity.
Qed.

Lemma mapM_inl {A B} (f : A -> result B) (l : list A) :
  Exists (fun x => exists e, f x = inl e) l -> exists e, mapM f l = inl e.
Proof.
  induction 1 as [x l [e He]|x l _ [e IH]].
  - exists e. cbn. now rewrite He.
  - cbn. destruct (f x) as [e'|y]; cbn; [eauto|].
    rewrite IH. eauto.
Qed.

(** ** The orchestrator, path by path *)

Section Orchestrator.
Context `{DatabaseService} `{AIService} `{VectorLib} `{Clock}.
Import SearchService.

Lemma search_result_scored query r :
  scored r -> search_result query r = inr (result_of query r).
Proof.
  intros [s Hs]. unfold search_result, result_of, score_key.
  now rewrite Hs.
Qed.

Lemma search_result_unscored query r :
  ~ scored r -> exists e, search_result query r = inl e.
Proof.
  unfold scored, search_result. destruct (DataRecord.score r); [|eauto].
  intros []. eauto.
Qed.

Lemma results_all_scored query data :
  Forall scored data ->
  mapM (search_result query) data = inr (map (result_of query) data).
Proof.
  intros Hall. apply mapM_inr.
  eapply Forall_impl; [exact Hall|]. intros r. apply search_result_scored.
Qed.

Lemma results_some_unscored query data :
  ~ Forall scored data -> exists e, mapM (search_result query) data = inl e.
Proof.
  intros Hn. apply mapM_inl. apply not_Forall_Exists in Hn; [|apply _].
  eapply Exists_impl; [exact Hn|]. intros r. apply search_result_unscored.
Qed.

Lemma filter_min_score_scored min_score data :
  Forall scored data ->
  filter_min_score min_score data = inr (List.filter (passes min_score) data).
Proof.
  induction 1 as [|r data [s Hs] _ IH]; [reflexivity|].
  cbn. unfold passes, score_key. rewrite Hs, IH. cbn.
  now destruct (Qle_bool min_score s).
Qed.

Lemma filter_min_score_unscored min_score data :
  ~ Forall scored data -> exists e, filter_min_score min_score data = inl e.
Proof.
  induction data as [|r data IH]; intros Hn.
  - destruct Hn. constructor.
  - cbn. destruct (DataRecord.score r) as [s|] eqn:Hs; [|eauto].
    destruct IH as [e He].
    + intros Hall. apply Hn. constructor; [|exact Hall]. now exists s.
    + rewrite He. eauto.
Qed.

Lemma filter_preserves_scored (p : DataRecord.t -> bool) data :
  Forall scored data -> Forall scored (List.filter p data).
Proof.
  intros Hall. apply Forall_forall. intros r Hr.
  apply list_elem_of_In, filter_In in Hr as [Hr _].
  rewrite Forall_forall in Hall. apply Hall. now apply list_elem_of_In.
Qed.

Lemma kept_scored min_score data :
  Forall scored data -> Forall scored (kept min_score data).
Proof.
  unfold kept. destruct (Qltb 0 min_score); [|done].
  apply filter_preserves_scored.
Qed.

(** The three ways a search ends. *)
Lemma hybrid_search_failed query search_type filters limit offset min_score e :
  candidates query search_type filters limit offset = inl e ->
  hybrid_search query search_type filters limit offset min_score
  = empty_response query search_type limit offset.
Proof.
  intros He. unfold hybrid_search, hybrid_search_body. now rewrite He.
Qed.

Lemma hybrid_search_scored query search_type filters limit offset min_score
      pool :
  candidates query search_type filters limit offset = inr pool ->
  Forall scored (SearchData.data pool) ->
  hybrid_search query search_type filters limit offset min_score
  = response_of query search_type limit offset min_score pool.
Proof.
  intros Hp Hall. unfold hybrid_search, hybrid_search_body, response_of, kept.
  rewrite Hp. cbn.
  destruct (Qltb 0 min_score).
  - rewrite (filter_min_score_scored _ _ Hall). cbn.
    rewrite results_all_scored by now apply filter_preserves_scored.
    cbn. now rewrite length_map.
  - cbn. rewrite (results_all_scored _ _ Hall). cbn. now rewrite length_map.
Qed.

Lemma hybrid_search_unscored query search_type filters limit offset min_score
      pool :
  candidates query search_type filters limit offset = inr pool ->
  ~ Forall scored (SearchData.data pool) ->
  hybrid_search query search_type filters limit offset min_score
  = empty_response query search_type limit offset.
Proof.
  intros Hp Hn. unfold hybrid_search, hybrid_search_body.
  rewrite Hp. cbn.
  destruct (Qltb 0 min_score).
  - destruct (filter_min_score_unscored min_score _ Hn) as [e ->]. reflexivity.
  - cbn. destruct (results_some_unscored query _ Hn) as [e ->]. reflexivity.
Qed.

(** Every search ends in one of two shapes. *)
Lemma hybrid_search_shape query search_type filters limit offset min_score :
  hybrid_search query search_type filters limit offset min_score
  = empty_response query search_type limit offset
  \/ exists pool,
      candidates query search_type filters limit offset = inr pool
      /\ Forall scored (SearchData.data pool)
      /\ hybrid_search query search_type filters limit offset min_score
         = response_of query search_type limit offset min_score pool.
Proof.
  destruct (candidates query search_type filters limit offset)
    as [e|pool] eqn:Hp.
  - left. eapply hybrid_search_failed, Hp.
  - destruct (decide (Forall scored (SearchData.data pool))) as [Hall|Hn].
    + right. exists pool. split; [done|]. split; [done|].
      now apply hybrid_search_scored.
    + left. now apply hybrid_search_unscored with pool.
Qed.

Lemma filter_map_result query (p : Q -> bool) data :
  List.filter (fun x => p (SearchResult.score x)) (map (result_of query) data)
  = map (result_of query) (List.filter (fun r => p (score_key r)) data).
Proof.
  induction data as [|r data IH]; [reflexivity|].
  cbn. destruct (p (score_key r)); cbn; now rewrite IH.
Qed.

(** [returned_count] is the length of the result list on every path. *)
Lemma returned_count_length query search_type filters limit offset min_score :
  let response :=
    hybrid_search query search_type filters limit offset min_score in
  SearchResponse.returned_count response
  = length (SearchResponse.results response).
Proof.
  cbn zeta.
  destruct (hybrid_search_shape query search_type filters limit offset
                                min_score) as [->|(pool & _ & _ & ->)].
  - reflexivity.
  - unfold response_of. cbn. now rewrite length_map.
Qed.

End Orchestrator.

(** ** Sorting *)

Section SortFacts.
Context {A : Type}.

Lemma insert_sorted_perm (after : A -> A -> bool) x l :
  insert_sorted after x l ≡ₚ x :: l.
Proof.
  induction l as [|y l IH]; [reflexivity|].
  cbn. destruct (after x y); [|reflexivity].
  rewrite IH. apply Permutation_swap.
Qed.

Lemma stable_sort_perm (after : A -> A -> bool) l :
  stable_sort after l ≡ₚ l.
Proof.
  induction l as [|x l IH]; [reflexivity|].
  cbn. rewrite insert_sorted_perm. now rewrite IH.
Qed.

Lemma sort_desc_perm (key : A -> Q) l : sort_desc key l ≡ₚ l.
Proof. apply stable_sort_perm. Qed.

Lemma sort_desc_length (key : A -> Q) l :
  length (sort_desc key l) = length l.
Proof. apply Permutation_length, sort_desc_perm. Qed.

Lemma Qltb_lt (x y : Q) : Qltb x y = true <-> (x < y)%Q.
Proof.
  unfold Qltb. rewrite negb_true_iff, <- not_true_iff_false, Qle_bool_iff.
  split; [apply Qnot_le_lt | apply Qlt_not_le].
Qed.

Lemma Qltb_ge (x y : Q) : Qltb x y = false <-> (y <= x)%Q.
Proof. unfold Qltb. now rewrite negb_false_iff, Qle_bool_iff. Qed.

Lemma insert_desc_sorted (key : A -> Q) x l :
  sorted_desc key l ->
  sorted_desc key (insert_sorted (fun a b => Qltb (key a) (key b)) x l).
Proof.
  unfold sorted_desc.
  induction 1 as [|y l Hs IH Hy]; cbn.
  - repeat constructor.
  - destruct (Qltb (key x) (key y)) eqn:Hxy.
    + apply Qltb_lt in Hxy. constructor; [exact IH|].
      apply Forall_forall. intros z Hz.
      rewrite insert_sorted_perm in Hz.
      apply elem_of_cons in Hz as [->|Hz].
      * now apply Qlt_le_weak.
      * rewrite Forall_forall in Hy. now apply Hy.
    + apply Qltb_ge in Hxy. constructor.
      * now constructor.
      * constructor; [exact Hxy|].
        eapply Forall_impl; [exact Hy|]. cbn. intros z Hz.
        now apply Qle_trans with (key y).
Qed.

(** [sorted(..., reverse=True)] returns its input in descending order
    of the key. *)
Lemma sort_desc_sorted (key : A -> Q) l : sorted_desc key (sort_desc key l).
Proof.
  induction l as [|x l IH]; [constructor|].
  apply insert_desc_sorted, IH.
Qed.

Lemma page_subset offset limit (l : list A) x :
  x ∈ page offset limit l -> x ∈ l.
Proof.
  unfold page. intros Hx.
  eapply subseteq_drop, subseteq_take, Hx.
Qed.
End SortFacts.

(** ** Dictionaries *)

Section DictFacts.
Context {V : Type}.
Implicit Types (d : dict V) (k : string) (v : V).

Lemma dict_get_None k d : Dict.get k d = None <-> k ∉ Dict.keys d.
Proof.
  induction d as [|[k' v'] d IH]; cbn.
  - split; [intros _; apply not_elem_of_nil | done].
  - rewrite not_elem_of_cons. destruct (String.eqb_spec k k') as [->|Hne].
    + split; [discriminate | intros [[] _]; reflexivity].
    + rewrite IH. tauto.
Qed.

Lemma dict_mem_true k d : Dict.mem k d = true <-> k ∈ Dict.keys d.
Proof.
  unfold Dict.mem. destruct (Dict.get k d) eqn:Hg.
  - split; [intros _|done].
    destruct (decide (k ∈ Dict.keys d)) as [|Hn]; [done|].
    apply dict_get_None in Hn. congruence.
  - split; [discriminate|]. intros Hin.
    apply dict_get_None in Hg. contradiction.
Qed.

(** A new key is appended. *)
Lemma dict_set_fresh k v d :
  Dict.get k d = None -> Dict.set k v d = d ++ [(k, v)].
Proof.
  induction d as [|[k' v'] d IH]; cbn; [reflexivity|].
  destruct (String.eqb k k'); [discriminate|].
  intros Hg. now rewrite IH.
Qed.

(** Assignment does not change the keys that are present. *)
Lemma dict_set_keys k v d :
  k ∈ Dict.keys d -> Dict.keys (Dict.set k v d) = Dict.keys d.
Proof.
  induction d as [|[k' v'] d IH]; cbn.
  - intros Hin. now apply elem_of_nil in Hin.
  - destruct (String.eqb_spec k k') as [->|Hne]; [reflexivity|].
    intros Hin. apply elem_of_cons in Hin as [?|Hin]; [done|].
    cbn. f_equal. now apply IH.
Qed.

Lemma dict_set_forall (P : V -> Prop) k v d :
  P v -> Forall (fun e => P (snd e)) d ->
  Forall (fun e => P (snd e)) (Dict.set k v d).
Proof.
  intros Hv. induction 1 as [|[k' v'] d Hh Ht IH]; cbn.
  - repeat constructor. exact Hv.
  - destruct (String.eqb k k'); constructor; try done.
Qed.

Lemma dict_get_elem k v d : Dict.get k d = Some v -> (k, v) ∈ d.
Proof.
  induction d as [|[k' v'] d IH]; cbn; [discriminate|].
  destruct (String.eqb_spec k k') as [->|Hne].
  - intros [= ->]. apply list_elem_of_here.
  - intros Hg. apply list_elem_of_further. now apply IH.
Qed.
End DictFacts.

(** ** Fusion of the two candidate lists *)

Section Fusion.
Import SearchService.

Lemma score_of_scored r s : DataRecord.score r = Some s -> score_of r = s.
Proof. unfold score_key. now intros ->. Qed.

Lemma ids_cons r l : ids (r :: l) = DataRecord.id r :: ids l.
Proof. reflexivity. Qed.

Lemma add_keyword_scored acc r s :
  DataRecord.score r = Some s ->
  add_keyword acc r
  = inr (Dict.set (DataRecord.id r) (r, Some (s * boost)%Q) acc).
Proof. unfold add_keyword. now intros ->. Qed.

Lemma add_semantic_present acc m kept a s :
  Dict.get (DataRecord.id m) acc = Some (kept, Some a) ->
  DataRecord.score m = Some s ->
  add_semantic acc m
  = inr (Dict.set (DataRecord.id m) (kept, Some (a + s)%Q) acc).
Proof. unfold add_semantic. now intros -> ->. Qed.

Lemma add_semantic_absent acc m :
  Dict.get (DataRecord.id m) acc = None ->
  add_semantic acc m
  = inr (Dict.set (DataRecord.id m) (m, DataRecord.score m) acc).
Proof. unfold add_semantic. now intros ->. Qed.

Lemma keys_keyword_entries kd : Dict.keys (map keyword_entry kd) = ids kd.
Proof. unfold Dict.keys, ids. rewrite map_map. reflexivity. Qed.

(** The first loop appends one entry per keyword candidate. *)
Lemma keyword_loop kd :
  forall acc,
    Forall scored kd -> NoDup (ids kd) ->
    (forall i, i ∈ ids kd -> i ∉ Dict.keys acc) ->
    foldM add_keyword acc kd = inr (acc ++ map keyword_entry kd).
Proof.
  induction kd as [|r kd IH]; intros acc Hs Hnd Hfresh.
  - cbn. now rewrite app_nil_r.
  - apply Forall_cons in Hs as [[s Hs] Hrest].
    rewrite ids_cons in Hnd, Hfresh. apply NoDup_cons in Hnd as [Hr Hnd].
    rewrite foldM_cons, (add_keyword_scored _ _ _ Hs), ret_bind.
    rewrite dict_set_fresh.
    2:{ apply dict_get_None, Hfresh. apply list_elem_of_here. }
    rewrite IH; [|done|done|].
    + rewrite <- app_assoc. cbn [map app]. unfold keyword_entry at 2.
      now rewrite (score_of_scored _ _ Hs).
    + intros i Hi. unfold Dict.keys. rewrite map_app. cbn [map fst].
      rewrite elem_of_app, list_elem_of_singleton.
      intros [Hacc| ->].
      * eapply Hfresh; [|exact Hacc]. now apply list_elem_of_further.
      * contradiction.
Qed.

Lemma lookup_id_other i m sd :
  i <> DataRecord.id m -> lookup_id i (m :: sd) = lookup_id i sd.
Proof.
  intros Hne. unfold lookup_id. cbn.
  destruct (String.eqb_spec (DataRecord.id m) i); [congruence|reflexivity].
Qed.

Lemma lookup_id_absent i sd : i ∉ ids sd -> lookup_id i sd = None.
Proof.
  induction sd as [|m sd IH]; [reflexivity|].
  rewrite ids_cons, not_elem_of_cons. intros [Hne Hn].
  rewrite lookup_id_other by done. now apply IH.
Qed.

Lemma lookup_id_missing i sd m :
  lookup_id i sd = None -> m ∈ sd -> DataRecord.id m <> i.
Proof.
  unfold lookup_id. intros Hf Hm Heq.
  apply list_elem_of_In in Hm.
  pose proof (find_none _ _ Hf m Hm) as Hno. cbn in Hno.
  rewrite Heq, String.eqb_refl in Hno. discriminate.
Qed.

Lemma lookup_id_found i sd m :
  lookup_id i sd = Some m -> m ∈ sd /\ DataRecord.id m = i.
Proof.
  unfold lookup_id. intros Hf. apply find_some in Hf as [Hin Heq].
  split; [now apply list_elem_of_In | now apply String.eqb_eq].
Qed.

Lemma has_id_true i kd : has_id i kd = true <-> i ∈ ids kd.
Proof.
  unfold has_id, ids. rewrite existsb_exists, list_elem_of_fmap.
  split.
  - intros (r & Hin & Heq). exists r.
    split; [symmetry; now apply String.eqb_eq | now apply list_elem_of_In].
  - intros (r & -> & Hin). exists r.
    split; [now apply list_elem_of_In | apply String.eqb_refl].
Qed.

Lemma merge_entry_other m sd e :
  fst e <> DataRecord.id m -> merge_entry (m :: sd) e = merge_entry sd e.
Proof. intros Hne. unfold merge_entry. now rewrite lookup_id_other. Qed.

Lemma merge_entries_other m sd acc :
  DataRecord.id m ∉ Dict.keys acc ->
  map (merge_entry (m :: sd)) acc = map (merge_entry sd) acc.
Proof.
  intros Hn. apply map_ext_in. intros e He.
  apply merge_entry_other. intros Heq. apply Hn.
  unfold Dict.keys. rewrite <- Heq.
  apply list_elem_of_fmap. exists e. split; [done|now apply list_elem_of_In].
Qed.

Lemma merge_entry_nil e : merge_entry [] e = e.
Proof.
  destruct e as [k [r [a|]]]; reflexivity.
Qed.

(** Adding the score of [m] to the entry of its id. *)
Lemma merge_entries_update m s sd acc kept a :
  NoDup (Dict.keys acc) ->
  Dict.get (DataRecord.id m) acc = Some (kept, Some a) ->
  DataRecord.score m = Some s ->
  DataRecord.id m ∉ ids sd ->
  map (merge_entry sd)
      (Dict.set (DataRecord.id m) (kept, Some (a + s)%Q) acc)
  = map (merge_entry (m :: sd)) acc.
Proof.
  intros Hnd Hget Hs Hfresh.
  induction acc as [|[k v] acc IH]; [discriminate|].
  cbn in Hnd. apply NoDup_cons in Hnd as [Hk Hnd].
  cbn in Hget |- *.
  destruct (String.eqb_spec (DataRecord.id m) k) as [Heq|Hne].
  - injection Hget as ->. cbn.
    rewrite (merge_entries_other m sd acc) by now rewrite Heq.
    f_equal. unfold merge_entry. cbn.
    rewrite (lookup_id_absent _ _ Hfresh).
    unfold lookup_id. cbn. rewrite Heq, String.eqb_refl.
    now rewrite (score_of_scored _ _ Hs).
  - cbn. rewrite IH by done. f_equal.
    symmetry. apply merge_entry_other. cbn. congruence.
Qed.

Lemma mem_set_same (i k : string) (v : DataRecord.t * option Q) acc :
  k ∈ Dict.keys acc -> Dict.mem i (Dict.set k v acc) = Dict.mem i acc.
Proof.
  intros Hk.
  destruct (Dict.mem i acc) eqn:Hm.
  - apply dict_mem_true. rewrite dict_set_keys by done.
    now apply dict_mem_true.
  - apply not_true_iff_false. rewrite dict_mem_true, dict_set_keys by done.
    rewrite <- dict_mem_true. congruence.
Qed.

Lemma mem_app_other (i k : string) (v : DataRecord.t * option Q) acc :
  i <> k -> Dict.mem i (acc ++ [(k, v)]) = Dict.mem i acc.
Proof.
  intros Hne.
  assert (Hkeys : forall j, j ∈ Dict.keys (acc ++ [(k, v)])
                            <-> j ∈ Dict.keys acc \/ j = k).
  { intros j. unfold Dict.keys. rewrite map_app, elem_of_app. cbn.
    now rewrite list_elem_of_singleton. }
  destruct (Dict.mem i acc) eqn:Hm.
  - apply dict_mem_true, Hkeys. left. now apply dict_mem_true.
  - apply not_true_iff_false. rewrite dict_mem_true, Hkeys.
    intros [Hin|Heq]; [|done].
    apply dict_mem_true in Hin. congruence.
Qed.

(** The second loop adds to the entries whose id it meets and appends
    the others. *)
Lemma semantic_loop sd :
  forall acc,
    Forall scored sd -> NoDup (ids sd) -> NoDup (Dict.keys acc) ->
    Forall (fun e => is_Some (snd (snd e))) acc ->
    foldM add_semantic acc sd
    = inr (map (merge_entry sd) acc
           ++ map semantic_entry
                (List.filter (fun m => negb (Dict.mem (DataRecord.id m) acc))
                             sd)).
Proof.
  induction sd as [|m sd IH]; intros acc Hs Hnd Hkeys Hsome.
  - cbn. rewrite app_nil_r. f_equal.
    rewrite (map_ext (merge_entry []) (fun e => e)) by apply merge_entry_nil.
    now rewrite map_id.
  - apply Forall_cons in Hs as [[s Hs] Hrest].
    rewrite ids_cons in Hnd. apply NoDup_cons in Hnd as [Hm Hnd].
    rewrite foldM_cons. cbn [List.filter].
    destruct (Dict.get (DataRecord.id m) acc) as [[kept fused]|] eqn:Hget.
    + assert (Hin : DataRecord.id m ∈ Dict.keys acc).
      { apply dict_mem_true. unfold Dict.mem. now rewrite Hget. }
      assert (Hfused : is_Some fused).
      { rewrite Forall_forall in Hsome.
        apply (Hsome _ (dict_get_elem _ _ _ Hget)). }
      destruct Hfused as [a ->].
      rewrite (add_semantic_present _ _ _ _ _ Hget Hs), ret_bind.
      rewrite IH; [|done|done| |].
      * rewrite (merge_entries_update m s sd acc kept a) by done.
        unfold Dict.mem at 2. rewrite Hget. cbn [negb].
        do 3 f_equal. apply filter_ext. intros r.
        now rewrite mem_set_same.
      * now rewrite dict_set_keys.
      * apply (dict_set_forall (fun v => is_Some (snd v))); [by eexists|done].
    + rewrite (add_semantic_absent _ _ Hget), ret_bind.
      rewrite dict_set_fresh by done.
      assert (Hn : DataRecord.id m ∉ Dict.keys acc) by now apply dict_get_None.
      rewrite IH; [|done|done| |].
      * rewrite map_app. cbn [map]. rewrite <- app_assoc. cbn [app].
        rewrite (merge_entries_other m sd acc) by done.
        unfold Dict.mem at 2. rewrite Hget. cbn [negb map].
        do 3 f_equal.
        -- unfold merge_entry, semantic_entry. cbn [fst snd].
           rewrite (lookup_id_absent _ _ Hm).
           rewrite Hs. now rewrite (score_of_scored _ _ Hs).
        -- f_equal. apply filter_ext_in. intros r Hr.
           rewrite mem_app_other; [done|].
           intros Heq. apply Hm. rewrite <- Heq.
           apply list_elem_of_fmap. exists r.
           split; [done | now apply list_elem_of_In].
      * unfold Dict.keys. rewrite map_app. cbn [map fst].
        apply NoDup_app. split; [done|]. split.
        -- intros i Hi. rewrite list_elem_of_singleton. intros ->. done.
        -- apply NoDup_singleton.
      * apply Forall_app. split; [done|]. repeat constructor. cbn. by eexists.
Qed.

Lemma mem_keyword_entries i kd :
  Dict.mem i (map keyword_entry kd) = has_id i kd.
Proof.
  destruct (has_id i kd) eqn:Hh.
  - apply dict_mem_true. rewrite keys_keyword_entries. now apply has_id_true.
  - apply not_true_iff_false.
    rewrite dict_mem_true, keys_keyword_entries, <- has_id_true. congruence.
Qed.

(** The dictionary the two loops build holds the fused pool, in the
    order of the specification's wording. *)
Lemma combine_fused kd sd :
  Forall scored kd -> Forall scored sd ->
  NoDup (ids kd) -> NoDup (ids sd) ->
  exists combined,
    combine kd sd = inr combined
    /\ Dict.values combined = fused_pool kd sd.
Proof.
  intros Hk Hs Hnk Hns. unfold combine.
  rewrite (keyword_loop kd []); [|done|done|].
  2:{ intros i _. apply not_elem_of_nil. }
  rewrite ret_bind. cbn [app].
  rewrite semantic_loop; [|done|done| |].
  - eexists. split; [reflexivity|].
    unfold Dict.values, fused_pool. rewrite map_app, !map_map.
    rewrite (filter_ext
               (fun m => negb (Dict.mem (DataRecord.id m)
                                        (map keyword_entry kd)))
               (fun m => negb (has_id (DataRecord.id m) kd))).
    2:{ intros m. now rewrite mem_keyword_entries. }
    apply (f_equal2 (@app _)); [|reflexivity].
    apply map_ext. intros k. unfold merge_entry, keyword_entry.
    cbn [fst snd]. now destruct (lookup_id (DataRecord.id k) sd).
  - now rewrite keys_keyword_entries.
  - apply Forall_forall. intros e He.
    apply list_elem_of_fmap in He as (k & -> & _). cbn. by eexists.
Qed.

Lemma fused_pool_scored kd sd :
  Forall (fun e => is_Some (snd e)) (fused_pool kd sd).
Proof.
  unfold fused_pool. apply Forall_app. split; apply Forall_forall.
  - intros e He. apply list_elem_of_fmap in He as (k & -> & _). cbn.
    destruct (lookup_id (DataRecord.id k) sd); by eexists.
  - intros e He. apply list_elem_of_fmap in He as (m & -> & _). by eexists.
Qed.

Lemma sort_combined_scored entries :
  Forall (fun e => is_Some (snd e)) entries ->
  sort_combined entries = inr (sort_desc fused_score entries).
Proof.
  intros Hall. unfold sort_combined.
  rewrite (proj2 (forallb_forall _ entries)); [reflexivity|].
  intros e He. apply bool_decide_eq_true.
  rewrite Forall_forall in Hall. now apply Hall, list_elem_of_In.
Qed.

(** Ranking a pool whose entries all carry a score. *)
Lemma rank_fused combined limit offset kd sd :
  Dict.values combined = fused_pool kd sd ->
  rank combined limit offset
  = inr (SearchData.mk
           (map with_fused_score (page offset limit (ranked_pool kd sd)))
           (length (fused_pool kd sd)) offset limit
           (length (page offset limit (ranked_pool kd sd)))).
Proof.
  intros Hv. unfold rank. rewrite Hv.
  rewrite (sort_combined_scored _ (fused_pool_scored kd sd)), ret_bind.
  rewrite sort_desc_length, length_map. reflexivity.
Qed.

(** A record is determined by its id in a list without duplicate ids. *)
Lemma same_id_same_record l a b :
  NoDup (ids l) -> a ∈ l -> b ∈ l ->
  DataRecord.id a = DataRecord.id b -> a = b.
Proof.
  induction l as [|x l IH]; intros Hnd Ha Hb Heq.
  - now apply elem_of_nil in Ha.
  - rewrite ids_cons in Hnd. apply NoDup_cons in Hnd as [Hx Hnd].
    apply elem_of_cons in Ha as [->|Ha]; apply elem_of_cons in Hb as [->|Hb].
    + reflexivity.
    + exfalso. apply Hx. rewrite Heq.
      apply list_elem_of_fmap. now exists b.
    + exfalso. apply Hx. rewrite <- Heq.
      apply list_elem_of_fmap. now exists a.
    + now apply IH.
Qed.

Lemma elem_of_ranked_pool e kd sd :
  e ∈ ranked_pool kd sd <-> e ∈ fused_pool kd sd.
Proof. unfold ranked_pool. now rewrite sort_desc_perm. Qed.

End Fusion.

(** ** The store query *)

Section StoreFacts.
Context `{MongoEngine}.

Lemma try_except_reraise {A} (body : result A) :
  try_except body (fun e => raise e) = body.
Proof. now destruct body. Qed.

Lemma add_filter_status mc key value mc' :
  key <> "status" ->
  Database.add_filter mc (key, value) = inr mc' ->
  mc' !! "status" = mc !! "status".
Proof.
  intros Hkey. unfold Database.add_filter.
  destruct value as [| | | |items|range].
  1-4: intros [= <-]; now rewrite lookup_insert_ne.
  - destruct (String.eqb key "tags");
      [|destruct (String.eqb key "categories")];
      intros [= <-]; now rewrite lookup_insert_ne.
  - destruct (String.eqb key "date_range").
    + set (mc1 := match Dict.get "start" range with
                  | Some start => <["created_at" := JObj [("$gte", start)]]> mc
                  | None => mc
                  end).
      assert (H1 : mc1 !! "status" = mc !! "status").
      { unfold mc1. destruct (Dict.get "start" range); [|done].
        now rewrite lookup_insert_ne. }
      destruct (Dict.get "end" range); [|intros [= <-]; exact H1].
      destruct (mc1 !! "created_at") as [[| | | | |ops]|];
        try discriminate;
        intros [= <-]; now rewrite lookup_insert_ne.
    + intros [= <-]. now rewrite lookup_insert_ne.
Qed.

Lemma add_filters_status items :
  forall mc mc',
    "status" ∉ Dict.keys items ->
    foldM Database.add_filter mc items = inr mc' ->
    mc' !! "status" = mc !! "status".
Proof.
  induction items as [|[key value] items IH]; intros mc mc' Hn.
  - now intros [= <-].
  - cbn [Dict.keys map fst] in Hn. apply not_elem_of_cons in Hn as [Hk Hn].
    rewrite foldM_cons. intros Hf.
    apply bind_inr in Hf as (mc1 & H1 & Hf).
    rewrite (IH _ _ Hn Hf). eapply add_filter_status; [|exact H1]. congruence.
Qed.

(** Without a filter on [status], the [$match] document excludes the
    deleted records. *)
Lemma match_conditions_status query filters mc :
  "status" ∉ Dict.keys (default [] filters) ->
  Database.match_conditions query filters = inr mc ->
  mc !! "status" = Some not_deleted.
Proof.
  intros Hn. unfold Database.match_conditions.
  set (mc1 := if Database.has_text query then _ else _).
  assert (H1 : mc1 !! "status" = Some not_deleted).
  { unfold mc1. destruct (Database.has_text query).
    - rewrite lookup_insert_ne by done. apply lookup_singleton_eq.
    - apply lookup_singleton_eq. }
  destruct (filters_truthy filters).
  - intros Hf. now rewrite (add_filters_status _ _ _ Hn Hf).
  - now intros [= <-].
Qed.

Lemma not_deleted_holds d :
  Mongo.entry_holds d "status" not_deleted = true ->
  DataRecord.status d <> DELETED.
Proof.
  intros Hh Hd. revert Hh.
  unfold Mongo.entry_holds, Mongo.field_holds, Mongo.field_value.
  cbn. rewrite Hd. cbn. discriminate.
Qed.

Lemma matches_status mc d :
  mc !! "status" = Some not_deleted ->
  Mongo.matches mc d = true ->
  DataRecord.status d <> DELETED.
Proof.
  intros Hs Hm. apply not_deleted_holds.
  unfold Mongo.matches in Hm. rewrite forallb_forall in Hm.
  apply (Hm ("status", not_deleted)).
  apply list_elem_of_In, elem_of_map_to_list, Hs.
Qed.

Lemma sort_stage_perm sort_by sort_order docs :
  Database.sort_stage sort_by sort_order docs ≡ₚ docs.
Proof.
  unfold Database.sort_stage.
  destruct (sort_order =? 1)%Z; apply stable_sort_perm.
Qed.

(** Every record that [search_records] returns is a stored document
    that satisfies the [$match] document, up to its score. *)
Lemma search_records_sound db query filters sort_by sort_order limit offset
      found r :
  Database.search_records db query filters sort_by sort_order limit offset
  = inr found ->
  r ∈ SearchData.data found ->
  exists mc docs d s,
    Database.match_conditions query filters = inr mc
    /\ Database.collection db = Some docs
    /\ d ∈ docs
    /\ Mongo.matches mc d = true
    /\ (r = d \/ r = DataRecord.set_score s d).
Proof.
  unfold Database.search_records. rewrite try_except_reraise.
  intros Hb Hr.
  apply bind_inr in Hb as (mc & Hmc & Hb).
  apply bind_inr in Hb as (docs & Hdocs & Hb).
  apply bind_inr in Hb as (scored_docs & Hsc & Hb).
  injection Hb as <-. cbn [SearchData.data] in Hr.
  apply subseteq_take, subseteq_drop in Hr.
  rewrite sort_stage_perm in Hr.
  destruct (Database.collection db) as [docs'|]; [|discriminate].
  injection Hdocs as ->.
  assert (Hmatched : forall d, d ∈ filter (fun d => Mongo.matches mc d) docs ->
                               d ∈ docs /\ Mongo.matches mc d = true).
  { intros d Hd. apply list_elem_of_filter in Hd as [Hm Hd].
    split; [done|]. now apply Is_true_true. }
  destruct (Database.has_text query).
  - unfold Database.add_score in Hsc.
    destruct (Database.search_string mc) as [q|]; [|discriminate].
    injection Hsc as <-.
    apply list_elem_of_fmap in Hr as (d & -> & Hd).
    apply Hmatched in Hd as [Hd Hm].
    exists mc, docs, d, (text_score q d). eauto 10.
  - injection Hsc as <-. apply Hmatched in Hr as [Hd Hm].
    exists mc, docs, r, None. eauto 10.
Qed.

(** The part of the soft-delete exclusion that holds: a search whose
    filters do not mention [status] returns no deleted record. *)
Lemma search_records_excludes_deleted db query filters sort_by sort_order
      limit offset found :
  "status" ∉ Dict.keys (default [] filters) ->
  Database.search_records db query filters sort_by sort_order limit offset
  = inr found ->
  Forall (fun r => DataRecord.status r <> DELETED) (SearchData.data found).
Proof.
  intros Hn Hf. apply Forall_forall. intros r Hr.
  destruct (search_records_sound _ _ _ _ _ _ _ _ _ Hf Hr)
    as (mc & docs & d & s & Hmc & _ & _ & Hm & Hrd).
  pose proof (matches_status mc d (match_conditions_status _ _ _ Hn Hmc) Hm).
  now destruct Hrd as [->| ->].
Qed.
End StoreFacts.

(** ** The orchestrator: containment, floor and envelope *)

Section OrchestratorClaims.
Context `{DatabaseService} `{AIService} `{VectorLib} `{Clock}.
Import SearchService.

(** C2.  An exception raised inside the [try] block of the semantic,
    the fuzzy or the exact strategy makes the strategy return what the
    keyword strategy returns for the same query, filters, limit and
    offset; and when the [try] block of the orchestrator raises, the
    orchestrator returns the empty response: no results, both counts 0,
    the caller's parameters echoed, and no field that reports the
    error. *)
Theorem failure_containment query filters limit offset search_type min_score :
  (forall e, semantic_body query filters limit offset = inl e ->
             _semantic_search query filters limit offset
             = _keyword_search query filters limit offset)
  /\ (forall e, fuzzy_body query filters limit offset = inl e ->
                _fuzzy_search query filters limit offset
                = _keyword_search query filters limit offset)
  /\ (forall e, exact_body query filters limit offset = inl e ->
                _exact_search query filters limit offset
                = _keyword_search query filters limit offset)
  /\ (forall e,
         hybrid_search_body query search_type filters limit offset min_score
         = inl e ->
         let response :=
           hybrid_search query search_type filters limit offset min_score in
         response = SearchResponse.mk query search_type [] 0 0 offset limit
                                      elapsed [] ∅ None
         /\ SearchResponse.results response = []
         /\ SearchResponse.total_count response = 0%nat
         /\ SearchResponse.returned_count response = 0%nat).
Proof.
  split; [|split; [|split]].
  - intros e He. unfold _semantic_search. now rewrite He.
  - intros e He. unfold _fuzzy_search. now rewrite He.
  - intros e He. unfold _exact_search. now rewrite He.
  - intros e He. cbn zeta. unfold hybrid_search. rewrite He. done.
Qed.

(** C10.  Whatever the path taken, the response reports as
    [returned_count] the length of its result list, echoes the caller's
    query, search type, offset and limit, and carries at most five
    suggestions. *)
Theorem response_envelope query search_type filters limit offset min_score :
  let response :=
    hybrid_search query search_type filters limit offset min_score in
  SearchResponse.returned_count response
  = length (SearchResponse.results response)
  /\ SearchResponse.query response = query
  /\ SearchResponse.search_type response = search_type
  /\ SearchResponse.offset response = offset
  /\ SearchResponse.limit response = limit
  /\ (length (SearchResponse.suggestions response) <= 5)%nat.
Proof.
  cbn zeta.
  destruct (hybrid_search_shape query search_type filters limit offset
                                min_score) as [->|(pool & _ & _ & ->)].
  - cbn. repeat split; lia.
  - unfold response_of. cbn. rewrite length_map.
    repeat split. unfold _generate_suggestions. rewrite length_take. lia.
Qed.

(** C4.  With a positive [min_score], the results are those of the same
    search without floor whose score reaches [min_score]; every result
    returned has such a score; [returned_count] counts the results that
    remain; and [total_count] is the one of the search without floor:
    when the candidates were retrieved and all carry a score, it is the
    size the retrieval reported for the pool before the filter. *)
Theorem min_score_filter query search_type filters limit offset min_score :
  (0 < min_score)%Q ->
  let unfiltered := hybrid_search query search_type filters limit offset 0 in
  let response :=
    hybrid_search query search_type filters limit offset min_score in
  SearchResponse.results response
  = List.filter (fun x => Qle_bool min_score (SearchResult.score x))
                (SearchResponse.results unfiltered)
  /\ Forall (fun x => (min_score <= SearchResult.score x)%Q)
            (SearchResponse.results response)
  /\ SearchResponse.returned_count response
     = length (SearchResponse.results response)
  /\ SearchResponse.total_count response
     = SearchResponse.total_count unfiltered
  /\ (forall pool,
         candidates query search_type filters limit offset = inr pool ->
         Forall scored (SearchData.data pool) ->
         SearchResponse.total_count response = SearchData.total_count pool
         /\ SearchResponse.results response
            = map (result_of query)
                  (List.filter (passes min_score) (SearchData.data pool))).
Proof.
  intros Hpos. cbn zeta.
  assert (Hlt : Qltb 0 min_score = true).
  { unfold Qltb. apply negb_true_iff. apply not_true_iff_false.
    rewrite Qle_bool_iff. now apply Qlt_not_le. }
  assert (Hfirst :
    SearchResponse.results
      (hybrid_search query search_type filters limit offset min_score)
    = List.filter (fun x => Qle_bool min_score (SearchResult.score x))
        (SearchResponse.results
           (hybrid_search query search_type filters limit offset 0))).
  { destruct (candidates query search_type filters limit offset)
      as [e|pool] eqn:Hp.
    - now rewrite !(hybrid_search_failed _ _ _ _ _ _ _ Hp).
    - destruct (decide (Forall scored (SearchData.data pool))) as [Hall|Hn].
      + rewrite !(hybrid_search_scored _ _ _ _ _ _ _ Hp Hall).
        unfold response_of, kept. cbn. rewrite Hlt.
        now rewrite (filter_map_result query (Qle_bool min_score)).
      + now rewrite !(hybrid_search_unscored _ _ _ _ _ _ _ Hp Hn). }
  split; [exact Hfirst|]. split.
  { rewrite Hfirst. apply Forall_forall. intros x Hx.
    apply list_elem_of_In, filter_In in Hx as [_ Hx].
    now apply Qle_bool_iff. }
  split.
  { apply returned_count_length. }
  split.
  { destruct (candidates query search_type filters limit offset)
      as [e|pool] eqn:Hp.
    - now rewrite !(hybrid_search_failed _ _ _ _ _ _ _ Hp).
    - destruct (decide (Forall scored (SearchData.data pool))) as [Hall|Hn].
      + now rewrite !(hybrid_search_scored _ _ _ _ _ _ _ Hp Hall).
      + now rewrite !(hybrid_search_unscored _ _ _ _ _ _ _ Hp Hn). }
  intros pool Hp Hall.
  rewrite (hybrid_search_scored _ _ _ _ _ _ _ Hp Hall).
  unfold response_of, kept. cbn. now rewrite Hlt.
Qed.

Lemma passes_weaken a b r :
  (a < b)%Q -> passes b r = true -> passes a r = true.
Proof.
  unfold passes. rewrite !Qle_bool_iff. intros Hab Hb.
  apply Qle_trans with b; [now apply Qlt_le_weak | exact Hb].
Qed.

(** The results for a floor are results of the search without floor. *)
Lemma kept_subset min_score data r :
  r ∈ kept min_score data -> r ∈ data.
Proof.
  unfold kept. destruct (Qltb 0 min_score); [|done].
  rewrite !list_elem_of_In, filter_In. tauto.
Qed.

Lemma kept_monotone a b data r :
  (a < b)%Q -> r ∈ kept b data -> r ∈ kept a data.
Proof.
  intros Hab. unfold kept.
  destruct (Qltb 0 b) eqn:Hb.
  - destruct (Qltb 0 a); rewrite !list_elem_of_In, !filter_In.
    + intros [Hin Hp]. split; [done|]. now apply passes_weaken with b.
    + tauto.
  - destruct (Qltb 0 a) eqn:Ha; [|done].
    exfalso. unfold Qltb in *.
    apply negb_false_iff, Qle_bool_iff in Hb.
    apply negb_true_iff, not_true_iff_false in Ha.
    apply Ha, Qle_bool_iff.
    apply Qle_trans with b; [now apply Qlt_le_weak | exact Hb].
Qed.

(** C8.  Raising the floor from [a] to [b] can only remove results: the
    results for [b] are among the results for [a], and so are their
    ids. *)
Theorem min_score_monotone query search_type filters limit offset a b :
  (a < b)%Q ->
  let lower := hybrid_search query search_type filters limit offset a in
  let higher := hybrid_search query search_type filters limit offset b in
  SearchResponse.results higher ⊆ SearchResponse.results lower
  /\ map SearchResult.id (SearchResponse.results higher)
     ⊆ map SearchResult.id (SearchResponse.results lower).
Proof.
  intros Hab. cbn zeta.
  assert (Hsub :
    SearchResponse.results
      (hybrid_search query search_type filters limit offset b)
    ⊆ SearchResponse.results
        (hybrid_search query search_type filters limit offset a)).
  { destruct (candidates query search_type filters limit offset)
      as [e|pool] eqn:Hp.
    - now rewrite !(hybrid_search_failed _ _ _ _ _ _ _ Hp).
    - destruct (decide (Forall scored (SearchData.data pool))) as [Hall|Hn].
      + rewrite !(hybrid_search_scored _ _ _ _ _ _ _ Hp Hall).
        unfold response_of. cbn. intros x.
        rewrite !list_elem_of_fmap. intros (r & -> & Hr).
        exists r. split; [done|]. now apply kept_monotone with b.
      + now rewrite !(hybrid_search_unscored _ _ _ _ _ _ _ Hp Hn). }
  split; [exact Hsub|].
  intros i. rewrite !list_elem_of_fmap. intros (x & -> & Hx).
  exists x. split; [done|]. now apply Hsub.
Qed.

End OrchestratorClaims.

(** ** The semantic strategy *)

Section Semantic.
Context `{DatabaseService} `{AIService} `{VectorLib}.
Import SearchService.




(** What makes the [try] block of the semantic strategy raise: the
    embedding generator, the store, or the similarity of one record. *)
Lemma semantic_body_raises query filters limit offset :
  (forall e, generate_embeddings [query] = inl e ->
             semantic_body query filters limit offset = inl e)
  /\ (forall query_embedding more e,
        generate_embeddings [query] = inr (query_embedding :: more) ->
        search_records "" filters 1000 0 = inl e ->
        semantic_body query filters limit offset = inl e)
  /\ (forall query_embedding more window,
        generate_embeddings [query] = inr (query_embedding :: more) ->
        search_records "" filters 1000 0 = inr window ->
        Exists (fun r => exists e,
                    semantic_score query query_embedding r = inl e)
               (SearchData.data window) ->
        exists e, semantic_body query filters limit offset = inl e).
Proof.
  unfold semantic_body. split; [|split].
  - now intros e ->.
  - intros qe more e -> Hs. rewrite !ret_bind. now rewrite Hs.
  - intros qe more window -> -> Hex. rewrite !ret_bind.
    destruct (mapM_inl _ _ Hex) as [e ->]. now exists e.
Qed.

(** The semantic strategy leaves no candidate without a score. *)
Lemma semantic_scored_scored query query_embedding r r' :
  semantic_scored query query_embedding r r' -> scored r'.
Proof. intros (s & -> & _). now exists s. Qed.

End Semantic.

(** ** The hybrid strategy *)

Section Hybrid.
Context `{DatabaseService} `{AIService} `{VectorLib}.
Import SearchService.

(** On scored candidates the hybrid strategy returns the caller's slice
    of the fused pool, ranked by fused score, each record carrying its
    fused score, and counts the whole pool. *)
Lemma hybrid_fusion query filters limit offset keyword_results
      semantic_results :
  _keyword_search query filters (limit * 2) 0 = inr keyword_results ->
  _semantic_search query filters (limit * 2) 0 = inr semantic_results ->
  let kd := SearchData.data keyword_results in
  let sd := SearchData.data semantic_results in
  Forall scored kd -> Forall scored sd ->
  NoDup (ids kd) -> NoDup (ids sd) ->
  _hybrid_search_combined query filters limit offset
  = inr (SearchData.mk
           (map with_fused_score (page offset limit (ranked_pool kd sd)))
           (length (fused_pool kd sd)) offset limit
           (length (page offset limit (ranked_pool kd sd)))).
Proof.
  intros Hkw Hsem kd sd Hk Hs Hnk Hns.
  destruct (combine_fused kd sd Hk Hs Hnk Hns) as (combined & Hc & Hv).
  unfold _hybrid_search_combined, hybrid_body.
  rewrite Hkw, ret_bind, Hsem, ret_bind.
  fold kd sd. rewrite Hc, ret_bind.
  rewrite (rank_fused _ _ _ _ _ Hv). reflexivity.
Qed.

(** The ranking is a rearrangement of the fused pool in descending
    order of fused score. *)
Lemma ranked_pool_sorted kd sd :
  ranked_pool kd sd ≡ₚ fused_pool kd sd
  /\ sorted_desc fused_score (ranked_pool kd sd).
Proof.
  split; [apply sort_desc_perm | apply sort_desc_sorted].
Qed.

(** Each contribution to a fused score is below it when no score is
    negative. *)
Lemma fused_pool_bound kd sd e :
  NoDup (ids kd) -> NoDup (ids sd) ->
  Forall (fun r => (0 <= score_of r)%Q) kd ->
  Forall (fun r => (0 <= score_of r)%Q) sd ->
  e ∈ fused_pool kd sd ->
  (forall k, k ∈ kd -> DataRecord.id k = DataRecord.id (fst e) ->
             (score_of k * boost <= fused_score e)%Q)
  /\ (forall m, m ∈ sd -> DataRecord.id m = DataRecord.id (fst e) ->
                (score_of m <= fused_score e)%Q).
Proof.
  intros Hnk Hns Hpk Hps He.
  rewrite Forall_forall in Hpk, Hps.
  assert (Hboost : forall k, k ∈ kd -> (0 <= score_of k * boost)%Q).
  { intros k Hk. apply Qmult_le_0_compat; [now apply Hpk | discriminate]. }
  unfold fused_pool in He. apply elem_of_app in He as [He|He].
  - apply list_elem_of_fmap in He as (k0 & -> & Hk0). cbn [fst].
    split.
    + intros k Hk Heq.
      rewrite (same_id_same_record kd k k0 Hnk Hk Hk0 Heq).
      destruct (lookup_id (DataRecord.id k0) sd) as [m|] eqn:Hl;
        unfold fused_score; cbn [snd default].
      * apply lookup_id_found in Hl as [Hm _].
        rewrite <- (Qplus_0_r (score_of k0 * boost)) at 1.
        apply Qplus_le_compat; [apply Qle_refl | now apply Hps].
      * apply Qle_refl.
    + intros m Hm Heq.
      destruct (lookup_id (DataRecord.id k0) sd) as [m'|] eqn:Hl;
        unfold fused_score; cbn [snd default].
      * apply lookup_id_found in Hl as [Hm' Hid'].
        assert (m = m') as <-.
        { apply (same_id_same_record sd); try done. congruence. }
        rewrite <- (Qplus_0_l (score_of m)) at 1.
        apply Qplus_le_compat; [now apply Hboost | apply Qle_refl].
      * exfalso. now apply (lookup_id_missing _ _ m Hl Hm).
  - apply list_elem_of_fmap in He as (m0 & -> & Hm0). cbn [fst].
    apply list_elem_of_In, filter_In in Hm0 as [Hm0 Hno].
    apply list_elem_of_In in Hm0.
    split.
    + intros k Hk Heq. exfalso.
      apply negb_true_iff, not_true_iff_false in Hno. apply Hno.
      apply has_id_true. rewrite <- Heq.
      apply list_elem_of_fmap. now exists k.
    + intros m Hm Heq.
      rewrite (same_id_same_record sd m m0 Hns Hm Hm0 Heq).
      unfold fused_score. cbn. apply Qle_refl.
Qed.

Lemma with_fused_score_id e :
  DataRecord.id (with_fused_score e) = DataRecord.id (fst e).
Proof. reflexivity. Qed.

Lemma with_fused_score_score e :
  is_Some (snd e) -> score_of (with_fused_score e) = fused_score e.
Proof. intros [s Hs]. unfold score_key, fused_score. cbn. reflexivity. Qed.

End Hybrid.

Section HybridClaims.
Context `{DatabaseService} `{AIService} `{VectorLib}.
Import SearchService.

(** C7, as amended.  When both strategies return candidates that all
    carry a score, no id occurs twice in a candidate list and no
    candidate score is negative, the hybrid strategy returns records
    whose fused score is at least 1.2 times the keyword score of the
    same id, when the keyword strategy returned it, and at least the
    semantic score of the same id, when the semantic strategy returned
    it. *)
Theorem fusion_lower_bound query filters limit offset keyword_results
        semantic_results :
  _keyword_search query filters (limit * 2) 0 = inr keyword_results ->
  _semantic_search query filters (limit * 2) 0 = inr semantic_results ->
  let kd := SearchData.data keyword_results in
  let sd := SearchData.data semantic_results in
  Forall scored kd -> Forall scored sd ->
  NoDup (ids kd) -> NoDup (ids sd) ->
  Forall (fun r => (0 <= score_of r)%Q) kd ->
  Forall (fun r => (0 <= score_of r)%Q) sd ->
  exists fused,
    _hybrid_search_combined query filters limit offset = inr fused
    /\ forall r, r ∈ SearchData.data fused ->
         (forall k, k ∈ kd -> DataRecord.id k = DataRecord.id r ->
                    (score_of k * boost <= score_of r)%Q)
         /\ (forall m, m ∈ sd -> DataRecord.id m = DataRecord.id r ->
                       (score_of m <= score_of r)%Q).
Proof.
  intros Hkw Hsem kd sd Hk Hs Hnk Hns Hpk Hps.
  eexists. split.
  { apply (hybrid_fusion _ _ _ _ _ _ Hkw Hsem); done. }
  cbn [SearchData.data]. intros r Hr.
  apply list_elem_of_fmap in Hr as (e & -> & He).
  apply page_subset, elem_of_ranked_pool in He.
  rewrite with_fused_score_id, with_fused_score_score.
  - now apply fused_pool_bound.
  - pose proof (fused_pool_scored kd sd) as Hall.
    rewrite Forall_forall in Hall. now apply Hall.
Qed.

End HybridClaims.

(** C7, as stated, fails.  The stored embedding of the record ["N"] has
    cosine similarity -1 with the embedding of the query: the keyword
    strategy scores it 1, boosted to 6/5, the semantic strategy scores it
    -1, and the fused score 1/5 is below the boosted keyword score. *)
Lemma negative_similarity_lowers_fused_score :
  let keyword :=
    @SearchService._keyword_search Fixtures.store_signed "python" None 2 0 in
  let semantic :=
    @SearchService._semantic_search Fixtures.store_signed Fixtures.ai
      Fixtures.vectors "python" None 2 0 in
  let hybrid :=
    @SearchService._hybrid_search_combined Fixtures.store_signed Fixtures.ai
      Fixtures.vectors "python" None 1 0 in
  Fixtures.scores keyword = inr [("N", Some 1%Q)]
  /\ Fixtures.scores semantic = inr [("N", Some (-1)%Q)]
  /\ Fixtures.scores hybrid = inr [("N", Some (1 # 5))]
  /\ ~ (1 * SearchService.boost <= 1 # 5)%Q.
Proof.
  cbn zeta. repeat split; try (vm_compute; reflexivity).
  intros Hle. vm_compute in Hle. now apply Hle.
Qed.

(** The amended C7 at work: the search for "engineer" over the records
    ["A"], ["B"], ["C"]. *)
Lemma fusion_lower_bound_witness :
  exists fused,
    @SearchService._hybrid_search_combined Fixtures.store Fixtures.ai
      Fixtures.vectors "engineer" None 1 0 = inr fused
    /\ forall r, r ∈ SearchData.data fused ->
         (forall k, k ∈ [DataRecord.set_score (Some 1%Q) Fixtures.A;
                         DataRecord.set_score (Some 1%Q) Fixtures.B] ->
                    DataRecord.id k = DataRecord.id r ->
                    (score_of k * SearchService.boost <= score_of r)%Q)
         /\ (forall m, m ∈ [DataRecord.set_score (Some (1 # 2)) Fixtures.A;
                            DataRecord.set_score (Some (1 # 2)) Fixtures.B] ->
                       DataRecord.id m = DataRecord.id r ->
                       (score_of m <= score_of r)%Q).
Proof.
  eapply (@fusion_lower_bound Fixtures.store Fixtures.ai Fixtures.vectors
            "engineer" None 1 0
            (SearchData.mk [DataRecord.set_score (Some 1%Q) Fixtures.A;
                            DataRecord.set_score (Some 1%Q) Fixtures.B]
                           2 0 2 2)
            (SearchData.mk [DataRecord.set_score (Some (1 # 2)) Fixtures.A;
                            DataRecord.set_score (Some (1 # 2)) Fixtures.B]
                           2 0 2 2)).
  - vm_compute. reflexivity.
  - vm_compute. reflexivity.
  - repeat constructor; by eexists.
  - repeat constructor; by eexists.
  - vm_compute. repeat constructor; rewrite ?elem_of_cons, ?elem_of_nil;
      intuition discriminate.
  - vm_compute. repeat constructor; rewrite ?elem_of_cons, ?elem_of_nil;
      intuition discriminate.
  - repeat constructor; vm_compute; discriminate.
  - repeat constructor; vm_compute; discriminate.
Defined.

(** ** Soft delete across the strategies *)

Lemma mapM_inr_inv {A B} (f : A -> result B) (l : list A) (l' : list B) :
  mapM f l = inr l' -> Forall2 (fun x y => f x = inr y) l l'.
Proof.
  revert l'. induction l as [|x l IH]; intros l'; cbn.
  - intros [= <-]. constructor.
  - intros Hm. apply bind_inr in Hm as (y & Hy & Hm).
    apply bind_inr in Hm as (ys & Hys & Hm). injection Hm as <-.
    constructor; [exact Hy | now apply IH].
Qed.

Lemma foldM_invariant {A B} (f : B -> A -> result B) (I : B -> Prop) l :
  (forall acc x acc', I acc -> x ∈ l -> f acc x = inr acc' -> I acc') ->
  forall acc r, I acc -> foldM f acc l = inr r -> I r.
Proof.
  induction l as [|x l IH]; intros Hstep acc r Hacc; cbn.
  - now intros [= <-].
  - intros Hf. apply bind_inr in Hf as (acc' & Hx & Hf).
    eapply IH; [|eapply Hstep; [exact Hacc|apply list_elem_of_here|exact Hx]
               |exact Hf].
    intros a y a' Ha Hy. apply Hstep; [exact Ha|].
    now apply list_elem_of_further.
Qed.

Section SoftDelete.
Context `{DatabaseService} `{AIService} `{VectorLib}.
Import SearchService.

(** A property of records that does not depend on the score. *)
Variable P : DataRecord.t -> Prop.
Hypothesis P_score : forall s r, P r -> P (DataRecord.set_score s r).

(** The filter mappings the property is known for. *)
Variable allowed : Filters -> Prop.
Hypothesis store_P :
  forall query filters limit offset found,
    allowed filters ->
    search_records query filters limit offset = inr found ->
    Forall P (SearchData.data found).

Lemma keyword_P query filters limit offset found :
  allowed filters ->
  _keyword_search query filters limit offset = inr found ->
  Forall P (SearchData.data found).
Proof. apply store_P. Qed.

Lemma semantic_score_P query query_embedding r r' :
  P r -> semantic_score query query_embedding r = inr r' -> P r'.
Proof.
  intros Hr. unfold semantic_score.
  destruct (DataRecord.embedding r) as [[|x emb]|].
  - intros [= <-]. now apply P_score.
  - intros Hs. apply bind_inr in Hs as (s & _ & Hs).
    injection Hs as <-. now apply P_score.
  - intros [= <-]. now apply P_score.
Qed.

Lemma semantic_P query filters limit offset found :
  allowed filters ->
  _semantic_search query filters limit offset = inr found ->
  Forall P (SearchData.data found).
Proof.
  intros Hf. unfold _semantic_search.
  destruct (semantic_body query filters limit offset) as [e|d] eqn:Hb; cbn.
  - now apply keyword_P.
  - intros [= <-]. unfold semantic_body in Hb.
    apply bind_inr in Hb as (embs & _ & Hb).
    apply bind_inr in Hb as (qe & _ & Hb).
    apply bind_inr in Hb as (window & Hw & Hb).
    apply bind_inr in Hb as (scored_records & Hs & Hb).
    injection Hb as <-. cbn [SearchData.data].
    apply Forall_forall. intros r Hr.
    apply page_subset in Hr. rewrite sort_desc_perm in Hr.
    pose proof (store_P _ _ _ _ _ Hf Hw) as Hwin.
    apply mapM_inr_inv in Hs.
    clear -Hs Hwin Hr P_score. induction Hs as [|x y l l' Hxy _ IH].
    + now apply elem_of_nil in Hr.
    + apply Forall_cons in Hwin as [Hx Hwin].
      apply elem_of_cons in Hr as [->|Hr]; [|now apply IH].
      eapply semantic_score_P; [exact Hx | exact Hxy].
Qed.

(** Each entry of [combined_results] holds a record with the property. *)
Local Abbreviation entries_P :=
  (Forall (fun e : string * (DataRecord.t * option Q) => P (fst (snd e)))).

Lemma add_keyword_P combined r combined' :
  entries_P combined -> P r ->
  add_keyword combined r = inr combined' -> entries_P combined'.
Proof.
  unfold add_keyword. intros Hc Hr.
  destruct (DataRecord.score r); [|discriminate]. intros [= <-].
  now apply (dict_set_forall (fun v => P (fst v))).
Qed.

Lemma add_semantic_P combined r combined' :
  entries_P combined -> P r ->
  add_semantic combined r = inr combined' -> entries_P combined'.
Proof.
  unfold add_semantic. intros Hc Hr.
  destruct (Dict.get (DataRecord.id r) combined) as [[kept fused]|] eqn:Hg.
  - destruct fused as [a|]; [|discriminate].
    destruct (DataRecord.score r); [|discriminate]. intros [= <-].
    apply (dict_set_forall (fun v => P (fst v))); [|exact Hc].
    rewrite Forall_forall in Hc.
    apply (Hc _ (dict_get_elem _ _ _ Hg)).
  - intros [= <-]. now apply (dict_set_forall (fun v => P (fst v))).
Qed.

Lemma hybrid_P query filters limit offset found :
  allowed filters ->
  _hybrid_search_combined query filters limit offset = inr found ->
  Forall P (SearchData.data found).
Proof.
  intros Hf. unfold _hybrid_search_combined.
  destruct (hybrid_body query filters limit offset) as [e|d] eqn:Hb; cbn.
  - now apply keyword_P.
  - intros [= <-]. unfold hybrid_body in Hb.
    apply bind_inr in Hb as (kr & Hkr & Hb).
    apply bind_inr in Hb as (sr & Hsr & Hb).
    apply bind_inr in Hb as (combined & Hc & Hb).
    pose proof (keyword_P _ _ _ _ _ Hf Hkr) as Hk.
    pose proof (semantic_P _ _ _ _ _ Hf Hsr) as Hs.
    rewrite Forall_forall in Hk, Hs.
    assert (Hcomb : entries_P combined).
    { unfold combine in Hc. apply bind_inr in Hc as (c1 & Hc1 & Hc2).
      eapply (foldM_invariant add_semantic entries_P); [| |exact Hc2].
      - intros acc x acc' Ha Hx. apply add_semantic_P; auto.
      - eapply (foldM_invariant add_keyword entries_P); [| |exact Hc1].
        + intros acc x acc' Ha Hx. apply add_keyword_P; auto.
        + constructor. }
    unfold rank in Hb. apply bind_inr in Hb as (sorted & Hsort & Hb).
    injection Hb as <-. cbn [SearchData.data].
    apply Forall_forall. intros r Hr.
    apply list_elem_of_fmap in Hr as (e & -> & He).
    apply page_subset in He. apply P_score.
    assert (Hin : e ∈ Dict.values combined).
    { unfold sort_combined in Hsort.
      destruct (forallb _ _).
      - injection Hsort as <-. now rewrite sort_desc_perm in He.
      - destruct (length _ <=? 1)%nat; [|discriminate].
        now injection Hsort as <-. }
    apply list_elem_of_fmap in Hin as ([k v] & -> & Hkv).
    rewrite Forall_forall in Hcomb.
    apply (Hcomb _ Hkv).
Qed.

Hypothesis allowed_fuzzy :
  forall query filters,
    allowed filters -> allowed (Some (fuzzy_filters query filters)).
Hypothesis allowed_exact :
  forall query filters,
    allowed filters -> allowed (Some (exact_filters query filters)).

(** Whatever the search type, the records a retrieval returns have the
    property. *)
Lemma retrieve_P query search_type filters limit offset found :
  allowed filters ->
  retrieve query search_type filters limit offset = inr found ->
  Forall P (SearchData.data found).
Proof.
  intros Hf. destruct search_type; cbn [retrieve].
  - now apply semantic_P.
  - now apply keyword_P.
  - now apply hybrid_P.
  - unfold _fuzzy_search, fuzzy_body.
    destruct (search_records _ (Some (fuzzy_filters query filters)) _ _)
      as [e|d] eqn:Hb; cbn.
    + now apply keyword_P.
    + intros [= <-]. eapply store_P; [|exact Hb]. now apply allowed_fuzzy.
  - unfold _exact_search, exact_body.
    destruct (search_records _ (Some (exact_filters query filters)) _ _)
      as [e|d] eqn:Hb; cbn.
    + now apply keyword_P.
    + intros [= <-]. eapply store_P; [|exact Hb]. now apply allowed_exact.
Qed.
End SoftDelete.

Lemma dict_set_keys_other {V} (k k' : string) (v : V) (d : dict V) :
  k' <> k -> k' ∉ Dict.keys d -> k' ∉ Dict.keys (Dict.set k v d).
Proof.
  intros Hne. induction d as [|[k0 v0] d IH]; cbn.
  - intros _. rewrite list_elem_of_singleton. exact Hne.
  - rewrite not_elem_of_cons. intros [H0 Hd].
    destruct (String.eqb k k0); cbn; rewrite not_elem_of_cons; auto.
Qed.

Lemma filters_copy_keys filters :
  no_status_filter filters -> "status" ∉ Dict.keys (filters_copy filters).
Proof.
  unfold no_status_filter, filters_copy.
  destruct (filters_truthy filters); [done|]. intros _. apply not_elem_of_nil.
Qed.

(** X21.  What holds of the soft-delete exclusion.  Over the
    MongoDB-backed store, a search of any type whose filter mapping has no
    entry for [status] retrieves no deleted record. *)
Lemma retrieval_excludes_deleted `{MongoEngine} `{AIService} `{VectorLib}
      (db : Database.t) query search_type filters limit offset found :
  no_status_filter filters ->
  @SearchService.retrieve (mongo_service db) _ _ query search_type filters
    limit offset = inr found ->
  Forall (fun r => DataRecord.status r <> DELETED) (SearchData.data found).
Proof.
  apply (@retrieve_P (mongo_service db) _ _
           (fun r => DataRecord.status r <> DELETED)
           ltac:(now intros s r)
           no_status_filter).
  - intros q f l o d Hf Hs.
    now apply (search_records_excludes_deleted db q f "created_at" (-1)%Z l o).
  - intros q f Hf. unfold no_status_filter, SearchService.fuzzy_filters.
    cbn [default]. destruct (Helpers.extract_keywords q).
    + now apply filters_copy_keys.
    + apply dict_set_keys_other; [discriminate|now apply filters_copy_keys].
  - intros q f Hf. unfold no_status_filter, SearchService.exact_filters.
    cbn [default].
    apply dict_set_keys_other; [discriminate|now apply filters_copy_keys].
Qed.

(** ** Inputs on which the program departs from its specification *)

(** C1 at a failing input.  A hybrid search for the blank query [" "]
    with [limit = 1] and [offset = 0] over the active records ["A"],
    ["B"], ["D"] and the deleted record ["C"].  The store assigns no text
    score for a blank query, so the keyword candidates carry [None]; the
    boost [None * 1.2] raises inside the [try] block, and the strategy
    returns the keyword page instead of the fused pool: the record
    returned carries no fused score, and [total_count] is the store's
    count 3 where the pool of the two strategies' candidates has two
    records.  The orchestrator, which cannot build a result without a
    score, answers with the empty response.  (On candidates that all
    carry a score the strategy returns the fused pool, ranked and sliced:
    [hybrid_fusion].) *)
Theorem hybrid_blank_query_not_fused :
  let keyword :=
    @SearchService._keyword_search Fixtures.store_four " " None 2 0 in
  let semantic :=
    @SearchService._semantic_search Fixtures.store_four Fixtures.ai
      Fixtures.vectors " " None 2 0 in
  let hybrid :=
    @SearchService._hybrid_search_combined Fixtures.store_four Fixtures.ai
      Fixtures.vectors " " None 1 0 in
  let response :=
    @SearchService.hybrid_search Fixtures.store_four Fixtures.ai
      Fixtures.vectors Fixtures.clock " " HYBRID None 1 0 0 in
  Fixtures.scores keyword = inr [("A", None); ("B", None)]
  /\ Fixtures.scores semantic = inr [("A", Some (0 # 2)); ("B", Some (0 # 2))]
  /\ @SearchService.hybrid_body Fixtures.store_four Fixtures.ai
       Fixtures.vectors " " None 1 0
     = inl (TypeError "unsupported operand type(s) for *: NoneType")
  /\ hybrid = @SearchService._keyword_search Fixtures.store_four " " None 1 0
  /\ Fixtures.scores hybrid = inr [("A", None)]
  /\ Fixtures.total hybrid = inr 3%nat
  /\ SearchResponse.results response = []
  /\ SearchResponse.total_count response = 0%nat.
Proof. cbn zeta. repeat split; vm_compute; reflexivity. Qed.

(** C3 at a failing input.  A keyword search for "python" with the
    filter [{"status": "deleted"}] over the same records.  The filter
    loop assigns [match_conditions["status"]], which replaces the
    condition [{"$ne": "deleted"}] the query started from, and the
    deleted record ["C"] is returned. *)
Theorem deleted_record_returned :
  let filters := Some [("status", JStr "deleted")] in
  let response :=
    @SearchService.hybrid_search Fixtures.store Fixtures.ai Fixtures.vectors
      Fixtures.clock "python" KEYWORD filters 10 0 0 in
  (mc ← Database.match_conditions "python" filters; ret (mc !! "status"))
  = inr (Some (JStr "deleted"))
  /\ map SearchResult.id (SearchResponse.results response) = ["C"]
  /\ DataRecord.status Fixtures.C = DELETED
  /\ Fixtures.scores
       (@SearchService._keyword_search Fixtures.store "python" None 10 0)
     = inr [("A", Some 1%Q)].
Proof. cbn zeta. repeat split; vm_compute; reflexivity. Qed.

(** ** Highlights *)

Section Highlights.
Import SearchService.










End Highlights.



(** ** The query interpreter *)

Section InterpreterFacts.
Context `{Oracle} `{JsonLib}.
Import AIServiceRailway.

Lemma rfind_go_lower sub s :
  forall i best, (-1 <= best)%Z -> (-1 <= Str.rfind_go sub s i best)%Z.
Proof.
  induction s as [|c s IH]; intros i best Hb; cbn [Str.rfind_go].
  - destruct (String.prefix sub ""); lia.
  - apply IH. destruct (String.prefix sub (String c s)); lia.
Qed.

(** [rfind(...) + 1] is never [-1]: the second test of the guard in the
    fenced branch always passes. *)
Lemma json_end_not_minus_one content :
  ((Str.rfind "}" content + 1 =? -1) = false)%Z.
Proof.
  pose proof (rfind_go_lower "}" content 0 (-1)%Z ltac:(lia)).
  unfold Str.rfind. lia.
Qed.

(** C9, as amended.  The interpreter never raises.  When the [try]
    block raises, whatever the stage (the call to the model included),
    the result has as keywords the query split on white space, the
    confidence 1/2 and the text of the exception as [error].  The
    [try] block parses the stripped reply directly; when that raises a
    decode error and the reply contains the fence [```json], it
    parses the text from the first brace at or after the fence to the
    last closing brace, and raises when there is no such opening brace;
    when the reply has no fence but holds both braces, it parses the
    text from the first opening brace to the last closing brace; with
    neither, it raises.  No further attempt follows a failed one. *)
Theorem interpreter_stages query :
  let answer := process_search_query query in
  (forall e, process_body query = inl e ->
     answer = degraded query e
     /\ Dict.get "keywords" answer = Some (JArr (map JStr (Str.split query)))
     /\ Dict.get "confidence" answer = Some (JNum (1 # 2))
     /\ Dict.get "error" answer = Some (JStr (str_of_exception e)))
  /\ (forall d, process_body query = inr d -> answer = d)
  /\ (forall e, complete_search query = inl e -> process_body query = inl e)
  /\ (forall raw, complete_search query = inr raw ->
        let content := Str.strip raw in
        (content = "" ->
         process_body query = inl (ValueError "Empty AI response"))
        /\ (content <> "" ->
            (forall parsed, json_loads content = inr parsed ->
               process_body query = annotate query parsed)
            /\ (forall msg, json_loads content = inl (JSONDecodeError msg) ->
                  let fenced := Str.contains fence content in
                  let braces :=
                    Str.contains "{" content && Str.contains "}" content in
                  let json_end := Z.to_nat (Str.rfind "}" content + 1) in
                  let after_fence :=
                    Str.find_from "{" content
                                  (Z.to_nat (Str.find fence content)) in
                  (fenced = true -> after_fence <> (-1)%Z ->
                   process_body query
                   = json_loads (Str.slice content (Z.to_nat after_fence)
                                           json_end)
                       ≫= annotate query)
                  /\ (fenced = true -> after_fence = (-1)%Z ->
                      process_body query
                      = inl (ValueError "No valid JSON found in markdown"))
                  /\ (fenced = false -> braces = true ->
                      process_body query
                      = json_loads
                          (Str.slice content
                             (Z.to_nat (Str.find "{" content)) json_end)
                          ≫= annotate query)
                  /\ (fenced = false -> braces = false ->
                      process_body query
                      = inl (ValueError "No valid JSON found"))))).
Proof.
  cbn zeta. split; [|split; [|split]].
  - intros e He. unfold process_search_query. rewrite He.
    repeat split; reflexivity.
  - intros d Hd. unfold process_search_query. now rewrite Hd.
  - intros e He. unfold process_body. now rewrite He.
  - intros raw Hraw. unfold process_body. rewrite Hraw, ret_bind.
    split.
    + intros ->. reflexivity.
    + intros Hne.
      destruct (String.eqb_spec (Str.strip raw) "") as [?|_]; [done|].
      split.
      * intros parsed Hp. unfold parse_reply. now rewrite Hp.
      * intros msg Hp. unfold parse_reply, recover_json. rewrite Hp.
        rewrite json_end_not_minus_one, andb_true_r.
        split; [|split; [|split]].
        -- intros -> Ha. apply Z.eqb_neq in Ha. now rewrite Ha.
        -- intros -> Ha. now rewrite Ha.
        -- intros -> Hb. now rewrite Hb.
        -- intros -> Hb. now rewrite Hb.
Qed.

End InterpreterFacts.

(** C9, as stated, fails.  The reply is an empty object followed by an
    opening fence.  The direct parse fails; the text from the first
    opening brace to the last closing brace is the valid JSON text [{}];
    but the reply contains the fence, so the interpreter looks for a
    brace after it, finds none, and returns the degraded result without
    parsing that text. *)
Lemma fence_preempts_brace_parse :
  let content := "{} ```json" in
  let answer :=
    @AIServiceRailway.process_search_query Fixtures.oracle_fence MiniJson.lib
      "red shoes" in
  @complete_search Fixtures.oracle_fence "red shoes" = inr content
  /\ MiniJson.loads content = inl (JSONDecodeError "Extra data")
  /\ Str.slice content (Z.to_nat (Str.find "{" content))
               (Z.to_nat (Str.rfind "}" content + 1)) = "{}"
  /\ MiniJson.loads "{}" = inr (JObj [])
  /\ Dict.get "error" answer = Some (JStr "No valid JSON found in markdown")
  /\ Dict.get "confidence" answer = Some (JNum (1 # 2)).
Proof. cbn zeta. repeat split; vm_compute; reflexivity. Qed.

(** The amended C9 at work: a model that cannot be reached, and a model
    that answers with a fenced object. *)
Lemma interpreter_stages_witness :
  Dict.get "keywords"
    (@AIServiceRailway.process_search_query Fixtures.oracle_down MiniJson.lib
       "red  shoes ")
  = Some (JArr [JStr "red"; JStr "shoes"])
  /\ @AIServiceRailway.process_body Fixtures.oracle_fenced MiniJson.lib
       "red shoes"
     = inr [("keywords", JArr [JStr "red"; JStr "shoes"]);
            ("original_query", JStr "red shoes");
            ("processed_at", JStr "2024-01-01T00:00:00")].
Proof.
  split.
  - destruct (@interpreter_stages Fixtures.oracle_down MiniJson.lib
                "red  shoes ") as (Hdegraded & _).
    apply (Hdegraded (ConnectionFailure "request timed out")).
    vm_compute. reflexivity.
  - destruct (@interpreter_stages Fixtures.oracle_fenced MiniJson.lib
                "red shoes") as (_ & _ & _ & Hreply).
    destruct (Hreply Fixtures.fenced_reply eq_refl) as (_ & Hparse).
    destruct (Hparse ltac:(vm_compute; discriminate)) as (_ & Hrecover).
    destruct (Hrecover "Expecting value" ltac:(vm_compute; reflexivity))
      as (Hfenced & _).
    rewrite Hfenced; [|vm_compute; reflexivity|vm_compute; discriminate].
    vm_compute. reflexivity.
Defined.

(** ** The statements at work on the small collection *)

(** C2 at work: with the collection unreachable every store call
    raises, each strategy ends as the keyword strategy does, and the
    orchestrator answers with the empty response; and when only the
    embedding generator fails, the semantic strategy returns the keyword
    strategy's candidates. *)
Lemma failure_containment_witness :
  @SearchService._semantic_search Fixtures.store_down Fixtures.ai
    Fixtures.vectors "python" None 10 0
  = @SearchService._keyword_search Fixtures.store_down "python" None 10 0
  /\ Fixtures.scores
       (@SearchService._semantic_search Fixtures.store
          Fixtures.ai_no_embeddings Fixtures.vectors "python" None 10 0)
     = inr [("A", Some 1%Q)]
  /\ @SearchService._fuzzy_search Fixtures.store_down "python" None 10 0
     = @SearchService._keyword_search Fixtures.store_down "python" None 10 0
  /\ @SearchService._exact_search Fixtures.store_down "python" None 10 0
     = @SearchService._keyword_search Fixtures.store_down "python" None 10 0
  /\ SearchResponse.results
       (@SearchService.hybrid_search Fixtures.store_down Fixtures.ai
          Fixtures.vectors Fixtures.clock "python" KEYWORD None 10 0 0) = [].
Proof.
  destruct (@failure_containment Fixtures.store_down Fixtures.ai
              Fixtures.vectors Fixtures.clock "python" None 10 0 KEYWORD 0)
    as (Hsemantic & Hfuzzy & Hexact & Hall).
  split; [|split; [|split; [|split]]].
  - eapply Hsemantic. vm_compute. reflexivity.
  - destruct (@failure_containment Fixtures.store Fixtures.ai_no_embeddings
                Fixtures.vectors Fixtures.clock "python" None 10 0 KEYWORD 0)
      as (Hfallback & _).
    rewrite (Hfallback (ValueError "empty vocabulary"));
      vm_compute; reflexivity.
  - eapply Hfuzzy. vm_compute. reflexivity.
  - eapply Hexact. vm_compute. reflexivity.
  - eapply Hall. vm_compute. reflexivity.
Defined.

(** C4 at work: the hybrid search for "engineer" with the floor 3/2. *)
Lemma min_score_filter_witness :
  let unfiltered :=
    @SearchService.hybrid_search Fixtures.store Fixtures.ai Fixtures.vectors
      Fixtures.clock "engineer" HYBRID None 10 0 0 in
  let response :=
    @SearchService.hybrid_search Fixtures.store Fixtures.ai Fixtures.vectors
      Fixtures.clock "engineer" HYBRID None 10 0 (3 # 2) in
  SearchResponse.results response
  = List.filter (fun x => Qle_bool (3 # 2) (SearchResult.score x))
                (SearchResponse.results unfiltered)
  /\ SearchResponse.returned_count response
     = length (SearchResponse.results response)
  /\ SearchResponse.total_count response
     = SearchResponse.total_count unfiltered.
Proof.
  destruct (@min_score_filter Fixtures.store Fixtures.ai Fixtures.vectors
              Fixtures.clock "engineer" HYBRID None 10 0 (3 # 2)
              ltac:(reflexivity))
    as (Hresults & _ & Hreturned & Htotal & _).
  cbn zeta. auto.
Defined.

(** C8 at work: raising the floor from 1/2 to 2. *)
Lemma min_score_monotone_witness :
  map SearchResult.id
      (SearchResponse.results
         (@SearchService.hybrid_search Fixtures.store Fixtures.ai
            Fixtures.vectors Fixtures.clock "engineer" HYBRID None 10 0 2))
  ⊆ map SearchResult.id
        (SearchResponse.results
           (@SearchService.hybrid_search Fixtures.store Fixtures.ai
              Fixtures.vectors Fixtures.clock "engineer" HYBRID None 10 0
              (1 # 2))).
Proof.
  apply (@min_score_monotone Fixtures.store Fixtures.ai Fixtures.vectors
           Fixtures.clock "engineer" HYBRID None 10 0 (1 # 2) 2).
  reflexivity.
Defined.


(** ** The scenarios of the specification

    The store contains ["A"] (title "Python Engineer", tag "python"),
    ["B"] (title "Java Engineer", tag "java") and ["C"] (deleted, title
    "Python Architect"). *)

(** A keyword search for "python" returns ["A"] alone, counts one
    match, and counts the tag "python" once. *)
Example scenario_keyword :
  let response :=
    @SearchService.hybrid_search Fixtures.store Fixtures.ai Fixtures.vectors
      Fixtures.clock "python" KEYWORD None 10 0 0 in
  map SearchResult.id (SearchResponse.results response) = ["A"]
  /\ SearchResponse.total_count response = 1%nat
  /\ (SearchResponse.facets response !! "tags"
      ≫= fun tags => Some (map_to_list tags)) = Some [("python", 1%nat)].
Proof. cbn zeta. repeat split; vm_compute; reflexivity. Qed.

(** A hybrid search for "engineer" with [limit = 1] returns one result
    out of a pool of two, and the next page returns the other. *)
Example scenario_hybrid_pages :
  let first :=
    @SearchService.hybrid_search Fixtures.store Fixtures.ai Fixtures.vectors
      Fixtures.clock "engineer" HYBRID None 1 0 0 in
  let second :=
    @SearchService.hybrid_search Fixtures.store Fixtures.ai Fixtures.vectors
      Fixtures.clock "engineer" HYBRID None 1 1 0 in
  map SearchResult.id (SearchResponse.results first) = ["A"]
  /\ SearchResponse.returned_count first = 1%nat
  /\ SearchResponse.total_count first = 2%nat
  /\ map SearchResult.id (SearchResponse.results second) = ["B"]
  /\ map SearchResult.score (SearchResponse.results first) = [(17 # 10)%Q].
Proof. cbn zeta. repeat split; vm_compute; reflexivity. Qed.

(** A record without an embedding is scored by text similarity in
    semantic mode. *)
Example scenario_no_embedding :
  Fixtures.scores
    (@SearchService._semantic_search Fixtures.store Fixtures.ai
       Fixtures.vectors "python engineer" None 10 0)
  = inr [("A", Some (2 # 2)); ("B", Some (1 # 3))].
Proof. vm_compute. reflexivity. Qed.

(** * Properties of [app/utils/helpers.py] *)

Section HelpersProps.
Import HelpersMore.

(** ** Slices and pages *)

Lemma clamp_of_nat (n i : nat) : Py.clamp n (Z.of_nat i) = min i n.
Proof.
  unfold Py.clamp.
  destruct (Z.ltb_spec (Z.of_nat i) 0) as [Hlt|Hge]; [lia|].
  lia.
Qed.

Lemma slice_of_nat {A} (l : list A) (a n : nat) :
  Py.slice l (Z.of_nat a) (Z.of_nat a + Z.of_nat n) = take n (drop a l).
Proof.
  unfold Py.slice.
  replace (Z.of_nat a + Z.of_nat n)%Z with (Z.of_nat (a + n)) by lia.
  rewrite !clamp_of_nat.
  destruct (decide (a <= length l)) as [Hle|Hgt].
  - rewrite (Nat.min_l a) by exact Hle.
    destruct (decide (a + n <= length l)) as [Hle'|Hgt'].
    + rewrite Nat.min_l by exact Hle'. f_equal. lia.
    + rewrite Nat.min_r by lia.
      rewrite !take_ge; [reflexivity| |]; rewrite length_drop; lia.
  - rewrite !drop_ge by lia. now rewrite !take_nil.
Qed.

Lemma paginate_data {A} (data : list A) (offset limit : nat) :
  Page.data (paginate_results data (Z.of_nat offset) (Z.of_nat limit))
  = take limit (drop offset data).
Proof. cbn. apply slice_of_nat. Qed.

(** ** Character classes *)

Lemma keep_chars_all p s : Str.all_chars p (keep_chars p s) = true.
Proof.
  unfold Str.all_chars. induction s as [|c s IH]; cbn; [reflexivity|].
  destruct (p c) eqn:Hp; cbn; [now rewrite Hp|exact IH].
Qed.

Lemma keep_chars_id p s : Str.all_chars p s = true -> keep_chars p s = s.
Proof.
  unfold Str.all_chars. induction s as [|c s IH]; cbn; [reflexivity|].
  intros [Hc Hs]%andb_true_iff. rewrite Hc. now rewrite IH.
Qed.

Lemma keep_chars_length p s :
  String.length (keep_chars p s) <= String.length s.
Proof.
  induction s as [|c s IH]; cbn; [lia|]. destruct (p c); cbn; lia.
Qed.

Lemma keep_chars_elem p s c :
  c ∈ list_ascii_of_string (keep_chars p s) ->
  c ∈ list_ascii_of_string s.
Proof.
  induction s as [|c' s IH]; cbn; [done|].
  destruct (p c'); cbn; rewrite ?elem_of_cons; intros H; [|tauto].
  destruct H; tauto.
Qed.

(** ** [paginate_results] *)

Lemma pages_upto_take {A} (data : list A) (limit n : nat) :
  concat (pages_upto data limit n) = take (n * limit) data.
Proof.
  unfold pages_upto. induction n as [|n IH].
  - reflexivity.
  - rewrite seq_S, map_app, concat_app, IH. cbn [map concat].
    rewrite paginate_data, app_nil_r. cbn [Nat.add].
    replace (S n * limit) with (n * limit + limit) by lia.
    rewrite <- (take_drop (n * limit) (take (n * limit + limit) data)).
    f_equal.
    + rewrite take_take. f_equal. lia.
    + rewrite <- take_drop_commute. reflexivity.
Qed.

(** X1.  [paginate_results] with a non-negative offset and limit: the
    page is the [limit] items that follow the first [offset] ones (fewer
    at the end of the data, none beyond it), [total_count] is the size of
    the whole data whatever the page, the page together with what
    follows it is the data from [offset] on, and [has_more] tells exactly
    whether an item follows the page. *)
Theorem paginate_results_page {A} (data : list A) (offset limit : nat) :
  let p := paginate_results data (Z.of_nat offset) (Z.of_nat limit) in
  length (Page.data p) = min limit (length data - offset)
  /\ Page.total_count p = length data
  /\ Page.data p ++ drop (offset + limit) data = drop offset data
  /\ (Page.has_more p = true <-> drop (offset + limit) data <> []).
Proof.
  intros p. subst p. rewrite paginate_data. repeat split.
  - rewrite length_take, length_drop. reflexivity.
  - rewrite <- drop_drop. apply take_drop.
  - cbn. intros Hlt%Z.ltb_lt Hnil.
    apply (f_equal length) in Hnil. rewrite length_drop in Hnil.
    cbn in Hnil. lia.
  - cbn. intros Hne. apply Z.ltb_lt.
    destruct (decide (offset + limit < length data)) as [|Hge]; [lia|].
    exfalso. apply Hne. apply drop_ge. lia.
Qed.

(** X2.  Walking the pages of size [limit] from offset 0 until a page
    reports [has_more = False] reads every item once, in order. *)
Theorem paginate_results_walk {A} (data : list A) (limit n : nat) :
  Page.has_more (paginate_results data (Z.of_nat (n * limit))
                                  (Z.of_nat limit)) = false ->
  concat (pages_upto data limit (S n)) = data.
Proof.
  cbn [Page.has_more paginate_results]. intros Hmore%Z.ltb_ge.
  rewrite pages_upto_take. apply take_ge. lia.
Qed.

Lemma paginate_results_walk_witness :
  concat (pages_upto [1; 2; 3; 4; 5] 2 3) = [1; 2; 3; 4; 5].
Proof. apply (paginate_results_walk [1; 2; 3; 4; 5] 2 2). reflexivity. Defined.

(** ** [validate_search_filters] *)

Lemma dict_set_Forall {V} (P : string * V -> Prop) k v (d : dict V) :
  P (k, v) -> Forall P d -> Forall P (Dict.set k v d).
Proof.
  intros Hv. induction 1 as [|[k' v'] d Hh Ht IH]; cbn.
  - repeat constructor. exact Hv.
  - destruct (String.eqb k k'); constructor; done.
Qed.

Lemma dict_set_keys_cases {V} k (v : V) d :
  Dict.keys (Dict.set k v d)
  = if Dict.mem k d then Dict.keys d else Dict.keys d ++ [k].
Proof.
  destruct (Dict.mem k d) eqn:Hm.
  - apply dict_set_keys. now apply dict_mem_true.
  - rewrite dict_set_fresh.
    + unfold Dict.keys. now rewrite map_app.
    + unfold Dict.mem in Hm. now destruct (Dict.get k d).
Qed.

Lemma dict_set_NoDup {V} k (v : V) d :
  NoDup (Dict.keys d) -> NoDup (Dict.keys (Dict.set k v d)).
Proof.
  intros Hnd. rewrite dict_set_keys_cases.
  destruct (Dict.mem k d) eqn:Hm; [exact Hnd|].
  apply NoDup_app. split; [exact Hnd|]. split.
  - intros x Hx ->%list_elem_of_singleton.
    apply dict_mem_true in Hx. congruence.
  - apply NoDup_singleton.
Qed.

Lemma validate_fold filters done acc :
  (forall e, e ∈ filters -> e ∈ done) ->
  NoDup (Dict.keys acc) -> Forall (accepted done) acc ->
  NoDup (Dict.keys (fold_left validate_step filters acc))
  /\ Forall (accepted done) (fold_left validate_step filters acc).
Proof.
  revert acc. induction filters as [|[key value] filters IH];
    intros acc Hsub Hnd Hacc; cbn [fold_left]; [done|].
  apply IH.
  - intros e He. apply Hsub. now apply list_elem_of_further.
  - unfold validate_step. destruct (is_blank value); [exact Hnd|].
    destruct (String.eqb _ ""); [exact Hnd|]. now apply dict_set_NoDup.
  - unfold validate_step. destruct (is_blank value) eqn:Hb; [exact Hacc|].
    destruct (String.eqb_spec (keep_chars is_key_char key) "") as [|Hne];
      [exact Hacc|].
    apply dict_set_Forall; [|exact Hacc].
    repeat split; cbn [fst snd]; try done.
    + apply keep_chars_all.
    + exists key. split; [|reflexivity]. apply Hsub, list_elem_of_here.
Qed.

(** X3.  What [validate_search_filters] returns: the keys are pairwise
    distinct; every key is non-empty and made of word characters and
    dots only (so no key starts with the [$] of a Mongo operator); no
    value is [None] or the empty string; and every entry is an entry of
    the input under the key stripped of its other characters. *)
Theorem validate_search_filters_clean (filters : dict Json) :
  NoDup (Dict.keys (validate_search_filters filters))
  /\ forall key value,
       (key, value) ∈ validate_search_filters filters ->
       key <> ""
       /\ Str.all_chars is_key_char key = true
       /\ Str.contains "$" key = false
       /\ is_blank value = false
       /\ exists key0, (key0, value) ∈ filters
                       /\ keep_chars is_key_char key0 = key.
Proof.
  destruct (validate_fold filters filters []) as [Hnd Hall];
    [done|constructor|constructor|].
  split; [exact Hnd|]. intros key value Hin.
  rewrite Forall_forall in Hall. destruct (Hall _ Hin) as (H1 & H2 & H3 & H4).
  cbn [fst snd] in *. repeat split; try done.
  clear -H2. induction key as [|c key IH]; [reflexivity|].
  unfold Str.all_chars in *. cbn in H2. apply andb_true_iff in H2 as [Hc Hk].
  cbn [Str.contains]. rewrite (IH Hk), orb_false_r.
  cbn [String.prefix]. destruct (ascii_dec "$" c) as [<-|]; [|done].
  discriminate Hc.
Qed.

Lemma validate_fixed d acc :
  NoDup (Dict.keys acc ++ Dict.keys d) ->
  Forall (fun e => fst e <> "" /\ Str.all_chars is_key_char (fst e) = true
                   /\ is_blank (snd e) = false) d ->
  fold_left validate_step d acc = acc ++ d.
Proof.
  revert acc. induction d as [|[key value] d IH]; intros acc Hnd Hall;
    cbn [fold_left]; [now rewrite app_nil_r|].
  apply Forall_cons in Hall as [(Hne & Hk & Hb) Hall]. cbn [fst snd] in *.
  unfold validate_step. rewrite Hb, (keep_chars_id _ _ Hk).
  destruct (String.eqb_spec key "") as [|_]; [done|].
  cbn [Dict.keys map fst] in Hnd.
  rewrite dict_set_fresh.
  - rewrite IH; [now rewrite <- app_assoc| |exact Hall].
    unfold Dict.keys. rewrite map_app, <- app_assoc. exact Hnd.
  - apply dict_get_None. apply NoDup_app in Hnd as (_ & Hdisj & _).
    intros Hin. apply (Hdisj _ Hin), list_elem_of_here.
Qed.

(** X4.  [validate_search_filters] is idempotent: validated filters pass
    a second validation unchanged, in the same order. *)
Theorem validate_search_filters_idempotent (filters : dict Json) :
  validate_search_filters (validate_search_filters filters)
  = validate_search_filters filters.
Proof.
  destruct (validate_fold filters filters []) as [Hnd Hall];
    [done|constructor|constructor|].
  unfold validate_search_filters at 1.
  rewrite validate_fixed; [reflexivity|exact Hnd|].
  eapply Forall_impl; [exact Hall|]. intros e (H1 & H2 & H3 & _). done.
Qed.

(** ** [clean_text] *)

Lemma string_length_list s :
  String.length s = length (list_ascii_of_string s).
Proof. induction s; cbn; congruence. Qed.

Lemma rev_string_length s : String.length (Str.rev_string s) = String.length s.
Proof.
  unfold Str.rev_string.
  rewrite !string_length_list, list_ascii_of_string_of_list_ascii.
  apply length_rev.
Qed.

Lemma lstrip_length s : String.length (Str.lstrip s) <= String.length s.
Proof.
  induction s as [|c s IH]; cbn; [lia|].
  destruct (Str.is_space c); cbn; lia.
Qed.

Lemma strip_length s : String.length (Str.strip s) <= String.length s.
Proof.
  unfold Str.strip. rewrite rev_string_length.
  etransitivity; [apply lstrip_length|]. rewrite rev_string_length.
  apply lstrip_length.
Qed.

Lemma collapse_spaces_length b s :
  String.length (collapse_spaces b s) <= String.length s.
Proof.
  revert b. induction s as [|c s IH]; intros b; cbn; [lia|].
  destruct (Str.is_space c); [destruct b|]; cbn.
  - specialize (IH true). lia.
  - specialize (IH true). lia.
  - specialize (IH false). lia.
Qed.

Lemma collapse_spaces_blank b s c :
  c ∈ list_ascii_of_string (collapse_spaces b s) ->
  Str.is_space c = true -> c = " "%char.
Proof.
  revert b. induction s as [|c' s IH]; intros b; cbn.
  { intros H. now apply elem_of_nil in H. }
  destruct (Str.is_space c') eqn:Hc'; [destruct b|]; cbn.
  - apply IH.
  - rewrite elem_of_cons. intros [->|Hin] Hs; [reflexivity|].
    now apply (IH true).
  - rewrite elem_of_cons. intros [->|Hin] Hs; [congruence|].
    now apply (IH false).
Qed.

(** X5.  [clean_text] returns a text made only of word characters, white
    space and the marks [. , ! ? -]; its only white space is the space
    character (tabs and line breaks are gone); and it is never longer
    than the input. *)
Theorem clean_text_chars (text : string) :
  Str.all_chars is_text_char (clean_text text) = true
  /\ (forall c, c ∈ list_ascii_of_string (clean_text text) ->
                Str.is_space c = true -> c = " "%char)
  /\ String.length (clean_text text) <= String.length text.
Proof.
  unfold clean_text. destruct (String.eqb text "").
  - repeat split; [|cbn; lia]. intros c Hc. now apply elem_of_nil in Hc.
  - repeat split.
    + apply keep_chars_all.
    + intros c Hc Hs. apply keep_chars_elem in Hc.
      exact (collapse_spaces_blank _ _ _ Hc Hs).
    + etransitivity; [apply keep_chars_length|].
      etransitivity; [apply collapse_spaces_length|]. apply strip_length.
Qed.

(** ** [extract_keywords] *)

Lemma append_cons c s t : String c s +:+ t = String c (s +:+ t).
Proof. reflexivity. Qed.

Lemma append_nil t : "" +:+ t = t.
Proof. reflexivity. Qed.

Lemma prefix_app w s : String.prefix w (w +:+ s) = true.
Proof.
  induction w as [|c w IH]; [now destruct s|].
  rewrite append_cons. cbn [String.prefix].
  destruct (ascii_dec c c); [exact IH|done].
Qed.

Lemma contains_prefix w s : String.prefix w s = true -> Str.contains w s = true.
Proof. intros H. destruct s; cbn [Str.contains]; now rewrite H. Qed.

Lemma contains_cons w c s :
  Str.contains w s = true -> Str.contains w (String c s) = true.
Proof. intros H. cbn [Str.contains]. rewrite H. apply orb_true_r. Qed.

Lemma contains_app_r w t s :
  Str.contains w s = true -> Str.contains w (t +:+ s) = true.
Proof.
  intros H. induction t as [|c t IH]; [exact H|].
  rewrite append_cons. now apply contains_cons.
Qed.

Lemma string_of_list_snoc l c s :
  string_of_list_ascii (l ++ [c]) +:+ s
  = string_of_list_ascii l +:+ String c s.
Proof.
  induction l as [|a l IH]; [reflexivity|].
  cbn [app string_of_list_ascii]. now rewrite !append_cons, IH.
Qed.

Lemma runs_go_contains p cur s w :
  w ∈ Str.runs_go p cur s ->
  Str.contains w (string_of_list_ascii (rev cur) +:+ s) = true.
Proof.
  revert cur. induction s as [|c s IH]; intros cur; cbn [Str.runs_go].
  - destruct cur as [|a cur].
    + intros H. now apply elem_of_nil in H.
    + intros ->%list_elem_of_singleton.
      apply contains_prefix, prefix_app.
  - destruct (p c).
    + intros H%IH. cbn [rev] in H. now rewrite string_of_list_snoc in H.
    + destruct cur as [|a cur].
      * intros H%IH. cbn [rev string_of_list_ascii] in *.
        rewrite append_nil in *. now apply contains_cons.
      * rewrite elem_of_cons. intros [->|H%IH].
        -- apply contains_prefix, prefix_app.
        -- apply contains_app_r, contains_cons. exact H.
Qed.

Lemma runs_contains p s w : w ∈ Str.runs p s -> Str.contains w s = true.
Proof. intros H%runs_go_contains. exact H. Qed.

Lemma prefix_chars w s c :
  String.prefix w s = true ->
  c ∈ list_ascii_of_string w -> c ∈ list_ascii_of_string s.
Proof.
  revert s. induction w as [|a w IH]; intros s.
  - intros _ H. now apply elem_of_nil in H.
  - destruct s as [|b s]; cbn; [discriminate|].
    destruct (ascii_dec a b) as [->|]; [|discriminate].
    rewrite !elem_of_cons. intros Hp [->|Hin]; [now left|].
    right. now apply IH.
Qed.

Lemma contains_chars w s c :
  Str.contains w s = true ->
  c ∈ list_ascii_of_string w -> c ∈ list_ascii_of_string s.
Proof.
  induction s as [|b s IH]; cbn [Str.contains].
  - rewrite orb_false_r. apply prefix_chars.
  - intros [Hp|Hc]%orb_true_iff Hin; [now apply (prefix_chars w)|].
    cbn. apply list_elem_of_further. now apply IH.
Qed.

Lemma lower_chars s c :
  c ∈ list_ascii_of_string (Str.lower s) -> exists c', c = Str.lower_char c'.
Proof.
  induction s as [|a s IH]; cbn.
  - intros H. now apply elem_of_nil in H.
  - rewrite elem_of_cons. intros [->|H]; [now exists a|now apply IH].
Qed.

Lemma lower_char_alpha c :
  Str.is_alpha (Str.lower_char c) = true ->
  Str.is_lower (Str.lower_char c) = true.
Proof.
  destruct c as [[] [] [] [] [] [] [] []]; vm_compute; intros H;
    first [reflexivity | discriminate H].
Qed.

Lemma in_list_elem x l : Helpers.in_list x l = true <-> x ∈ l.
Proof.
  unfold Helpers.in_list. rewrite existsb_exists. split.
  - intros (y & Hy & ->%String.eqb_eq). now apply list_elem_of_In.
  - intros H. exists x. split; [now apply list_elem_of_In|apply String.eqb_refl].
Qed.

Lemma unique_go_spec seen l :
  NoDup (Helpers.unique_go seen l)
  /\ forall x, x ∈ Helpers.unique_go seen l -> x ∈ l /\ x ∉ seen.
Proof.
  revert seen. induction l as [|y l IH]; intros seen; cbn.
  - split; [constructor|]. intros x H. now apply elem_of_nil in H.
  - destruct (Helpers.in_list y seen) eqn:Hy.
    + destruct (IH seen) as [Hnd Hin]. split; [exact Hnd|].
      intros x Hx. destruct (Hin x Hx). split; [now apply list_elem_of_further|done].
    + destruct (IH (y :: seen)) as [Hnd Hin]. split.
      * constructor; [|exact Hnd]. intros Hx. destruct (Hin y Hx) as [_ Hn].
        apply Hn, list_elem_of_here.
      * intros x. rewrite elem_of_cons. intros [->|Hx].
        -- split; [apply list_elem_of_here|].
           intros H%in_list_elem. congruence.
        -- destruct (Hin x Hx) as [H1 H2]. split; [now apply list_elem_of_further|].
           intros H. apply H2. now apply list_elem_of_further.
Qed.

(** X6.  [extract_keywords] returns at most [max_keywords] keywords,
    without repetition; each has three letters or more, all lower-case,
    is no stop word, and occurs in the lower-cased text. *)
Theorem extract_keywords_sound (text : string) (max_keywords : nat) :
  let keywords := Helpers.extract_keywords_max text max_keywords in
  length keywords <= max_keywords
  /\ NoDup keywords
  /\ forall w, w ∈ keywords ->
       3 <= String.length w
       /\ Str.all_chars Str.is_lower w = true
       /\ (w ∉ Helpers.stop_words)
       /\ Str.contains w (Str.lower text) = true.
Proof.
  intros keywords. subst keywords. unfold Helpers.extract_keywords_max.
  split; [rewrite length_take; lia|].
  destruct (unique_go_spec []
              (filter (fun w => negb (Helpers.in_list w Helpers.stop_words))
                      (Helpers.findall_words (Str.lower text))))
    as [Hnd Hin].
  split; [exact (sublist_NoDup _ _ Hnd (sublist_take _ _))|].
  intros w Hw%subseteq_take. apply Hin in Hw as [Hw _].
  apply list_elem_of_filter in Hw as [Hstop Hw].
  unfold Helpers.findall_words in Hw.
  apply list_elem_of_filter in Hw as [[Halpha%Is_true_true Hlen%Is_true_true]%andb_True Hrun].
  apply runs_contains in Hrun.
  repeat split.
  - now apply Nat.leb_le.
  - unfold Str.all_chars in *. apply forallb_forall. intros c Hc.
    rewrite forallb_forall in Halpha. specialize (Halpha c Hc).
    apply list_elem_of_In in Hc.
    destruct (lower_chars _ _ (contains_chars _ _ _ Hrun Hc)) as [c' ->].
    now apply lower_char_alpha.
  - intros Hs%in_list_elem. apply negb_True in Hstop. rewrite Hs in Hstop.
    now apply Hstop.
  - exact Hrun.
Qed.

(** ** [calculate_similarity_score] *)

Lemma pos_of_nat_Z b : 0 < b -> Z.pos (Pos.of_nat b) = Z.of_nat b.
Proof.
  intros Hb. rewrite <- (positive_nat_Z (Pos.of_nat b)), Nat2Pos.id by lia.
  reflexivity.
Qed.

Lemma ratio_bounds a b : a <= b -> 0 < b ->
  (0 <= Helpers.ratio a b)%Q /\ (Helpers.ratio a b <= 1)%Q.
Proof.
  intros Hab Hb. unfold Helpers.ratio, Qle. cbn [Qnum Qden].
  rewrite (pos_of_nat_Z b Hb). lia.
Qed.

Lemma ratio_zero a b : 0 < b -> (Helpers.ratio a b == 0)%Q <-> a = 0.
Proof.
  intros Hb. unfold Helpers.ratio, Qeq. cbn [Qnum Qden]. lia.
Qed.

Lemma ratio_one a b : 0 < b -> (Helpers.ratio a b == 1)%Q <-> a = b.
Proof.
  intros Hb. unfold Helpers.ratio, Qeq. cbn [Qnum Qden].
  rewrite (pos_of_nat_Z b Hb). lia.
Qed.

Lemma similarity_unfold text1 text2 :
  Helpers.calculate_similarity_score text1 text2
  = if String.eqb text1 "" || String.eqb text2 "" then 0%Q
    else if (size (words text1 ∪ words text2) =? 0)%nat then 0%Q
         else Helpers.ratio (size (words text1 ∩ words text2))
                            (size (words text1 ∪ words text2)).
Proof. reflexivity. Qed.

(** X7.  The similarity score lies between 0 and 1 and does not depend
    on the order of the two texts. *)
Theorem similarity_score_bounds (text1 text2 : string) :
  (0 <= Helpers.calculate_similarity_score text1 text2)%Q
  /\ (Helpers.calculate_similarity_score text1 text2 <= 1)%Q
  /\ Helpers.calculate_similarity_score text1 text2
     = Helpers.calculate_similarity_score text2 text1.
Proof.
  rewrite !similarity_unfold.
  rewrite (orb_comm (String.eqb text2 "")).
  rewrite (comm_L (∪) (words text2)), (comm_L (∩) (words text2)).
  destruct (String.eqb text1 "" || String.eqb text2 ""); [done|].
  destruct (Nat.eqb_spec (size (words text1 ∪ words text2)) 0) as [|Hne];
    [done|].
  destruct (ratio_bounds (size (words text1 ∩ words text2))
                         (size (words text1 ∪ words text2))) as [H0 H1].
  - apply subseteq_size. intros x [Hx _]%elem_of_intersection.
    apply elem_of_union. now left.
  - lia.
  - done.
Qed.

(** X8.  The extremes of the similarity score: it is 0 exactly when one
    text is empty or the two texts share no word, and 1 exactly when
    both texts are non-empty and have the same, non-empty, set of
    lower-cased words (whatever their order, repetition and letter
    case). *)
Theorem similarity_score_extremes (text1 text2 : string) :
  ((Helpers.calculate_similarity_score text1 text2 == 0)%Q
   <-> text1 = "" \/ text2 = "" \/ words text1 ∩ words text2 = ∅)
  /\ ((Helpers.calculate_similarity_score text1 text2 == 1)%Q
      <-> text1 <> "" /\ text2 <> "" /\ words text1 = words text2
          /\ words text1 <> ∅).
Proof.
  rewrite similarity_unfold.
  destruct (String.eqb_spec text1 "") as [->|H1]; cbn [orb].
  { split; [split; [intros _; now left|reflexivity]|].
    split; [discriminate|]. intros [[] _]. reflexivity. }
  destruct (String.eqb_spec text2 "") as [->|H2].
  { split; [split; [intros _; right; now left|reflexivity]|].
    split; [discriminate|]. intros (_ & [] & _). reflexivity. }
  destruct (Nat.eqb_spec (size (words text1 ∪ words text2)) 0) as [Hz|Hnz].
  - apply size_empty_iff in Hz. apply leibniz_equiv in Hz.
    apply empty_union_L in Hz as [Hz1 Hz2].
    split.
    + split; [|reflexivity]. intros _. right. right.
      rewrite Hz1. apply (left_absorb_L ∅ (∩)).
    + split; [discriminate|]. intros (_ & _ & _ & Hne). now destruct Hne.
  - split.
    + rewrite ratio_zero by lia. rewrite size_empty_iff.
      split.
      * intros Hempty%leibniz_equiv. tauto.
      * intros [?|[?| ->]]; done.
    + rewrite ratio_one by lia. split.
      * intros Hsz. repeat split; try done.
        -- assert (words text1 ∩ words text2 ≡ words text1 ∪ words text2)
             as Heq.
           { apply set_subseteq_size_equiv; [|lia].
             intros x [Hx _]%elem_of_intersection.
             apply elem_of_union. now left. }
           apply set_eq. intros x. split; intros Hx.
           ++ assert (x ∈ words text1 ∪ words text2) as Hu
                by (apply elem_of_union; now left).
              rewrite <- Heq in Hu. now apply elem_of_intersection in Hu.
           ++ assert (x ∈ words text1 ∪ words text2) as Hu
                by (apply elem_of_union; now right).
              rewrite <- Heq in Hu. now apply elem_of_intersection in Hu.
        -- intros He. apply Hnz. rewrite <- Hsz, He.
           rewrite (left_absorb_L ∅ (∩)). apply size_empty.
      * intros (_ & _ & <- & _).
        now rewrite (idemp_L (∩)), (idemp_L (∪)).
Qed.

End HelpersProps.

(** * Properties of [app/services/search_service.py] *)

Section FacetProps.
Import SearchService.

Lemma tally_bump m count k :
  tally m count ->
  tally (bump k m) (fun k' => if decide (k' = k) then S (count k') else count k').
Proof.
  intros Hm k'. unfold bump. destruct (decide (k' = k)) as [->|Hne].
  - rewrite lookup_insert_eq, (Hm k).
    destruct (decide (count k = 0)) as [->|]; cbn.
    + reflexivity.
    + f_equal. lia.
  - rewrite lookup_insert_ne by done. apply Hm.
Qed.

Lemma facets_inv_ext facets cnt cnt' :
  (forall s k, cnt s k = cnt' s k) -> facets_inv facets cnt ->
  facets_inv facets cnt'.
Proof.
  intros Heq Hinv section Hs. destruct (Hinv section Hs) as (m & Hm & Ht).
  exists m. split; [exact Hm|]. intros k. rewrite <- Heq. apply Ht.
Qed.

Lemma facets_inv_bump facets cnt section k :
  section ∈ ["categories"; "tags"; "status"] ->
  facets_inv facets cnt ->
  facets_inv (bump_in section k facets) (counted section k cnt).
Proof.
  intros Hsec Hinv s Hs. unfold bump_in, counted.
  destruct (decide (s = section)) as [->|Hne].
  - rewrite lookup_insert_eq. eexists. split; [reflexivity|].
    destruct (Hinv section Hs) as (m & -> & Ht).
    change (default ∅ (Some m)) with m.
    intros k'. rewrite (tally_bump m _ k Ht k'). cbn beta.
    repeat case_decide;
      first [reflexivity | exfalso; intuition (first [congruence | lia])].
  - rewrite lookup_insert_ne by done.
    destruct (Hinv s Hs) as (m & Hm & Ht). exists m. split; [exact Hm|].
    intros k'. destruct (decide (s = section /\ k' = k)) as [[? _]|_];
      [done|apply Ht].
Qed.

Lemma facets_inv_tags tags facets cnt :
  facets_inv facets cnt ->
  facets_inv (fold_left (fun facets tag => bump_in "tags" tag facets)
                        tags facets)
             (fun s k => if decide (s = "tags")
                         then cnt s k + length (filter (fun x => x = k) tags)
                         else cnt s k).
Proof.
  revert facets cnt. induction tags as [|tag tags IH]; intros facets cnt Hinv;
    cbn [fold_left].
  - eapply facets_inv_ext; [|exact Hinv]. intros s k. cbn.
    destruct (decide (s = "tags")); lia.
  - eapply facets_inv_ext;
      [|apply IH, (facets_inv_bump facets cnt "tags" tag);
        [apply list_elem_of_further, list_elem_of_here|exact Hinv]].
    intros s k. unfold counted. cbn beta.
    destruct (decide (s = "tags")) as [->|Hne].
    + destruct (decide (tag = k)) as [->|Hk].
      * rewrite filter_cons_True by done.
        destruct (decide ("tags" = "tags" /\ k = k)) as [_|Hn];
          [cbn [length]; lia|]. exfalso; apply Hn; split; done.
      * rewrite filter_cons_False by done.
        destruct (decide ("tags" = "tags" /\ k = tag)) as [[_ ->]|_];
          [done|lia].
    + destruct (decide (s = "tags" /\ k = tag)) as [[? _]|_];
        [done|reflexivity].
Qed.

Lemma facet_counts_cons r results s k :
  s ∈ ["categories"; "tags"; "status"] ->
  facet_counts (r :: results) s k
  = (if decide (s = "status" /\ k = status_value (DataRecord.status r))
     then 1 else 0)
    + (if decide (s = "tags")
       then length (filter (fun x => x = k) (DataRecord.tags r)) else 0)
    + (if decide (s = "categories"
                  /\ nonempty (DataRecord.category r) = Some k)
       then 1 else 0)
    + facet_counts results s k.
Proof.
  intros Hs. unfold facet_counts, category_count, tag_count, status_count.
  cbn [map concat]. rewrite filter_app, length_app.
  assert (length (filter (fun r0 => nonempty (DataRecord.category r0) = Some k)
                         (r :: results))
          = (if decide (nonempty (DataRecord.category r) = Some k)
             then 1 else 0)
            + length (filter (fun r0 => nonempty (DataRecord.category r0)
                                        = Some k) results)) as ->.
  { destruct (decide (nonempty (DataRecord.category r) = Some k)).
    - now rewrite filter_cons_True by done.
    - now rewrite filter_cons_False by done. }
  assert (length (filter (fun r0 => status_value (DataRecord.status r0) = k)
                         (r :: results))
          = (if decide (status_value (DataRecord.status r) = k)
             then 1 else 0)
            + length (filter (fun r0 => status_value (DataRecord.status r0)
                                        = k) results)) as ->.
  { destruct (decide (status_value (DataRecord.status r) = k)).
    - now rewrite filter_cons_True by done.
    - now rewrite filter_cons_False by done. }
  apply elem_of_cons in Hs as [->|Hs];
    [|apply elem_of_cons in Hs as [->|Hs];
      [|apply list_elem_of_singleton in Hs as ->]];
    repeat case_decide;
    first [lia | exfalso; intuition (first [congruence | discriminate])].
Qed.

Lemma facets_inv_fold results facets cnt :
  facets_inv facets cnt ->
  facets_inv
    (fold_left
       (fun facets record =>
          let facets :=
            match nonempty (DataRecord.category record) with
            | Some category => bump_in "categories" category facets
            | None => facets
            end in
          let facets :=
            fold_left (fun facets tag => bump_in "tags" tag facets)
                      (DataRecord.tags record) facets in
          bump_in "status" (status_value (DataRecord.status record)) facets)
       results facets)
    (fun s k => cnt s k + facet_counts results s k).
Proof.
  revert facets cnt. induction results as [|r results IH];
    intros facets cnt Hinv; cbn [fold_left].
  - intros s Hs. destruct (Hinv s Hs) as (m & Hm & Ht). exists m.
    split; [exact Hm|]. intros k. unfold facet_counts.
    replace (cnt s k + _) with (cnt s k); [apply Ht|].
    repeat case_decide; cbn; lia.
  - cbn zeta.
    set (f1 := match nonempty (DataRecord.category r) with
               | Some category => bump_in "categories" category facets
               | None => facets
               end).
    set (c1 := fun s k =>
                 if decide (s = "categories"
                            /\ nonempty (DataRecord.category r) = Some k)
                 then S (cnt s k) else cnt s k).
    assert (facets_inv f1 c1) as H1.
    { subst f1 c1. destruct (nonempty (DataRecord.category r)) as [c|].
      - eapply facets_inv_ext;
          [|apply (facets_inv_bump facets cnt "categories" c);
            [apply list_elem_of_here|exact Hinv]].
        intros s k. unfold counted.
        destruct (decide (s = "categories" /\ k = c)) as [[-> ->]|Hn].
        + now rewrite decide_True by done.
        + rewrite decide_False; [reflexivity|].
          intros [-> [= ->]]. now apply Hn.
      - eapply facets_inv_ext; [|exact Hinv]. intros s k.
        rewrite decide_False; [reflexivity|]. intros [_ ?]. done. }
    pose proof (facets_inv_tags (DataRecord.tags r) f1 c1 H1) as H2.
    pose proof (facets_inv_bump _ _ "status"
                  (status_value (DataRecord.status r))
                  ltac:(do 2 apply list_elem_of_further;
                        apply list_elem_of_here) H2) as H3.
    intros s Hs. destruct (IH _ _ H3 s Hs) as (m & Hm & Ht).
    exists m. split; [exact Hm|]. intros k. rewrite (Ht k).
    rewrite (facet_counts_cons r results s k Hs).
    unfold counted. subst c1. cbn beta.
    assert (forall a b : nat, a = b ->
              (if decide (a = 0) then None else Some a)
              = (if decide (b = 0) then None else Some b)) as Hcong
      by (intros a b ->; reflexivity).
    apply Hcong. repeat case_decide; lia.
Qed.

(** X9.  The facets of a result list: the three sections [categories],
    [tags] and [status] are always present; [categories] holds each
    non-empty category with the number of results of that category,
    [tags] each tag with its number of occurrences over all results, and
    [status] each status with the number of results in it; a key that
    was never seen is absent rather than counted 0. *)
Theorem facets_count (results : list DataRecord.t) :
  exists mc mt ms,
    _generate_facets results !! "categories" = Some mc
    /\ _generate_facets results !! "tags" = Some mt
    /\ _generate_facets results !! "status" = Some ms
    /\ tally mc (category_count results)
    /\ tally mt (tag_count results)
    /\ tally ms (status_count results).
Proof.
  assert (facets_inv
            ({[ "categories" := ∅; "tags" := ∅; "status" := ∅ ]}
               : gmap string (gmap string nat))
            (fun _ _ => 0)) as H0.
  { intros s Hs. exists ∅. split.
    - apply elem_of_cons in Hs as [->|Hs];
        [|apply elem_of_cons in Hs as [->|Hs];
          [|apply list_elem_of_singleton in Hs as ->]]; reflexivity.
    - intros k. reflexivity. }
  pose proof (facets_inv_fold results _ _ H0) as Hinv.
  destruct (Hinv "categories" ltac:(apply list_elem_of_here))
    as (mc & Hmc & Htc).
  destruct (Hinv "tags" ltac:(apply list_elem_of_further, list_elem_of_here))
    as (mt & Hmt & Htt).
  destruct (Hinv "status" ltac:(do 2 apply list_elem_of_further;
                                apply list_elem_of_here))
    as (ms & Hms & Hts).
  exists mc, mt, ms. repeat split; assumption.
Qed.

End FacetProps.

Section SuggestionProps.
Context `{AIService}.
Import SearchService.

Lemma suggestions_unfold query results :
  _generate_suggestions query results
  = take 5 (if (length (local_suggestions query results) <? 5)%nat
            then match suggest_queries
                         query (elements (result_categories results))
                         (elements (result_tags results)) with
                 | inr ai => local_suggestions query results ++ take 5 ai
                 | inl _ => local_suggestions query results
                 end
            else local_suggestions query results).
Proof. reflexivity. Qed.

(** X10.  Suggestions: never more than five; those derived from the
    results come first, before any suggestion of the AI service; and
    when the results yield five or more, or the AI service fails, the
    suggestions are the (first five) derived ones alone. *)
Theorem suggestions_local_first (query : string)
        (results : list DataRecord.t) :
  let local := local_suggestions query results in
  let ai := suggest_queries query (elements (result_categories results))
                            (elements (result_tags results)) in
  length (_generate_suggestions query results) <= 5
  /\ take 5 local `prefix_of` _generate_suggestions query results
  /\ (5 <= length local \/ (exists e, ai = inl e) ->
      _generate_suggestions query results = take 5 local).
Proof.
  intros local ai. rewrite suggestions_unfold. fold local. fold ai.
  split; [rewrite length_take; lia|]. split.
  - destruct (length local <? 5)%nat; [|reflexivity].
    destruct ai as [e|l]; [reflexivity|].
    rewrite take_app. apply prefix_app_r. reflexivity.
  - intros [Hlen|[e He]].
    + apply Nat.ltb_ge in Hlen. now rewrite Hlen.
    + rewrite He. now destruct (length local <? 5)%nat.
Qed.

Lemma result_categories_elem results c :
  c ∈ result_categories results ->
  exists r, r ∈ take 10 results /\ nonempty (DataRecord.category r) = Some c.
Proof.
  unfold result_categories.
  assert (forall l (acc : gset string),
            c ∈ fold_left (fun categories record =>
                             match nonempty (DataRecord.category record) with
                             | Some category => {[ category ]} ∪ categories
                             | None => categories
                             end) l acc ->
            c ∈ acc \/ exists r, r ∈ l
                                 /\ nonempty (DataRecord.category r) = Some c)
    as Hfold.
  { induction l as [|r l IH]; intros acc; cbn [fold_left]; [now left|].
    intros [Hacc|(r' & Hr' & Hc)]%IH.
    - destruct (nonempty (DataRecord.category r)) as [c'|] eqn:Hc'.
      + apply elem_of_union in Hacc as [->%elem_of_singleton|Hacc].
        * right. exists r. split; [apply list_elem_of_here|exact Hc'].
        * now left.
      + now left.
    - right. exists r'. split; [now apply list_elem_of_further|exact Hc]. }
  intros [Hempty|Hr]%Hfold; [|exact Hr]. now apply elem_of_empty in Hempty.
Qed.

Lemma result_tags_elem results t :
  t ∈ result_tags results ->
  exists r, r ∈ take 10 results /\ t ∈ take 3 (DataRecord.tags r).
Proof.
  unfold result_tags.
  assert (forall l (acc : gset string),
            t ∈ fold_left (fun tags record =>
                             list_to_set (take 3 (DataRecord.tags record))
                             ∪ tags) l acc ->
            t ∈ acc \/ exists r, r ∈ l /\ t ∈ take 3 (DataRecord.tags r))
    as Hfold.
  { induction l as [|r l IH]; intros acc; cbn [fold_left]; [now left|].
    intros [Hacc|(r' & Hr' & Hc)]%IH.
    - apply elem_of_union in Hacc as [Ht%elem_of_list_to_set|Hacc].
      + right. exists r. split; [apply list_elem_of_here|exact Ht].
      + now left.
    - right. exists r'. split; [now apply list_elem_of_further|exact Hc]. }
  intros [Hempty|Hr]%Hfold; [|exact Hr]. now apply elem_of_empty in Hempty.
Qed.

Lemma local_suggestions_source query results :
  Forall (suggestion_source query results) (local_suggestions query results).
Proof.
  unfold local_suggestions. apply Forall_app. split; apply Forall_forall.
  - intros s (c & -> & Hc%subseteq_take%elem_of_elements)%list_elem_of_fmap.
    destruct (result_categories_elem _ _ Hc) as (r & Hr & Hcat).
    left. now exists r, c.
  - intros s (t & -> & Ht%subseteq_take%elem_of_elements)%list_elem_of_fmap.
    destruct (result_tags_elem _ _ Ht) as (r & Hr & Htag).
    right. left. now exists r, t.
Qed.

(** X11.  Every suggestion is the query followed by [" in "] and the
    category of one of the first ten results, or by [" tagged "] and one
    of the first three tags of one of the first ten results, or it is one
    of the first five suggestions the AI service returned. *)
Theorem suggestions_sources (query : string) (results : list DataRecord.t) :
  Forall (suggestion_source query results)
         (_generate_suggestions query results).
Proof.
  rewrite suggestions_unfold. apply Forall_take.
  pose proof (local_suggestions_source query results) as Hlocal.
  destruct (length (local_suggestions query results) <? 5)%nat;
    [|exact Hlocal].
  destruct (suggest_queries _ _ _) as [e|ai] eqn:Hai; [exact Hlocal|].
  apply Forall_app. split; [exact Hlocal|]. apply Forall_forall.
  intros s Hs. right. right. now exists ai.
Qed.

End SuggestionProps.

(** * Properties of [app/services/database.py] *)

Section SortFacts.
Context {A : Type}.
Variable after : A -> A -> bool.
Hypothesis after_asym : forall x y, after x y = true -> after y x = false.
Hypothesis before_trans :
  forall x y z, after x y = false -> after y z = false -> after x z = false.

Lemma insert_sorted_sorted x l :
  StronglySorted (fun a b => after a b = false) l ->
  StronglySorted (fun a b => after a b = false) (insert_sorted after x l).
Proof.
  induction 1 as [|y l Hs IH Hy]; cbn.
  - repeat constructor.
  - destruct (after x y) eqn:Hxy.
    + constructor; [exact IH|].
      apply Forall_forall. intros z Hz.
      rewrite insert_sorted_perm in Hz.
      apply elem_of_cons in Hz as [->|Hz].
      * now apply after_asym.
      * rewrite Forall_forall in Hy. now apply Hy.
    + constructor.
      * now constructor.
      * constructor; [exact Hxy|].
        eapply Forall_impl; [exact Hy|]. cbn. intros z Hz.
        now apply before_trans with y.
Qed.

Lemma stable_sort_sorted l :
  StronglySorted (fun a b => after a b = false) (stable_sort after l).
Proof.
  induction l as [|x l IH]; [constructor|].
  apply insert_sorted_sorted, IH.
Qed.
End SortFacts.

Section StoreProps.
Context `{MongoEngine}.

Lemma okey_lt_asym a b :
  Database.okey_lt a b = true -> Database.okey_lt b a = false.
Proof.
  destruct a as [x|], b as [y|]; cbn; try done.
  intros Hxy%Qltb_lt. apply Qltb_ge. now apply Qlt_le_weak.
Qed.

Lemma okey_ge_trans a b c :
  Database.okey_lt a b = false -> Database.okey_lt b c = false ->
  Database.okey_lt a c = false.
Proof.
  destruct a as [x|], b as [y|], c as [z|]; cbn; try done.
  intros Hxy%Qltb_ge Hyz%Qltb_ge. apply Qltb_ge. now apply Qle_trans with y.
Qed.

(** The order the [$sort] stage leaves: no document has to come after
    one that follows it. *)
Lemma sort_stage_sorted (key : DataRecord.t -> option Q) docs :
  StronglySorted (fun a b => Database.okey_lt (key a) (key b) = false)
    (stable_sort (fun x y => Database.okey_lt (key x) (key y)) docs).
Proof.
  apply (stable_sort_sorted (fun x y => Database.okey_lt (key x) (key y))).
  - intros x y. apply okey_lt_asym.
  - intros x y z. apply okey_ge_trans.
Qed.

Lemma sort_stage_sorted_asc (key : DataRecord.t -> option Q) docs :
  StronglySorted (fun a b => Database.okey_lt (key b) (key a) = false)
    (stable_sort (fun x y => Database.okey_lt (key y) (key x)) docs).
Proof.
  apply (stable_sort_sorted (fun x y => Database.okey_lt (key y) (key x))).
  - intros x y. apply okey_lt_asym.
  - intros x y z Hxy Hyz. now apply okey_ge_trans with (key y).
Qed.

Lemma StronglySorted_sublist {B} (R : B -> B -> Prop) l k :
  k `sublist_of` l -> StronglySorted R l -> StronglySorted R k.
Proof.
  intros Hsub Hl. revert k Hsub.
  induction Hl as [|x l Hl IH Hx]; intros k Hsub.
  - apply sublist_nil_r in Hsub as ->. constructor.
  - apply sublist_cons_r in Hsub as [Hsub|(k' & -> & Hsub)].
    + now apply IH.
    + constructor; [now apply IH|].
      apply Forall_forall. intros z Hz. rewrite Forall_forall in Hx.
      apply Hx. eapply sublist_subseteq; [exact Hsub|exact Hz].
Qed.

Lemma page_sublist {B} limit offset (l : list B) :
  take limit (drop offset l) `sublist_of` l.
Proof.
  etransitivity; [apply sublist_take|apply sublist_drop].
Qed.

(** The ranked list of which [search_records] returns a slice. *)
Lemma search_records_unfold db query filters sort_by sort_order limit offset :
  Database.search_records db query filters sort_by sort_order limit offset
  = (mc ← Database.match_conditions query filters;
     docs ← match Database.collection db with
            | Some docs => ret docs
            | None =>
                raise (AttributeError
                         "'NoneType' object has no attribute 'aggregate'")
            end;
     scored ← (if Database.has_text query
               then Database.add_score
                      mc (filter (fun d => Mongo.matches mc d) docs)
               else ret (filter (fun d => Mongo.matches mc d) docs));
     let sorted :=
       Database.sort_stage
         (if Database.has_text query then "score" else sort_by)
         (if Database.has_text query then (-1)%Z else sort_order) scored in
     ret (SearchData.mk (take limit (drop offset sorted)) (length sorted)
            offset limit (length (take limit (drop offset sorted))))).
Proof. unfold Database.search_records. apply try_except_reraise. Qed.


Lemma matches_text mc q d :
  Database.search_string mc = Some q ->
  Mongo.matches mc d = true -> is_Some (text_score q d).
Proof.
  unfold Database.search_string. intros Hq Hm.
  destruct (mc !! "$text") as [[| | | | |ops]|] eqn:Ht; try discriminate.
  destruct (Dict.get "$search" ops) as [[| | |q'| |]|] eqn:Hs;
    try discriminate.
  injection Hq as ->.
  unfold Mongo.matches in Hm. rewrite forallb_forall in Hm.
  specialize (Hm ("$text", JObj ops)).
  unfold Mongo.entry_holds in Hm. cbn [fst snd String.eqb Ascii.eqb] in Hm.
  cbn in Hm. rewrite Hs in Hm.
  eapply bool_decide_eq_true_1, Hm.
  apply list_elem_of_In, elem_of_map_to_list, Ht.
Qed.

(** The key of [{"$sort": {"score": -1}}]. *)
Lemma scored_sorted_desc l :
  Forall scored l ->
  StronglySorted
    (fun a b => Database.okey_lt (score_field a) (score_field b) = false) l ->
  sorted_desc score_of l.
Proof.
  intros Hsc Hs. induction Hs as [|x l Hl IH Hx]; [constructor|].
  apply Forall_cons in Hsc as [[sx Hsx] Hrest].
  constructor; [now apply IH|].
  rewrite Forall_forall in Hx, Hrest. apply Forall_forall. intros y Hy.
  destruct (Hrest y Hy) as [sy Hsy]. specialize (Hx y Hy).
  unfold score_field, Mongo.field_value in Hx. cbn in Hx.
  unfold SearchService.score_key. rewrite Hsx, Hsy in *. cbn in *.
  now apply Qltb_ge.
Qed.

(** What a successful search returns, stage by stage. *)
Lemma search_records_inr db query filters sort_by sort_order limit offset
      found :
  Database.search_records db query filters sort_by sort_order limit offset
  = inr found ->
  exists mc docs scored_docs,
    Database.match_conditions query filters = inr mc
    /\ Database.collection db = Some docs
    /\ (if Database.has_text query
        then Database.add_score
               mc (filter (fun d => Mongo.matches mc d) docs)
        else ret (filter (fun d => Mongo.matches mc d) docs))
       = inr scored_docs
    /\ found
       = let sorted :=
           Database.sort_stage
             (if Database.has_text query then "score" else sort_by)
             (if Database.has_text query then (-1)%Z else sort_order)
             scored_docs in
         SearchData.mk (take limit (drop offset sorted)) (length sorted)
           offset limit (length (take limit (drop offset sorted))).
Proof.
  rewrite search_records_unfold. intros Hb.
  apply bind_inr in Hb as (mc & Hmc & Hb).
  apply bind_inr in Hb as (docs & Hdocs & Hb).
  apply bind_inr in Hb as (scored_docs & Hsc & Hb).
  injection Hb as <-.
  destruct (Database.collection db) as [docs'|]; [|discriminate].
  injection Hdocs as ->.
  exists mc, docs, scored_docs. auto.
Qed.

Lemma add_score_scored mc docs scored_docs :
  Database.add_score mc (filter (fun d => Mongo.matches mc d) docs)
  = inr scored_docs ->
  Forall scored scored_docs.
Proof.
  unfold Database.add_score.
  destruct (Database.search_string mc) as [q|] eqn:Hq; [|discriminate].
  intros [= <-].
  apply Forall_forall. intros r (d & -> & Hd)%list_elem_of_fmap.
  apply list_elem_of_filter in Hd as [Hm%Is_true_true _].
  exact (matches_text mc q d Hq Hm).
Qed.


Lemma text_search_scored db query filters sort_by sort_order limit offset
      found :
  Database.has_text query = true ->
  Database.search_records db query filters sort_by sort_order limit offset
  = inr found ->
  Forall scored (SearchData.data found).
Proof.
  intros Ht Hf.
  apply search_records_inr in Hf as (mc & docs & sd & _ & _ & Hsc & ->).
  rewrite Ht in *. apply add_score_scored in Hsc.
  cbn [SearchData.data]. apply Forall_forall.
  intros r Hr%subseteq_take%subseteq_drop.
  rewrite sort_stage_perm in Hr. rewrite Forall_forall in Hsc. auto.
Qed.

Lemma search_records_length db query filters sort_by sort_order limit offset
      found :
  Database.search_records db query filters sort_by sort_order limit offset
  = inr found ->
  length (SearchData.data found)
  = min limit (SearchData.total_count found - offset).
Proof.
  intros Hf.
  apply search_records_inr in Hf as (mc & docs & sd & _ & _ & Hsc & ->).
  cbn [SearchData.data SearchData.total_count].
  now rewrite length_take, length_drop.
Qed.


(** X13.  A search with a text query returns records that all carry a
    score, in descending order of that score, whatever [sort_by] and
    [sort_order] the caller gave. *)
Theorem search_records_text_order db query filters sort_by sort_order
        limit offset found :
  Database.has_text query = true ->
  Database.search_records db query filters sort_by sort_order limit offset
  = inr found ->
  Forall scored (SearchData.data found)
  /\ sorted_desc score_of (SearchData.data found).
Proof.
  intros Ht Hf. split; [exact (text_search_scored _ _ _ _ _ _ _ _ Ht Hf)|].
  apply search_records_inr in Hf as (mc & docs & sd & _ & _ & Hsc & ->).
  rewrite Ht in *. apply add_score_scored in Hsc.
  cbn [SearchData.data].
  eapply StronglySorted_sublist; [apply page_sublist|].
  unfold Database.sort_stage. cbn [Z.eqb].
  apply scored_sorted_desc; [|apply (sort_stage_sorted score_field)].
  apply Forall_forall. intros r Hr. rewrite stable_sort_perm in Hr.
  rewrite Forall_forall in Hsc. auto.
Qed.

Lemma StronglySorted_impl {B} (R S : B -> B -> Prop) l :
  (forall a b, R a b -> S a b) -> StronglySorted R l -> StronglySorted S l.
Proof.
  intros HRS. induction 1 as [|x l Hl IH Hx]; constructor; [exact IH|].
  eapply Forall_impl; [exact Hx|]. intros y. apply HRS.
Qed.

(** X14.  A listing (a search with a blank query) sorted on
    [created_at] returns stored documents as they are stored, score
    included, newest first for [sort_order = -1] (the default) and
    oldest first for [sort_order = 1]. *)
Theorem search_records_listing_order db query filters (ascending : bool)
        limit offset found :
  Database.has_text query = false ->
  Database.search_records db query filters "created_at"
                          (if ascending then 1 else -1)%Z limit offset
  = inr found ->
  (exists docs, Database.collection db = Some docs
                /\ SearchData.data found ⊆ docs)
  /\ StronglySorted
       (fun a b => if ascending
                   then (DataRecord.created_at a <= DataRecord.created_at b)%Q
                   else (DataRecord.created_at b <= DataRecord.created_at a)%Q)
       (SearchData.data found).
Proof.
  intros Ht. rewrite search_records_unfold, Ht. intros Hb.
  apply bind_inr in Hb as (mc & Hmc & Hb).
  apply bind_inr in Hb as (docs & Hdocs & Hb).
  apply bind_inr in Hb as (scored_docs & Hsc & Hb).
  injection Hsc as <-. injection Hb as <-. cbn [SearchData.data].
  destruct (Database.collection db) as [docs'|]; [|discriminate].
  injection Hdocs as ->. split.
  - exists docs. split; [reflexivity|].
    intros r Hr%subseteq_take%subseteq_drop.
    rewrite sort_stage_perm in Hr.
    now apply list_elem_of_filter in Hr as [_ Hr].
  - eapply StronglySorted_sublist; [apply page_sublist|].
    unfold Database.sort_stage. destruct ascending; cbn [Z.eqb].
    + eapply StronglySorted_impl;
        [|apply (sort_stage_sorted_asc created_field)].
      intros a b. unfold created_field, Mongo.field_value. cbn.
      apply Qltb_ge.
    + eapply StronglySorted_impl;
        [|apply (sort_stage_sorted created_field)].
      intros a b. unfold created_field, Mongo.field_value. cbn.
      apply Qltb_ge.
Qed.

End StoreProps.

Lemma search_records_text_order_witness :
  exists found,
    @Database.search_records Fixtures.engine Fixtures.db
       "engineer" None "created_at" (-1) 10 0 = inr found
    /\ Forall scored (SearchData.data found)
    /\ sorted_desc score_of (SearchData.data found).
Proof.
  eexists. split; [vm_compute; reflexivity|].
  apply (@search_records_text_order Fixtures.engine Fixtures.db
           "engineer" None "created_at" (-1)%Z 10 0);
    vm_compute; reflexivity.
Defined.

Lemma search_records_listing_order_witness :
  exists found,
    @Database.search_records Fixtures.engine Fixtures.db
       "" None "created_at" (-1) 10 0 = inr found
    /\ StronglySorted
         (fun a b => (DataRecord.created_at b <= DataRecord.created_at a)%Q)
         (SearchData.data found).
Proof.
  eexists. split; [vm_compute; reflexivity|].
  apply (@search_records_listing_order Fixtures.engine Fixtures.db
           "" None false 10 0);
    vm_compute; reflexivity.
Defined.

(** * The search service over the MongoDB-backed store *)

Section ServiceOverStore.
Context `{MongoEngine} `{AIService} `{VectorLib} `{Clock}.
Import SearchService.

Lemma search_records_down query filters sort_by sort_order limit offset :
  exists e,
    Database.search_records (Database.mk None) query filters sort_by
                            sort_order limit offset = inl e.
Proof.
  rewrite search_records_unfold.
  destruct (Database.match_conditions query filters) as [e|mc]; cbn; eauto.
Qed.

Lemma retrieve_down query search_type filters limit offset :
  exists e,
    @retrieve (mongo_service (Database.mk None)) _ _
              query search_type filters limit offset = inl e.
Proof.
  assert (forall q f l o, exists e,
             @_keyword_search (mongo_service (Database.mk None)) q f l o
             = inl e) as Hkw.
  { intros q f l o.
    exact (search_records_down q f "created_at" (-1)%Z l o). }
  destruct (Hkw query filters limit offset) as [e He].
  destruct search_type; cbn [retrieve].
  - unfold _semantic_search, semantic_body.
    destruct (generate_embeddings [query]) as [e1|[|emb embs]]; cbn;
      [eauto..|].
    destruct (search_records_down "" filters "created_at" (-1) 1000 0)
      as [e2 He2].
    rewrite He2. cbn. eauto.
  - eauto.
  - unfold _hybrid_search_combined, hybrid_body.
    destruct (Hkw query filters (limit * 2) 0) as [e1 ->]. cbn. eauto.
  - unfold _fuzzy_search, fuzzy_body.
    destruct (search_records_down "" (Some (fuzzy_filters query filters))
                                  "created_at" (-1) limit offset)
      as [e2 He2].
    cbn. rewrite He2. cbn. eauto.
  - unfold _exact_search, exact_body.
    destruct (search_records_down "" (Some (exact_filters query filters))
                                  "created_at" (-1) limit offset)
      as [e2 He2].
    cbn. rewrite He2. cbn. eauto.
Qed.

(** X15.  With the database not connected ([self.collection] is
    [None]) every search, whatever its type, filters and page, is
    answered with the empty response. *)
Theorem disconnected_store_empty_response
        query search_type filters limit offset min_score :
  @hybrid_search (mongo_service (Database.mk None)) _ _ _
                 query search_type filters limit offset min_score
  = @empty_response _ query search_type limit offset.
Proof.
  unfold hybrid_search, hybrid_search_body, candidates.
  destruct (processed_query query search_type) as [e|processed]; cbn;
    [reflexivity|].
  destruct (retrieve_down processed search_type filters limit offset)
    as [e ->].
  reflexivity.
Qed.

Lemma match_conditions_copy query filters :
  Database.match_conditions query (Some (filters_copy filters))
  = Database.match_conditions query filters.
Proof.
  unfold Database.match_conditions, filters_copy.
  destruct filters as [[|item items]|]; reflexivity.
Qed.

Lemma search_records_copy db query filters sort_by sort_order limit offset :
  Database.search_records db query (Some (filters_copy filters))
                          sort_by sort_order limit offset
  = Database.search_records db query filters sort_by sort_order limit offset.
Proof. now rewrite !search_records_unfold, match_conditions_copy. Qed.

(** X16.  A fuzzy search whose query yields no keyword (only stop words,
    words of fewer than three letters, digits) puts no condition on the
    text: it returns the plain listing of the records that satisfy the
    caller's filters, newest first. *)
Theorem fuzzy_without_keywords_lists db query filters limit offset found :
  Helpers.extract_keywords query = [] ->
  Database.search_records db "" filters "created_at" (-1) limit offset
  = inr found ->
  @_fuzzy_search (mongo_service db) query filters limit offset = inr found.
Proof.
  intros Hk Hl. unfold _fuzzy_search, fuzzy_body, fuzzy_filters.
  rewrite Hk. cbn [search_records mongo_service].
  now rewrite search_records_copy, Hl.
Qed.

Lemma semantic_score_inr query query_embedding r r' :
  semantic_score query query_embedding r = inr r' ->
  scored r' /\ DataRecord.id r' = DataRecord.id r.
Proof.
  unfold semantic_score.
  destruct (DataRecord.embedding r) as [[|x emb]|].
  - intros [= <-]. split; [by eexists|reflexivity].
  - intros Hs. apply bind_inr in Hs as (s & _ & Hs).
    injection Hs as <-. split; [by eexists|reflexivity].
  - intros [= <-]. split; [by eexists|reflexivity].
Qed.

Lemma semantic_scores_inr query query_embedding data scored_records :
  mapM (semantic_score query query_embedding) data = inr scored_records ->
  Forall scored scored_records
  /\ ids scored_records = ids data
  /\ length scored_records = length data.
Proof.
  intros Hm%mapM_inr_inv.
  induction Hm as [|r r' data rest Hr _ (IH1 & IH2 & IH3)].
  - repeat split. constructor.
  - apply semantic_score_inr in Hr as [Hs Hid]. repeat split.
    + now constructor.
    + unfold ids in *. cbn. now rewrite Hid, IH2.
    + cbn. now rewrite IH3.
Qed.

(** The try block of the semantic strategy over the store. *)
Lemma semantic_body_over_store db query filters limit offset found :
  @semantic_body (mongo_service db) _ _ query filters limit offset
  = inr found ->
  exists listing scored_records,
    Database.search_records db "" filters "created_at" (-1) 1000 0
    = inr listing
    /\ Forall scored scored_records
    /\ ids scored_records = ids (SearchData.data listing)
    /\ length scored_records = length (SearchData.data listing)
    /\ found = SearchData.mk
                 (page offset limit (sort_desc score_key scored_records))
                 (length scored_records) offset limit
                 (length (page offset limit
                               (sort_desc score_key scored_records))).
Proof.
  unfold semantic_body. intros Hb.
  apply bind_inr in Hb as (embeddings & _ & Hb).
  apply bind_inr in Hb as (query_embedding & _ & Hb).
  apply bind_inr in Hb as (listing & Hl & Hb).
  apply bind_inr in Hb as (scored_records & Hm & Hb).
  injection Hb as <-.
  apply semantic_scores_inr in Hm as (Hs & Hids & Hlen).
  exists listing, scored_records. auto.
Qed.

(** X17.  Over the store the semantic strategy never counts more than
    1000 candidates: when its try block succeeds, [total_count] is the
    number of records matching the filters, capped at 1000. *)
Theorem semantic_total_capped db query filters limit offset found :
  @semantic_body (mongo_service db) _ _ query filters limit offset
  = inr found ->
  exists listing,
    Database.search_records db "" filters "created_at" (-1) 1000 0
    = inr listing
    /\ SearchData.total_count found
       = min 1000 (SearchData.total_count listing).
Proof.
  intros (listing & scored_records & Hl & _ & _ & Hlen & ->)
         %semantic_body_over_store.
  exists listing. split; [exact Hl|]. cbn [SearchData.total_count].
  rewrite Hlen, (search_records_length _ _ _ _ _ _ _ _ Hl). lia.
Qed.




(** ** The text condition of the fuzzy and exact strategies *)

Lemma add_filter_or mc key value mc' :
  key <> "$or" ->
  Database.add_filter mc (key, value) = inr mc' ->
  mc' !! "$or" = mc !! "$or".
Proof.
  intros Hk. unfold Database.add_filter.
  destruct value as [| | | |items|range].
  1-4: intros [= <-]; now rewrite lookup_insert_ne.
  - destruct (String.eqb key "tags");
      [intros [= <-]; now rewrite lookup_insert_ne|].
    destruct (String.eqb key "categories");
      intros [= <-]; now rewrite lookup_insert_ne.
  - destruct (String.eqb key "date_range");
      [|intros [= <-]; now rewrite lookup_insert_ne].
    set (mc1 := match Dict.get "start" range with
                | Some start => <["created_at" := JObj [("$gte", start)]]> mc
                | None => mc
                end).
    assert (mc1 !! "$or" = mc !! "$or") as <-.
    { subst mc1. destruct (Dict.get "start" range);
        [now rewrite lookup_insert_ne|reflexivity]. }
    destruct (Dict.get "end" range) as [stop|]; [|now intros [= <-]].
    destruct (mc1 !! "created_at") as [[| | | | |ops]|];
      try discriminate; intros [= <-]; now rewrite lookup_insert_ne.
Qed.

Lemma add_filters_or items mc mc' :
  "$or" ∉ Dict.keys items ->
  foldM Database.add_filter mc items = inr mc' ->
  mc' !! "$or" = mc !! "$or".
Proof.
  revert mc. induction items as [|[key value] items IH]; intros mc Hn; cbn.
  - now intros [= <-].
  - apply not_elem_of_cons in Hn as [Hk Hn].
    intros Hf. apply bind_inr in Hf as (mc1 & Hstep & Hf).
    rewrite (IH _ Hn Hf). apply (add_filter_or mc key value); [|exact Hstep].
    intros ->. now apply Hk.
Qed.

Lemma add_filters_condition items alts mc mc' :
  NoDup (Dict.keys items) ->
  Dict.get "$or" items = Some (JArr alts) ->
  foldM Database.add_filter mc items = inr mc' ->
  mc' !! "$or" = Some (JArr alts).
Proof.
  revert mc. induction items as [|[key value] items IH]; intros mc Hnd;
    cbn [Dict.get foldM]; [discriminate|].
  apply NoDup_cons in Hnd as [Hk Hnd].
  destruct (String.eqb_spec "$or" key) as [<-|Hne].
  - intros [= ->] Hf. apply bind_inr in Hf as (mc1 & Hstep & Hf).
    rewrite (add_filters_or _ _ _ Hk Hf).
    cbn in Hstep. injection Hstep as <-. apply lookup_insert_eq.
  - intros Hg Hf. apply bind_inr in Hf as (mc1 & Hstep & Hf).
    now apply (IH mc1).
Qed.

Lemma dict_get_set {V} k (v : V) d : Dict.get k (Dict.set k v d) = Some v.
Proof.
  induction d as [|[k' v'] d IH]; cbn.
  - now rewrite String.eqb_refl.
  - destruct (String.eqb k k') eqn:Hk; cbn; rewrite ?String.eqb_refl, ?Hk;
      [reflexivity|exact IH].
Qed.

Lemma regex_condition_hit pattern d field s :
  Mongo.field_value d field = Some (Mongo.opt_str s) ->
  Mongo.fields_hold
    d [(field, JObj [("$regex", JStr pattern); ("$options", JStr "i")])]
  = true ->
  exists t, s = Some t /\ regex_search pattern "i" t = true.
Proof.
  intros Hv. unfold Mongo.fields_hold, Mongo.field_holds. cbn.
  rewrite Hv. destruct s as [t|]; cbn.
  - rewrite !andb_true_r. eauto.
  - discriminate.
Qed.

Lemma text_condition_hit pattern d :
  Mongo.entry_holds d "$or" (text_condition pattern) = true ->
  text_hit pattern d.
Proof.
  unfold Mongo.entry_holds, text_condition. cbn [String.eqb Ascii.eqb].
  cbn [existsb]. rewrite orb_false_r.
  intros [Ht|[Hd|Hs]%orb_true_iff]%orb_true_iff.
  - destruct (regex_condition_hit pattern d "title"
                (Some (DataRecord.title d)) eq_refl Ht) as (t & [= <-] & Hr).
    exists (DataRecord.title d). auto.
  - destruct (regex_condition_hit pattern d "description"
                (DataRecord.description d) eq_refl Hd) as (t & Heq & Hr).
    exists t. auto.
  - destruct (regex_condition_hit pattern d "search_text"
                (DataRecord.search_text d) eq_refl Hs) as (t & Heq & Hr).
    exists t. auto.
Qed.

(** A listing under filters that carry the text condition returns
    records with a hit. *)
Lemma condition_search_hits db pattern filters limit offset found :
  NoDup (Dict.keys filters) ->
  Dict.get "$or" filters = Some (text_condition pattern) ->
  Database.search_records db "" (Some filters) "created_at" (-1)
                          limit offset = inr found ->
  Forall (text_hit pattern) (SearchData.data found).
Proof.
  intros Hnd Hg Hf.
  apply search_records_inr in Hf as (mc & docs & sd & Hmc & _ & Hsc & ->).
  cbn [Database.has_text] in Hsc.
  change (Database.has_text "") with false in *.
  injection Hsc as <-. cbn [SearchData.data].
  assert (mc !! "$or" = Some (text_condition pattern)) as Hor.
  { unfold Database.match_conditions in Hmc.
    change (Database.has_text "") with false in Hmc.
    destruct filters as [|item items]; [discriminate Hg|].
    cbn [filters_truthy default] in Hmc.
    exact (add_filters_condition _ _ _ _ Hnd Hg Hmc). }
  apply Forall_forall. intros r Hr%subseteq_take%subseteq_drop.
  rewrite sort_stage_perm in Hr.
  apply list_elem_of_filter in Hr as [Hm%Is_true_true _].
  apply text_condition_hit.
  unfold Mongo.matches in Hm. rewrite forallb_forall in Hm.
  apply (Hm ("$or", text_condition pattern)).
  apply list_elem_of_In, elem_of_map_to_list, Hor.
Qed.

Lemma filters_copy_NoDup filters :
  NoDup (Dict.keys (default [] filters)) ->
  NoDup (Dict.keys (filters_copy filters)).
Proof.
  unfold filters_copy. destruct (filters_truthy filters); [done|].
  intros _. constructor.
Qed.

(** X19.  When the try block of the exact strategy succeeds, its result
    is the strategy's result, and every record in it has a title,
    description or search text in which the query is found as a whole
    phrase (the pattern [\bquery\b], ignoring case). *)
Theorem exact_search_hits db query filters limit offset found :
  NoDup (Dict.keys (default [] filters)) ->
  @exact_body (mongo_service db) query filters limit offset = inr found ->
  @_exact_search (mongo_service db) query filters limit offset = inr found
  /\ Forall (text_hit ("\b" +:+ query +:+ "\b")) (SearchData.data found).
Proof.
  intros Hnd Hb. unfold _exact_search. rewrite Hb. split; [reflexivity|].
  unfold exact_body in Hb. cbn [search_records mongo_service] in Hb.
  eapply condition_search_hits; [| |exact Hb].
  - apply dict_set_NoDup, filters_copy_NoDup, Hnd.
  - apply dict_get_set.
Qed.

(** X20.  When the query has a keyword and the try block of the fuzzy
    strategy succeeds, its result is the strategy's result, and every
    record in it has a title, description or search text in which one of
    the patterns [.*keyword.*] is found, ignoring case. *)
Theorem fuzzy_search_hits db query filters limit offset found :
  NoDup (Dict.keys (default [] filters)) ->
  Helpers.extract_keywords query <> [] ->
  @fuzzy_body (mongo_service db) query filters limit offset = inr found ->
  @_fuzzy_search (mongo_service db) query filters limit offset = inr found
  /\ Forall (text_hit
               (Str.join "|" (map (fun keyword => ".*" +:+ keyword +:+ ".*")
                                  (Helpers.extract_keywords query))))
            (SearchData.data found).
Proof.
  intros Hnd Hk Hb. unfold _fuzzy_search. rewrite Hb. split; [reflexivity|].
  unfold fuzzy_body, fuzzy_filters in Hb.
  cbn [search_records mongo_service] in Hb.
  destruct (Helpers.extract_keywords query) as [|keyword keywords] eqn:Hkw;
    [done|].
  eapply condition_search_hits; [| |exact Hb].
  - apply dict_set_NoDup, filters_copy_NoDup, Hnd.
  - apply dict_get_set.
Qed.

End ServiceOverStore.

Lemma fuzzy_without_keywords_lists_witness :
  Fixtures.scores
    (@SearchService._fuzzy_search Fixtures.store "the and of" None 10 0)
  = inr [("A", None); ("B", None)].
Proof.
  destruct (@Database.search_records Fixtures.engine Fixtures.db
              "" None "created_at" (-1) 10 0) as [e|found] eqn:Hl;
    [discriminate Hl|].
  unfold Fixtures.store.
  rewrite (@fuzzy_without_keywords_lists Fixtures.engine Fixtures.db
             "the and of" None 10 0 found eq_refl Hl).
  revert Hl. vm_compute. intros [= <-]. reflexivity.
Defined.

Lemma semantic_total_capped_witness :
  exists found listing,
    @SearchService.semantic_body Fixtures.store Fixtures.ai Fixtures.vectors
       "python" None 10 0 = inr found
    /\ @Database.search_records Fixtures.engine Fixtures.db
         "" None "created_at" (-1) 1000 0 = inr listing
    /\ SearchData.total_count found
       = min 1000 (SearchData.total_count listing).
Proof.
  destruct (@SearchService.semantic_body Fixtures.store Fixtures.ai
              Fixtures.vectors "python" None 10 0) as [e|found] eqn:Hb;
    [vm_compute in Hb; discriminate Hb|].
  destruct (@semantic_total_capped Fixtures.engine Fixtures.ai
              Fixtures.vectors Fixtures.db "python" None 10 0 found Hb)
    as (listing & Hl & Ht).
  exists found, listing. auto.
Defined.


Lemma exact_search_hits_witness :
  exists found,
    @SearchService._exact_search Fixtures.store "python engineer" None 10 0
    = inr found
    /\ ids (SearchData.data found) = ["A"]
    /\ Forall (@text_hit Fixtures.engine "\bpython engineer\b")
              (SearchData.data found).
Proof.
  destruct (@SearchService.exact_body Fixtures.store "python engineer"
              None 10 0) as [e|found] eqn:Hb;
    [vm_compute in Hb; discriminate Hb|].
  destruct (@exact_search_hits Fixtures.engine Fixtures.db "python engineer"
              None 10 0 found ltac:(constructor) Hb) as [Hs Hhits].
  exists found. split; [exact Hs|]. split; [|exact Hhits].
  revert Hb. vm_compute. intros [= <-]. reflexivity.
Defined.

Lemma fuzzy_search_hits_witness :
  exists found,
    @SearchService._fuzzy_search Fixtures.store "java or rust" None 10 0
    = inr found
    /\ ids (SearchData.data found) = ["B"]
    /\ Forall (@text_hit Fixtures.engine ".*java.*|.*rust.*")
              (SearchData.data found).
Proof.
  destruct (@SearchService.fuzzy_body Fixtures.store "java or rust"
              None 10 0) as [e|found] eqn:Hb;
    [vm_compute in Hb; discriminate Hb|].
  destruct (@fuzzy_search_hits Fixtures.engine Fixtures.db "java or rust"
              None 10 0 found ltac:(constructor) ltac:(discriminate) Hb)
    as [Hs Hhits].
  exists found. split; [exact Hs|]. split; [|exact Hhits].
  revert Hb. vm_compute. intros [= <-]. reflexivity.
Defined.

Lemma retrieval_excludes_deleted_witness :
  exists found,
    @SearchService.retrieve Fixtures.store Fixtures.ai Fixtures.vectors
       "python" HYBRID None 10 0 = inr found
    /\ Forall (fun r => DataRecord.status r <> DELETED)
              (SearchData.data found).
Proof.
  destruct (@SearchService.retrieve Fixtures.store Fixtures.ai
              Fixtures.vectors "python" HYBRID None 10 0)
    as [e|found] eqn:Hr; [vm_compute in Hr; discriminate Hr|].
  exists found. split; [reflexivity|].
  apply (@retrieval_excludes_deleted Fixtures.engine Fixtures.ai
           Fixtures.vectors Fixtures.db "python" HYBRID None 10 0 found);
    [apply not_elem_of_nil|exact Hr].
Defined.
